(** * CmdArgs: command-line argument parser for single-source/single-target tools

    A shallow embedding of the header-only parser [CmdArgs.h] and of the
    properties its specification states about it.

    The repository holds the header in three revisions, each embedded here
    in a module of its own:

    - [A]: [src/CmdArgs.h].  [check] resets the flags with hard-wired
      assignments and rejects identical extension lists; [parseFiles] takes
      the positional tokens as they are written.
    - [B]: the first header of [src/unnamed/part_001].  [cmd_flag] remembers
      its default, [parseFiles] anchors relative paths, accepts a target
      directory and validates the target extension.
    - [C]: the second header of [src/unnamed/part_001], an older revision
      that needs C++20: six flags, every message on [std::cout], [exit(1)]
      from [parseFlags].  The specification describes the other two; this
      one is covered by the further properties at the end of the file.

    Everything the revisions share textually ([tolower], [getExtension],
    [join], [contains], the tokenizer of [parse]) is defined once.

    Strings are [string]; an [std::filesystem::path] is its native pathname
    in the POSIX format, a [string] as well.  The filesystem queries
    ([is_directory], [exists], [current_path]) are an oracle passed to the
    parser, and the oracle answers every query: the headers call the
    throwing overloads of the library and catch nothing, so that in the
    program a query the operating system refuses (a name that is too long,
    say) ends the call with a [std::filesystem::filesystem_error]; such
    calls are outside the model.  What is proved of a call is proved of a
    call whose filesystem queries return, and nothing below states that a
    call throws for no other reason than a given one: what is stated about
    exceptions is stated of [check], which queries no filesystem.  The
    vector [argv[1..argc-1]] is a list of strings.  [std::cout] and
    [std::cerr] are accumulated in the state; [std::exit] and the
    [std::runtime_error] that [check] throws are completions of their own,
    distinct from a returned [bool]. *)

From Stdlib Require Import String Ascii List Bool Arith Lia ZArith.
Import ListNotations.

Open Scope list_scope.
Open Scope string_scope.

Set Implicit Arguments.

(* ================================================================== *)
(** * Strings *)

(** The line terminator written by ["\n"] and [std::endl]. *)
Definition nl : string := String (ascii_of_nat 10) EmptyString.

(** [c] occurs in [s]. *)
Fixpoint occurs (c : ascii) (s : string) : bool :=
  match s with
  | EmptyString => false
  | String a r => Ascii.eqb a c || occurs c r
  end.

(** [s.rfind(c)]: [rsplit c s = Some (b, t)] when the last [c] of [s] sits
    between [b] and [t]; [None] when [s] has no [c] ([npos]). *)
Fixpoint rsplit (c : ascii) (s : string) : option (string * string) :=
  match s with
  | EmptyString => None
  | String a r =>
      match rsplit c r with
      | Some (b, t) => Some (String a b, t)
      | None => if Ascii.eqb a c then Some (EmptyString, r) else None
      end
  end.

(** [std::tolower] in the "C" locale, on one [unsigned char]. *)
Definition tolower_char (c : ascii) : ascii :=
  let n := nat_of_ascii c in
  if ((65 <=? n) && (n <=? 90))%nat then ascii_of_nat (n + 32) else c.

(** [cmd::tolower]: [std::transform] of the string by [std::tolower]. *)
Fixpoint tolower (txt : string) : string :=
  match txt with
  | EmptyString => EmptyString
  | String c r => String (tolower_char c) (tolower r)
  end.

(** [cmd::join]: the elements of [v] separated by [delim]. *)
Fixpoint join (v : list string) (delim : string) : string :=
  match v with
  | [] => ""
  | [x] => x
  | x :: rest => x ++ delim ++ join rest delim
  end.

(** [CmdArgumentParser::contains]: [std::find] over the list with the
    element type's [operator==]. *)
Definition contains {T : Type} (eqb : T -> T -> bool) (list : list T) (value : T) : bool :=
  existsb (fun x => eqb x value) list.

(** [v.empty()] of a vector. *)
Definition vector_empty {T : Type} (v : list T) : bool :=
  match v with [] => true | _ => false end.

(** [operator==] of two [std::vector<std::string>]. *)
Fixpoint vector_eqb (v w : list string) : bool :=
  match v, w with
  | [], [] => true
  | x :: v', y :: w' => String.eqb x y && vector_eqb v' w'
  | _, _ => false
  end.

(* ================================================================== *)
(** * [std::filesystem::path], POSIX generic format

    A path is held as its native pathname.  The decomposition follows the
    C++17 library for a pathname without root-name (POSIX), with ['/'] the
    only directory separator: the filename is what follows the last
    separator, the extension starts at the last dot of the filename unless
    that dot is the filename's first character or the filename is ["."] or
    [".."]. *)

Definition path := string.

Module Path.

Definition sep : ascii := "/"%char.
Definition dot : ascii := "."%char.

Definition empty (p : path) : bool :=
  match p with EmptyString => true | _ => false end.

(** [p.is_absolute()], that is [p.has_root_directory()] on POSIX. *)
Definition is_absolute (p : path) : bool :=
  match p with
  | String c _ => Ascii.eqb c sep
  | EmptyString => false
  end.

(** [p.filename()]. *)
Definition filename (p : path) : path :=
  match rsplit sep p with
  | Some (_, t) => t
  | None => p
  end.

Definition has_filename (p : path) : bool := negb (empty (filename p)).

(** [s] without its trailing separators. *)
Fixpoint rstrip_sep (s : string) : string :=
  match s with
  | EmptyString => EmptyString
  | String a r =>
      match rstrip_sep r with
      | EmptyString => if Ascii.eqb a sep then EmptyString else String a EmptyString
      | r' => String a r'
      end
  end.

(** [p.parent_path()]: the path up to the end of the element before the
    last one; [p] itself when [p] has no relative path (empty, or
    separators only); the root directory when the last element follows
    it directly. *)
Definition parent_path (p : path) : path :=
  match rsplit sep p with
  | None => ""
  | Some (b, t) =>
      match rstrip_sep b with
      | EmptyString => if empty t then p else String sep EmptyString
      | d => d
      end
  end.

(** The filename cut at its extension: [(stem, extension)]. *)
Definition split_extension (f : string) : string * string :=
  if String.eqb f "." || String.eqb f ".." then (f, "")
  else
    match rsplit dot f with
    | None => (f, "")
    | Some (EmptyString, _) => (f, "")
    | Some (b, t) => (b, String dot t)
    end.

(** [p.stem()] and [p.extension()]. *)
Definition stem (p : path) : path := fst (split_extension (filename p)).
Definition extension (p : path) : path := snd (split_extension (filename p)).

Definition has_extension (p : path) : bool := negb (empty (extension p)).

(** [p] up to and including its last separator: what precedes the
    filename. *)
Definition dirpart (p : path) : string :=
  match rsplit sep p with
  | Some (b, _) => b ++ String sep EmptyString
  | None => ""
  end.

(** [p.replace_extension(replacement)]: the extension is removed; a dot is
    appended when [replacement] is not empty and does not begin with one;
    then [replacement] is appended. *)
Definition replace_extension (p : path) (replacement : path) : path :=
  let removed := dirpart p ++ stem p in
  let dotted :=
    match replacement with
    | EmptyString => removed
    | String c _ => if Ascii.eqb c dot then removed else removed ++ String dot EmptyString
    end in
  dotted ++ replacement.

(** [a / b] ([operator/]): [b] when [b] is absolute; otherwise [a], a
    separator when [a] has a filename, then [b]. *)
Definition append (a b : path) : path :=
  if is_absolute b then b
  else if has_filename a then a ++ String sep b
  else a ++ b.

End Path.

Infix "</>" := Path.append (at level 40, left associativity).

(** [cmd::getExtension]: the extension, lowercased, without its leading
    dot. *)
Definition getExtension (file : path) : string :=
  let ext := tolower (Path.extension file) in
  match ext with
  | String c r => if Ascii.eqb c "."%char then r else ext
  | EmptyString => ext
  end.

(** [cmd::defaultExt] / [cmd::defaultTargetExt]: the first entry of the
    list, the empty string for an empty list. *)
Definition defaultExt (list : list string) : string :=
  match list with
  | [] => ""
  | x :: _ => x
  end.

(* ================================================================== *)
(** * The environment of a call *)

(** The filesystem as the parser queries it: [std::filesystem::is_directory],
    [std::filesystem::exists] and [std::filesystem::current_path], each
    with the answer it returns (a query that ends with a
    [filesystem_error] is not modelled). *)
Record FileSystem : Type := {
  is_directory : path -> bool;
  exists_ : path -> bool;
  current_path : path
}.

(** The four flag objects both headers declare; a [flag_ptr] is the address
    of one of them, as stored in [cmd_flags]. *)
Inductive flag_ptr : Type := convert | translate | help | version.

Definition flag_ptr_eqb (p q : flag_ptr) : bool :=
  match p, q with
  | convert, convert | translate, translate | help, help | version, version => true
  | _, _ => false
  end.

(** The values a program tailors: the version text, the accepted
    extensions (first is default) and the flag registry. *)
Record Config : Type := {
  text_version : string;
  source_ext : list string;
  target_ext : list string;
  cmd_flags : list flag_ptr
}.

(** The values both headers ship with. *)
Definition demo : Config := {|
  text_version := "MyProgram version: 1.0.0";
  source_ext := ["txt"; "csv"; "json"];
  target_ext := ["csv"; "json"; "txt"];
  cmd_flags := [convert; translate; help; version]
|}.

Definition defaultTargetExt (cfg : Config) : string := defaultExt (target_ext cfg).

(** The loop of [CmdArgumentParser::parse] over [argv[1..argc-1]]: empty
    arguments are skipped (a null [argv[i]] is read as the empty string), an
    argument whose first character is ['-'] goes to [flags], any other to
    [files]. *)
Fixpoint tokenize (args : list string) : list string * list string :=
  match args with
  | [] => ([], [])
  | arg :: rest =>
      let (flags, files) := tokenize rest in
      match arg with
      | EmptyString => (flags, files)
      | String c _ =>
          if Ascii.eqb c "-"%char then (arg :: flags, files) else (flags, arg :: files)
      end
  end.

(** The inner loop of [parseFlags], the same in both headers: the first
    registered flag [f] whose name [s] ([const string s = *f]) makes
    [flag == "-" + s || flag == "--" + s] true. *)
Fixpoint find_flag (name : flag_ptr -> string) (registry : list flag_ptr)
    (flag : string) : option flag_ptr :=
  match registry with
  | [] => None
  | f :: rest =>
      let s := name f in
      if String.eqb flag ("-" ++ s) || String.eqb flag ("--" ++ s) then Some f
      else find_flag name rest flag
  end.

(* ================================================================== *)
(** * Completions and the monad of the parser

    A call either returns a value, ends the process through [std::exit], or
    lets a [std::runtime_error] escape.  [M S A] threads the state [S]
    (globals, parser object, output streams) and stops at the first exit or
    throw. *)

Inductive completion (A : Type) : Type :=
| Returned (a : A)
| Exited (code : Z)
| Thrown (what : string).

Arguments Returned {A} a.
Arguments Exited {A} code.
Arguments Thrown {A} what.

Definition M (S A : Type) : Type := S -> completion A * S.

Definition ret {S A : Type} (a : A) : M S A := fun s => (Returned a, s).

Definition bind {S A B : Type} (m : M S A) (k : A -> M S B) : M S B :=
  fun s =>
    match m s with
    | (Returned a, s') => k a s'
    | (Exited code, s') => (Exited code, s')
    | (Thrown what, s') => (Thrown what, s')
    end.

Definition get {S : Type} : M S S := fun s => (Returned s, s).
Definition modify {S : Type} (f : S -> S) : M S unit := fun s => (Returned tt, f s).
Definition std_exit {S A : Type} (code : Z) : M S A := fun s => (Exited code, s).
Definition throw {S A : Type} (what : string) : M S A := fun s => (Thrown what, s).

Notation "x <- c ;; k" := (bind c (fun x => k))
  (at level 61, c at next level, right associativity).
Notation "c ;; k" := (bind c (fun _ => k))
  (at level 61, right associativity).

(** A range-based [for] whose body neither returns nor breaks. *)
Fixpoint for_each {S T : Type} (l : list T) (body : T -> M S unit) : M S unit :=
  match l with
  | [] => ret tt
  | x :: rest => body x ;; for_each rest body
  end.

(* ================================================================== *)
(** * Revision A: [src/CmdArgs.h] *)

Module A.

(** [struct cmd_flag]: the (constant) name and the switch.  The
    conversions [operator bool] and [operator string] read [on] and
    [_flag]. *)
Record cmd_flag : Type := { _flag : string; on : bool }.

(** The flag objects as declared: [convert{"convert", true}],
    [translate{"translate", true}], [help{"help"}], [version{"version"}]. *)
Definition declared (f : flag_ptr) : cmd_flag :=
  match f with
  | convert => {| _flag := "convert"; on := true |}
  | translate => {| _flag := "translate"; on := true |}
  | help => {| _flag := "help"; on := false |}
  | version => {| _flag := "version"; on := false |}
  end.

(** The globals of namespace [cmd] (the flag objects, [source], [target]), the
    members of the [CmdArgumentParser] object the call runs on
    ([_source], [_target]), and what was written to the two streams. *)
Record state : Type := {
  flag_at : flag_ptr -> cmd_flag;
  source : path;
  target : path;
  _source : path;
  _target : path;
  cout : string;
  cerr : string
}.

(** The state after static initialisation, with a fresh parser object. *)
Definition initial : state := {|
  flag_at := declared; source := ""; target := "";
  _source := ""; _target := ""; cout := ""; cerr := ""
|}.

Definition set_source (p : path) (st : state) : state :=
  {| flag_at := flag_at st; source := p; target := target st;
     _source := _source st; _target := _target st; cout := cout st; cerr := cerr st |}.
Definition set_target (p : path) (st : state) : state :=
  {| flag_at := flag_at st; source := source st; target := p;
     _source := _source st; _target := _target st; cout := cout st; cerr := cerr st |}.
Definition set__source (p : path) (st : state) : state :=
  {| flag_at := flag_at st; source := source st; target := target st;
     _source := p; _target := _target st; cout := cout st; cerr := cerr st |}.
Definition set__target (p : path) (st : state) : state :=
  {| flag_at := flag_at st; source := source st; target := target st;
     _source := _source st; _target := p; cout := cout st; cerr := cerr st |}.
Definition write_cout (s : string) (st : state) : state :=
  {| flag_at := flag_at st; source := source st; target := target st;
     _source := _source st; _target := _target st; cout := cout st ++ s; cerr := cerr st |}.
Definition write_cerr (s : string) (st : state) : state :=
  {| flag_at := flag_at st; source := source st; target := target st;
     _source := _source st; _target := _target st; cout := cout st; cerr := cerr st ++ s |}.

(** [*f = set] ([cmd_flag::operator=(bool)]). *)
Definition assign (f : flag_ptr) (set : bool) (st : state) : state :=
  {| flag_at := fun p => if flag_ptr_eqb p f
                         then {| _flag := _flag (flag_at st p); on := set |}
                         else flag_at st p;
     source := source st; target := target st;
     _source := _source st; _target := _target st; cout := cout st; cerr := cerr st |}.

(** [text_help], built once from the extension lists. *)
Definition text_help (cfg : Config) : string :=
  "Usage: MyProgram [options] <source_file> [target_file]" ++ nl ++
  nl ++
  "Options:" ++ nl ++
  "  -convert       Convert the source file to the target format (default)" ++ nl ++
  "  -translate     Enable translation (default)" ++ nl ++
  "  -help          Show this help message" ++ nl ++
  "  -version       Show version information" ++ nl ++
  nl ++
  "File extensions:" ++ nl ++
  "  Source: " ++
  join (source_ext cfg) ", " ++
  nl ++
  "  Target: " ++
  join (target_ext cfg) ", " ++
  nl ++
  nl ++
  "Notes:" ++ nl ++
  "  If target_file is omitted, output defaults to source name with the default target extension." ++ nl.

Module CmdArgumentParser.

(** [err]: the message goes to [std::cerr]; the result is [false]. *)
Definition err (msg : string) : M state bool :=
  modify (write_cerr ("Error: " ++ msg ++ nl)) ;; ret false.

(** [info]: the message goes to [std::cout], then [exit(code)]. *)
Definition info {T : Type} (msg : string) (code : Z) : M state T :=
  modify (write_cout (msg ++ nl)) ;; std_exit code.

(** [check()] (lines 199-220): the reset, then the configuration
    checks, each throwing a [runtime_error]. *)
Definition check (cfg : Config) : M state unit :=
  modify (set_source "") ;;
  modify (set_target "") ;;
  for_each (cmd_flags cfg) (fun f => modify (assign f false)) ;;
  modify (assign convert true) ;;
  modify (assign translate true) ;;
  if vector_empty (source_ext cfg) || vector_empty (target_ext cfg) then
    throw "Error: source_ext or target_ext is not defined."
  else if vector_eqb (source_ext cfg) (target_ext cfg) then
    throw "Error: source_ext and target_ext cannot be the same."
  else if negb (contains flag_ptr_eqb (cmd_flags cfg) help) then
    throw "Error: cmd_flags must contain 'help' flag."
  else if negb (contains flag_ptr_eqb (cmd_flags cfg) version) then
    throw "Error: cmd_flags must contain 'version' flag."
  else if (length (cmd_flags cfg) <? 3)%nat then
    throw "Error: cmd_flags is not defined."
  else ret tt.

(** The outer loop of [parseFlags].  [Some countFlags] when every flag
    was found; [None] when the function has returned through
    [err("argument: Unknown flag ...")]. *)
Fixpoint parseFlags_loop (cfg : Config) (flags : list string) (countFlags : nat)
    : M state (option nat) :=
  match flags with
  | [] => ret (Some countFlags)
  | flag :: rest =>
      st <- get ;;
      match find_flag (fun f => _flag (flag_at st f)) (cmd_flags cfg) flag with
      | Some f =>
          modify (assign f true) ;;
          parseFlags_loop cfg rest (S countFlags)
      | None =>
          err ("argument: Unknown flag " ++ flag) ;; ret None
      end
  end.

(** [parseFlags] (lines 222-258): after the loop, the help/version
    short-circuit. *)
Definition parseFlags (cfg : Config) (flags : list string) (countFiles : nat)
    : M state bool :=
  r <- parseFlags_loop cfg flags 0 ;;
  match r with
  | None => ret false
  | Some countFlags =>
      st <- get ;;
      if on (flag_at st help) || on (flag_at st version) then
        if (1 <? countFlags)%nat || negb (countFiles =? 0)%nat then
          err "argument: Too many arguments"
        else if on (flag_at st help) then
          info (text_help cfg) 0
        else
          info (text_version cfg) 0
      else ret true
  end.

(** [parseFiles] (lines 260-309).  [finish] is the tail of the
    function, from the identity check on, reached from both branches
    of [files.size() == 2]. *)
Definition parseFiles (cfg : Config) (fs : FileSystem) (files : list string)
    : M state bool :=
  if vector_empty files then
    err "No source file specified"
  else if (2 <? length files)%nat then
    err "argument: Too many arguments"
  else
    modify (set__source (nth 0 files "")) ;;
    st <- get ;;
    if is_directory fs (_source st) then
      if (1 <? length files)%nat then
        err "argument: Too many arguments"
      else
        modify (fun st => set_source (_source st) st) ;;
        modify (fun st => set_target (_target st) st) ;;
        ret true
    else if negb (exists_ fs (_source st)) then
      err ("Could not find the source file " ++ nth 0 files "")
    else
      let extension := getExtension (_source st) in
      if negb (contains String.eqb (source_ext cfg) extension) then
        err ("Source file is not a valid extension: " ++ _source st)
      else
        let finish : M state bool :=
          st <- get ;;
          if String.eqb (tolower (_source st)) (tolower (_target st)) then
            err "Source and target files are the same"
          else
            modify (fun st => set_source (_source st) st) ;;
            modify (fun st => set_target (_target st) st) ;;
            ret true in
        modify (fun st => set__target (_source st) st) ;;
        modify (fun st =>
          set__target (Path.replace_extension (_target st) (defaultTargetExt cfg)) st) ;;
        if (length files =? 2)%nat then
          modify (set__target (nth 1 files "")) ;;
          modify (fun st =>
            if Path.empty (Path.parent_path (_target st))
            then set__target (Path.parent_path (_source st) </> Path.filename (_target st)) st
            else st) ;;
          st <- get ;;
          if negb (is_directory fs (Path.parent_path (_target st))) then
            err ("Target file has unknown directory " ++ _target st)
          else finish
        else finish.

(** [CmdArgumentParser::parse] (lines 156-178). *)
Definition parse (cfg : Config) (fs : FileSystem) (args : list string)
    : M state bool :=
  check cfg ;;
  let (flags, files) := tokenize args in
  ok <- parseFlags cfg flags (length files) ;;
  if negb ok then ret false
  else parseFiles cfg fs files.

End CmdArgumentParser.

(** [cmd::parse]: a parser object of its own for every call
    ([CmdArgumentParser command;]), then [command.parse(argc, argv)]. *)
Definition parse (cfg : Config) (fs : FileSystem) (args : list string)
    : M state bool :=
  modify (fun st => set__source "" (set__target "" st)) ;;
  CmdArgumentParser.parse cfg fs args.

End A.

(* ================================================================== *)
(** * Revision B: the first header of [src/unnamed/part_001] *)

Module B.

(** [struct cmd_flag]: the (constant) name, the switch, and the value the
    constructor was given, kept for [clear]. *)
Record cmd_flag : Type := { _flag : string; on : bool; defaultOn : bool }.

(** The constructor [cmd_flag(flag, on = false)]. *)
Definition new_flag (flag : string) (on : bool) : cmd_flag :=
  {| _flag := flag; on := on; defaultOn := on |}.

(** The flag objects as declared: [convert{"convert", true}],
    [translate{"translate"}], [help{"help"}], [version{"version"}]. *)
Definition declared (f : flag_ptr) : cmd_flag :=
  match f with
  | convert => new_flag "convert" true
  | translate => new_flag "translate" false
  | help => new_flag "help" false
  | version => new_flag "version" false
  end.

(** The globals of namespace [cmd] (the flag objects, [source], [target]), the
    members of the [CmdArgumentParser] object the call runs on
    ([_source], [_target]), and what was written to the two streams. *)
Record state : Type := {
  flag_at : flag_ptr -> cmd_flag;
  source : path;
  target : path;
  _source : path;
  _target : path;
  cout : string;
  cerr : string
}.

(** The state after static initialisation, with a fresh parser object. *)
Definition initial : state := {|
  flag_at := declared; source := ""; target := "";
  _source := ""; _target := ""; cout := ""; cerr := ""
|}.

Definition set_source (p : path) (st : state) : state :=
  {| flag_at := flag_at st; source := p; target := target st;
     _source := _source st; _target := _target st; cout := cout st; cerr := cerr st |}.
Definition set_target (p : path) (st : state) : state :=
  {| flag_at := flag_at st; source := source st; target := p;
     _source := _source st; _target := _target st; cout := cout st; cerr := cerr st |}.
Definition set__source (p : path) (st : state) : state :=
  {| flag_at := flag_at st; source := source st; target := target st;
     _source := p; _target := _target st; cout := cout st; cerr := cerr st |}.
Definition set__target (p : path) (st : state) : state :=
  {| flag_at := flag_at st; source := source st; target := target st;
     _source := _source st; _target := p; cout := cout st; cerr := cerr st |}.
Definition write_cout (s : string) (st : state) : state :=
  {| flag_at := flag_at st; source := source st; target := target st;
     _source := _source st; _target := _target st; cout := cout st ++ s; cerr := cerr st |}.
Definition write_cerr (s : string) (st : state) : state :=
  {| flag_at := flag_at st; source := source st; target := target st;
     _source := _source st; _target := _target st; cout := cout st; cerr := cerr st ++ s |}.

(** [*f = set] ([cmd_flag::operator=(bool)]). *)
Definition assign (f : flag_ptr) (set : bool) (st : state) : state :=
  {| flag_at := fun p => if flag_ptr_eqb p f
                         then {| _flag := _flag (flag_at st p); on := set;
                                 defaultOn := defaultOn (flag_at st p) |}
                         else flag_at st p;
     source := source st; target := target st;
     _source := _source st; _target := _target st; cout := cout st; cerr := cerr st |}.

(** [f->clear()]: [on = defaultOn]. *)
Definition clear (f : flag_ptr) (st : state) : state :=
  assign f (defaultOn (flag_at st f)) st.

(** [text_help], built once from the extension lists. *)
Definition text_help (cfg : Config) : string :=
  nl ++ "Usage: MyProgram [options] <source_path> [target_path]" ++ nl ++ nl ++
  "Options:" ++ nl ++ nl ++
  "  -convert       Convert the source to the target format (default)" ++ nl ++
  "  -translate     Enable translation (must be specified)" ++ nl ++
  "  -help          Show this help message" ++ nl ++
  "  -version       Show version information" ++ nl ++
  nl ++
  "File extensions:" ++ nl ++ nl ++
  "  Source: " ++
  join (source_ext cfg) ", " ++
  nl ++
  "  Target: " ++
  join (target_ext cfg) ", " ++
  nl ++ nl ++
  "Notes:" ++ nl ++ nl ++
  "  Paths are resolved relative to the current working directory." ++ nl ++
  "  If target_path is given without a directory, it is placed next to the source file." ++ nl ++
  "  If target_path is a directory, output is placed in that directory." ++ nl ++
  "  If target_path is omitted, the output name is derived from the source file." ++ nl ++
  "  Example:  input.txt  ->  input.csv" ++ nl.

Module CmdArgumentParser.

(** [err]: the message goes to [std::cerr]; the result is [false]. *)
Definition err (msg : string) : M state bool :=
  modify (write_cerr ("Error: " ++ msg ++ nl)) ;; ret false.

(** [info]: the message goes to [std::cout], then [std::exit(code)]. *)
Definition info {T : Type} (msg : string) (code : Z) : M state T :=
  modify (write_cout (msg ++ nl)) ;; std_exit code.

(** [check()] (lines 259-274): the reset, then the configuration
    checks, each throwing a [std::runtime_error]. *)
Definition check (cfg : Config) : M state unit :=
  modify (set_source "") ;;
  modify (set_target "") ;;
  for_each (cmd_flags cfg) (fun f => modify (clear f)) ;;
  if vector_empty (source_ext cfg) || vector_empty (target_ext cfg) then
    throw "Error: source_ext or target_ext is not defined."
  else if negb (contains flag_ptr_eqb (cmd_flags cfg) help) then
    throw "Error: cmd_flags must contain 'help' flag."
  else if negb (contains flag_ptr_eqb (cmd_flags cfg) version) then
    throw "Error: cmd_flags must contain 'version' flag."
  else if (length (cmd_flags cfg) <? 3)%nat then
    throw "Error: cmd_flags is not defined."
  else ret tt.

(** The outer loop of [parseFlags].  [Some countFlags] when every flag
    was found; [None] when the function has returned through
    [err("argument: Unknown flag ...")]. *)
Fixpoint parseFlags_loop (cfg : Config) (flags : list string) (countFlags : nat)
    : M state (option nat) :=
  match flags with
  | [] => ret (Some countFlags)
  | flag :: rest =>
      st <- get ;;
      match find_flag (fun f => _flag (flag_at st f)) (cmd_flags cfg) flag with
      | Some f =>
          modify (assign f true) ;;
          parseFlags_loop cfg rest (S countFlags)
      | None =>
          err ("argument: Unknown flag " ++ flag) ;; ret None
      end
  end.

(** [parseFlags] (lines 276-312): after the loop, the help/version
    short-circuit. *)
Definition parseFlags (cfg : Config) (flags : list string) (countFiles : nat)
    : M state bool :=
  r <- parseFlags_loop cfg flags 0 ;;
  match r with
  | None => ret false
  | Some countFlags =>
      st <- get ;;
      if on (flag_at st help) || on (flag_at st version) then
        if (1 <? countFlags)%nat || negb (countFiles =? 0)%nat then
          err "argument: Too many arguments"
        else if on (flag_at st help) then
          info (text_help cfg) 0
        else
          info (text_version cfg) 0
      else ret true
  end.

(** [parseFiles] (lines 314-387).  [finish] is the tail of the
    function, from the identity check on, reached from every branch
    of [files.size() == 2] that does not return. *)
Definition parseFiles (cfg : Config) (fs : FileSystem) (files : list string)
    : M state bool :=
  if vector_empty files then
    err "No source file specified"
  else if (2 <? length files)%nat then
    err "argument: Too many arguments"
  else
    modify (set__source (nth 0 files "")) ;;
    st <- get ;;
    if is_directory fs (_source st) then
      if (1 <? length files)%nat then
        err "argument: Too many arguments"
      else
        modify (fun st => set_source (_source st) st) ;;
        modify (set_target "") ;;
        ret true
    else
      modify (fun st =>
        if Path.empty (Path.parent_path (_source st))
        then set__source (current_path fs </> _source st) st
        else st) ;;
      st <- get ;;
      if negb (exists_ fs (_source st)) then
        err ("Could not find the source file " ++ nth 0 files "")
      else if negb (contains String.eqb (source_ext cfg) (getExtension (_source st))) then
        err ("Source file is not a valid extension: " ++ _source st)
      else
        let finish : M state bool :=
          st <- get ;;
          if String.eqb (tolower (_source st)) (tolower (_target st)) then
            err "Source and target files are the same"
          else if negb (contains String.eqb (target_ext cfg) (getExtension (_target st))) then
            err ("Target file is not a valid extension: " ++ _target st)
          else
            modify (fun st => set_source (_source st) st) ;;
            modify (fun st => set_target (_target st) st) ;;
            ret true in
        modify (fun st => set__target (_source st) st) ;;
        modify (fun st =>
          set__target (Path.replace_extension (_target st) (defaultTargetExt cfg)) st) ;;
        if (length files =? 2)%nat then
          modify (set__target (nth 1 files "")) ;;
          modify (fun st =>
            if Path.empty (Path.parent_path (_target st))
            then set__target (Path.parent_path (_source st) </> _target st) st
            else st) ;;
          st <- get ;;
          if negb (Path.empty (Path.parent_path (_target st)))
             && negb (is_directory fs (Path.parent_path (_target st))) then
            if Path.has_extension (_target st) then
              err ("Target file has unknown directory " ++ _target st)
            else
              err ("Target directory does not exist " ++ _target st)
          else if negb (Path.has_extension (_target st)) then
            if negb (is_directory fs (_target st)) then
              err ("Target directory does not exist " ++ _target st)
            else
              modify (fun st => set__target (_target st </> Path.filename (_source st)) st) ;;
              modify (fun st =>
                set__target (Path.replace_extension (_target st) (defaultTargetExt cfg)) st) ;;
              finish
          else finish
        else finish.

(** [CmdArgumentParser::parse] (lines 215-237). *)
Definition parse (cfg : Config) (fs : FileSystem) (args : list string)
    : M state bool :=
  check cfg ;;
  let (flags, files) := tokenize args in
  ok <- parseFlags cfg flags (length files) ;;
  if negb ok then ret false
  else parseFiles cfg fs files.

End CmdArgumentParser.

(** [cmd::parse]: a parser object of its own for every call
    ([CmdArgumentParser command;]), then [command.parse(argc, argv)]. *)
Definition parse (cfg : Config) (fs : FileSystem) (args : list string)
    : M state bool :=
  modify (fun st => set__source "" (set__target "" st)) ;;
  CmdArgumentParser.parse cfg fs args.

End B.

(* ================================================================== *)
(** * Vocabulary of the properties *)

(** ** Configuration *)

(** What the configuration check of both headers rejects: an empty
    extension list, a registry without the help flag or without the
    version flag, a registry of fewer than 3 entries. *)
Definition misconfigured (cfg : Config) : Prop :=
  source_ext cfg = [] \/ target_ext cfg = [] \/
  ~ In help (cmd_flags cfg) \/ ~ In version (cmd_flags cfg) \/
  length (cmd_flags cfg) < 3.

(** What revision A rejects on top of that: extension lists that are
    identical. *)
Definition identical_extension_lists (cfg : Config) : Prop :=
  source_ext cfg = target_ext cfg.

(** An extension as the lists are meant to hold it: not empty, without a
    dot, without a separator. *)
Definition plain_extension (e : string) : Prop :=
  e <> "" /\ occurs Path.dot e = false /\ occurs Path.sep e = false.


(** ** Flag tokens *)

(** The flags found for the tokens, in order, up to the first token that
    names no registered flag. *)
Fixpoint matched_flags (name : flag_ptr -> string) (registry : list flag_ptr)
    (flags : list string) : list flag_ptr :=
  match flags with
  | [] => []
  | flag :: rest =>
      match find_flag name registry flag with
      | Some f => f :: matched_flags name registry rest
      | None => []
      end
  end.

(** The first token that names no registered flag. *)
Fixpoint unknown_flag (name : flag_ptr -> string) (registry : list flag_ptr)
    (flags : list string) : option string :=
  match flags with
  | [] => None
  | flag :: rest =>
      match find_flag name registry flag with
      | Some _ => unknown_flag name registry rest
      | None => Some flag
      end
  end.

(** [f] is among the flags [l]. *)
Definition among (l : list flag_ptr) (f : flag_ptr) : bool :=
  existsb (flag_ptr_eqb f) l.

(** The argument list mentions the flag called [s]: it holds [-s] or
    [--s]. *)
Definition mentions (args : list string) (s : string) : Prop :=
  In ("-" ++ s) args \/ In ("--" ++ s) args.

(** ** Revision A *)

(** The name of a flag object. *)
Definition A_name (st : A.state) (f : flag_ptr) : string := A._flag (A.flag_at st f).

(** The configured default of a flag: the value it is declared with. *)
Definition A_default (f : flag_ptr) : bool := A.on (A.declared f).

(** The state [cmd::parse] hands to [CmdArgumentParser::parse]: the
    globals as they are, a parser object just constructed. *)
Definition A_fresh (st : A.state) : A.state := A.set__source "" (A.set__target "" st).

(** The state [check] leaves. *)
Definition A_reset (cfg : Config) (st : A.state) : A.state :=
  snd (A.CmdArgumentParser.check cfg st).

(** The configuration check passes and [parseFlags] returns [true]: the
    call gets as far as [parseFiles]. *)
Definition A_flags_accepted (cfg : Config) (args : list string) (st : A.state) : Prop :=
  fst (A.CmdArgumentParser.check cfg st) = Returned tt /\
  fst (A.CmdArgumentParser.parseFlags cfg (fst (tokenize args))
         (length (snd (tokenize args))) (A_reset cfg st)) = Returned true.

(** The state [parseFlags] leaves. *)
Definition A_after_flags (cfg : Config) (args : list string) (st : A.state) : A.state :=
  snd (A.CmdArgumentParser.parseFlags cfg (fst (tokenize args))
         (length (snd (tokenize args))) (A_reset cfg st)).

(** ** Revision B *)

(** The name of a flag object. *)
Definition B_name (st : B.state) (f : flag_ptr) : string := B._flag (B.flag_at st f).

(** The configured default of a flag: what its constructor stored. *)
Definition B_default (st : B.state) (f : flag_ptr) : bool := B.defaultOn (B.flag_at st f).

(** The state [cmd::parse] hands to [CmdArgumentParser::parse]. *)
Definition B_fresh (st : B.state) : B.state := B.set__source "" (B.set__target "" st).

(** The state [check] leaves. *)
Definition B_reset (cfg : Config) (st : B.state) : B.state :=
  snd (B.CmdArgumentParser.check cfg st).

(** The configuration check passes and [parseFlags] returns [true]: the
    call gets as far as [parseFiles]. *)
Definition B_flags_accepted (cfg : Config) (args : list string) (st : B.state) : Prop :=
  fst (B.CmdArgumentParser.check cfg st) = Returned tt /\
  fst (B.CmdArgumentParser.parseFlags cfg (fst (tokenize args))
         (length (snd (tokenize args))) (B_reset cfg st)) = Returned true.

(** The state [parseFlags] leaves. *)
Definition B_after_flags (cfg : Config) (args : list string) (st : B.state) : B.state :=
  snd (B.CmdArgumentParser.parseFlags cfg (fst (tokenize args))
         (length (snd (tokenize args))) (B_reset cfg st)).

(** The source path of revision B: a token without directory component is
    anchored to the current working directory. *)
Definition B_resolved_source (fs : FileSystem) (token : string) : path :=
  if Path.empty (Path.parent_path token) then current_path fs </> token else token.

(** The explicit target of revision B before it is looked at: a token
    without directory component is placed next to the source. *)
Definition B_anchored_target (source token : path) : path :=
  if Path.empty (Path.parent_path token) then Path.parent_path source </> token else token.

(** ** A filesystem for the examples

    Directories [/], [/home], [/home/u] (the working directory) and [/out];
    a few files in [/home/u], which are reachable by their bare names as
    well. *)
Definition demo_directories : list path := ["/"; "/home"; "/home/u"; "/out"].

Definition demo_files : list path :=
  ["/home/u/source.txt"; "/home/u/SOURCE.TXT"; "/home/u/source.json"; "/home/u/source.jpg";
   "/home/u/data.csv";
   "source.txt"; "SOURCE.TXT"; "source.json"; "source.jpg"; "data.csv"].

Definition demo_fs : FileSystem := {|
  is_directory := fun p => existsb (String.eqb p) demo_directories;
  exists_ := fun p => existsb (String.eqb p) (demo_directories ++ demo_files)%list;
  current_path := "/home/u"
|}.

(** ** The state after the flag loop *)

(** Revision A: the flags matched by the tokens are switched on. *)
Definition A_switched (cfg : Config) (flags : list string) (st : A.state) : A.state :=
  fold_left (fun s f => A.assign f true s)
    (matched_flags (A_name st) (cmd_flags cfg) flags) st.

(** Revision B: the same. *)
Definition B_switched (cfg : Config) (flags : list string) (st : B.state) : B.state :=
  fold_left (fun s f => B.assign f true s)
    (matched_flags (B_name st) (cmd_flags cfg) flags) st.

(** ** The resolved paths

    The source and target a call resolves from its positional tokens, when
    it resolves both (one or two tokens, the first not a directory, every
    check before the identity check passed); [None] otherwise. *)

(** Revision A: the source is the first token as written; it must exist
    with an accepted extension.  The target is the source with the default
    target extension, or the second token, placed next to the source when
    it has no directory component; its parent must be a directory. *)
Definition A_resolved_paths (cfg : Config) (fs : FileSystem) (files : list string)
    : option (path * path) :=
  match files with
  | s :: more =>
      if negb (is_directory fs s) && exists_ fs s
         && contains String.eqb (source_ext cfg) (getExtension s)
      then
        match more with
        | [] => Some (s, Path.replace_extension s (defaultTargetExt cfg))
        | [t] =>
            let rt := if Path.empty (Path.parent_path t)
                      then Path.parent_path s </> Path.filename t else t in
            if is_directory fs (Path.parent_path rt) then Some (s, rt) else None
        | _ => None
        end
      else None
  | [] => None
  end.

(** Revision B: the source is the first token, anchored to the working
    directory when it has no directory component; it must exist with an
    accepted extension.  The target is the source with the default target
    extension, or the second token, placed next to the source when it has
    no directory component; its parent must be a directory; without an
    extension it must be a directory itself, and the target becomes the
    source's filename in it, with the default target extension. *)
Definition B_resolved_paths (cfg : Config) (fs : FileSystem) (files : list string)
    : option (path * path) :=
  match files with
  | s :: more =>
      let rs := B_resolved_source fs s in
      if negb (is_directory fs s) && exists_ fs rs
         && contains String.eqb (source_ext cfg) (getExtension rs)
      then
        match more with
        | [] => Some (rs, Path.replace_extension rs (defaultTargetExt cfg))
        | [t] =>
            let rt := B_anchored_target rs t in
            if negb (Path.empty (Path.parent_path rt))
               && negb (is_directory fs (Path.parent_path rt)) then None
            else if Path.has_extension rt then Some (rs, rt)
            else if is_directory fs rt then
              Some (rs, Path.replace_extension (rt </> Path.filename rs) (defaultTargetExt cfg))
            else None
        | _ => None
        end
      else None
  | [] => None
  end.

(** ** The help/version short-circuit as the specification words it

    "If either help or version became enabled, it must be the only flag
    enabled and there must be zero positional tokens; otherwise fail with
    too many arguments.  If valid, emit the text and exit with success."
    The flags a call enables are the ones its flag tokens match (up to the
    first token that names no flag, where [parseFlags] returns); another
    flag is enabled when [convert] or [translate] is matched, or both
    [help] and [version] are.  The configuration is one the check
    accepts. *)
Definition another_flag_enabled (enabled : flag_ptr -> bool) : bool :=
  enabled convert || enabled translate || (enabled help && enabled version).

Definition A_short_circuit_as_stated (cfg : Config) (fs : FileSystem)
    (args : list string) (st : A.state) : Prop :=
  let flags := fst (tokenize args) in
  let files := snd (tokenize args) in
  let enabled := among (matched_flags (A_name st) (cmd_flags cfg) flags) in
  ~ (misconfigured cfg \/ identical_extension_lists cfg) ->
  enabled help || enabled version = true ->
  let (c, st') := A.parse cfg fs args st in
  if another_flag_enabled enabled || negb (vector_empty files) then
    c = Returned false /\
    A.cerr st' = A.cerr st ++ "Error: " ++ "argument: Too many arguments" ++ nl
  else
    c = Exited 0%Z /\
    (A.cout st' = A.cout st ++ A.text_help cfg ++ nl \/
     A.cout st' = A.cout st ++ text_version cfg ++ nl).

Definition B_short_circuit_as_stated (cfg : Config) (fs : FileSystem)
    (args : list string) (st : B.state) : Prop :=
  let flags := fst (tokenize args) in
  let files := snd (tokenize args) in
  let enabled := among (matched_flags (B_name st) (cmd_flags cfg) flags) in
  ~ misconfigured cfg ->
  enabled help || enabled version = true ->
  let (c, st') := B.parse cfg fs args st in
  if another_flag_enabled enabled || negb (vector_empty files) then
    c = Returned false /\
    B.cerr st' = B.cerr st ++ "Error: " ++ "argument: Too many arguments" ++ nl
  else
    c = Exited 0%Z /\
    (B.cout st' = B.cout st ++ B.text_help cfg ++ nl \/
     B.cout st' = B.cout st ++ text_version cfg ++ nl).

(* ================================================================== *)
(** * Vocabulary of the further properties *)

(** ** The default source extension *)

(** [cmd::defaultSourceExt] of revision B: the first entry of the source
    list, the empty string for an empty list. *)
Definition defaultSourceExt (cfg : Config) : string := defaultExt (source_ext cfg).

(** ** Tokens *)

(** The argument is a flag token: its first character is ['-']. *)
Definition flag_token (arg : string) : bool :=
  match arg with
  | String c _ => Ascii.eqb c "-"%char
  | EmptyString => false
  end.

(** The argument is a positional token: not empty, and its first
    character is not ['-']. *)
Definition file_token (arg : string) : bool :=
  match arg with
  | String c _ => negb (Ascii.eqb c "-"%char)
  | EmptyString => false
  end.

(** The registered flags have names of their own, none of which begins
    with ['-']. *)
Definition plain_names (name : flag_ptr -> string) (registry : list flag_ptr) : Prop :=
  NoDup (map name registry) /\ forall g, In g registry -> flag_token (name g) = false.

(** ** Positional tokens that make a call succeed *)

(** Revision A: one token that is a directory, or paths that resolve and
    differ when case is ignored. *)
Definition A_files_accepted (cfg : Config) (fs : FileSystem) (files : list string) : Prop :=
  (exists d, files = [d] /\ is_directory fs d = true) \/
  (exists rs rt, A_resolved_paths cfg fs files = Some (rs, rt) /\
                 tolower rs <> tolower rt).

(** Revision B: the same, and the extension of the resolved target is an
    accepted one. *)
Definition B_files_accepted (cfg : Config) (fs : FileSystem) (files : list string) : Prop :=
  (exists d, files = [d] /\ is_directory fs d = true) \/
  (exists rs rt, B_resolved_paths cfg fs files = Some (rs, rt) /\
                 tolower rs <> tolower rt /\
                 In (getExtension rt) (target_ext cfg)).

(* ================================================================== *)
(** * Revision C: the second header of [src/unnamed/part_001]

    The oldest of the three revisions: six flags, every message on
    [std::cout], [exit(1)] from [parseFlags], a [goto] in [parseFiles].
    It shares [tolower], [getExtension], [join], [contains] and the
    tokenizer of [parse] with the other two. *)

Module C.

(** The six flag objects the header declares; a [flag_ptr] is the
    address of one of them, as stored in [cmd_flags]. *)
Inductive flag_ptr : Type := convert | compress | async | scale | help | version.

Definition flag_ptr_eqb (p q : flag_ptr) : bool :=
  match p, q with
  | convert, convert | compress, compress | async, async
  | scale, scale | help, help | version, version => true
  | _, _ => false
  end.

(** The values a program tailors. *)
Record Config : Type := {
  text_version : string;
  source_ext : list string;
  target_ext : list string;
  cmd_flags : list flag_ptr
}.

(** The values the header ships with. *)
Definition demo : Config := {|
  text_version := "MyProgram version: 1.0.0";
  source_ext := ["rvm"; "obj"];
  target_ext := ["obj"; "gltf"; "ciff"; "dat"; "txt"];
  cmd_flags := [convert; compress; async; scale; help; version]
|}.

(** [defaultSourceExt] and [defaultTargetExt]: the front of the list,
    the empty string for an empty list. *)
Definition defaultSourceExt (cfg : Config) : string := defaultExt (source_ext cfg).
Definition defaultTargetExt (cfg : Config) : string := defaultExt (target_ext cfg).

(** [struct cmd_flag]: the name the constructor is given ([_flag]), a
    second string the constructor leaves empty ([_name], returned by
    [name()]), and the switch. *)
Record cmd_flag : Type := { _flag : string; _name : string; on : bool }.

(** The constructor [cmd_flag(flag, on = false)]. *)
Definition new_flag (flag : string) (on : bool) : cmd_flag :=
  {| _flag := flag; _name := ""; on := on |}.

(** [cmd_flag::name()]. *)
Definition name (f : cmd_flag) : string := _name f.

(** The flag objects as declared. *)
Definition declared (f : flag_ptr) : cmd_flag :=
  match f with
  | convert => new_flag "convert" true
  | compress => new_flag "compress" false
  | async => new_flag "async" false
  | scale => new_flag "scale" false
  | help => new_flag "help" false
  | version => new_flag "version" false
  end.

(** The globals of namespace [cmd], the members of the parser object the
    call runs on, and what was written to [std::cout] (the header writes
    to no other stream). *)
Record state : Type := {
  flag_at : flag_ptr -> cmd_flag;
  source : path;
  target : path;
  _source : path;
  _target : path;
  cout : string
}.

(** The state after static initialisation, with a fresh parser object. *)
Definition initial : state := {|
  flag_at := declared; source := ""; target := "";
  _source := ""; _target := ""; cout := ""
|}.

Definition set_source (p : path) (st : state) : state :=
  {| flag_at := flag_at st; source := p; target := target st;
     _source := _source st; _target := _target st; cout := cout st |}.
Definition set_target (p : path) (st : state) : state :=
  {| flag_at := flag_at st; source := source st; target := p;
     _source := _source st; _target := _target st; cout := cout st |}.
Definition set__source (p : path) (st : state) : state :=
  {| flag_at := flag_at st; source := source st; target := target st;
     _source := p; _target := _target st; cout := cout st |}.
Definition set__target (p : path) (st : state) : state :=
  {| flag_at := flag_at st; source := source st; target := target st;
     _source := _source st; _target := p; cout := cout st |}.
Definition write_cout (s : string) (st : state) : state :=
  {| flag_at := flag_at st; source := source st; target := target st;
     _source := _source st; _target := _target st; cout := cout st ++ s |}.

(** [*f = set] ([cmd_flag::operator=(bool)]). *)
Definition assign (f : flag_ptr) (set : bool) (st : state) : state :=
  {| flag_at := fun p => if flag_ptr_eqb p f
                         then {| _flag := _flag (flag_at st p);
                                 _name := _name (flag_at st p); on := set |}
                         else flag_at st p;
     source := source st; target := target st;
     _source := _source st; _target := _target st; cout := cout st |}.

(** [text_help], built once from the extension lists. *)
Definition text_help (cfg : Config) : string :=
  "Usage: MyProgram [options] <source_file> [target_file]" ++ nl ++
  nl ++
  "Options:" ++ nl ++
  "  -convert       Convert the source file to the target format (default)" ++ nl ++
  "  -compress      Compress output (if supported)" ++ nl ++
  "  -async         Run conversion asynchronously" ++ nl ++
  "  -scale         Apply scaling (if supported)" ++ nl ++
  "  -help          Show this help message" ++ nl ++
  "  -version       Show version information" ++ nl ++
  nl ++
  "File extensions:" ++ nl ++
  "  Source: " ++
  join (source_ext cfg) ", " ++
  nl ++
  "  Target: " ++
  join (target_ext cfg) ", " ++
  nl ++
  nl ++
  "Notes:" ++ nl ++
  "  If target_file is omitted, output defaults to source name with the default target extension." ++ nl.

(** The inner loop of [parseFlags]: the first registered flag whose
    name [s_flag] makes [flag == "-" + s_flag || flag == "--" + s_flag]
    true. *)
Fixpoint find_flag (name : flag_ptr -> string) (registry : list flag_ptr)
    (flag : string) : option flag_ptr :=
  match registry with
  | [] => None
  | f :: rest =>
      let s_flag := name f in
      if String.eqb flag ("-" ++ s_flag) || String.eqb flag ("--" ++ s_flag) then Some f
      else find_flag name rest flag
  end.

Module CmdArgumentParser.

(** [std::cout << ... << std::endl]. *)
Definition print (line : string) : M state unit :=
  modify (write_cout (line ++ nl)).

(** [check()] (lines 657-679): the reset, then the configuration
    checks, each throwing a [std::runtime_error]. *)
Definition check (cfg : Config) : M state unit :=
  modify (set_source "") ;;
  modify (set_target "") ;;
  for_each (cmd_flags cfg) (fun f => modify (assign f false)) ;;
  modify (assign convert true) ;;
  if vector_empty (source_ext cfg) || vector_empty (target_ext cfg) then
    throw "Error: source_ext or target_ext is not defined."
  else if vector_eqb (source_ext cfg) (target_ext cfg) then
    throw "Error: source_ext and target_ext cannot be the same."
  else if negb (contains flag_ptr_eqb (cmd_flags cfg) help) then
    throw "Error: cmd_flags must contain 'help' flag."
  else if negb (contains flag_ptr_eqb (cmd_flags cfg) version) then
    throw "Error: cmd_flags must contain 'version' flag."
  else if (length (cmd_flags cfg) <? 3)%nat then
    throw "Error: cmd_flags is not defined."
  else ret tt.

(** The outer loop of [parseFlags].  [Some countFlags] when every flag
    was found; [None] when the function has returned [false] after
    "Error argument: Unknown flag ...". *)
Fixpoint parseFlags_loop (cfg : Config) (flags : list string) (countFlags : nat)
    : M state (option nat) :=
  match flags with
  | [] => ret (Some countFlags)
  | flag :: rest =>
      st <- get ;;
      match find_flag (fun f => _flag (flag_at st f)) (cmd_flags cfg) flag with
      | Some f =>
          modify (assign f true) ;;
          parseFlags_loop cfg rest (S countFlags)
      | None =>
          print ("Error argument: Unknown flag " ++ flag) ;; ret None
      end
  end.

(** [parseFlags] (lines 682-732): after the loop, the help/version
    short-circuit, which leaves through [exit] in every case but the
    last, unreachable one. *)
Definition parseFlags (cfg : Config) (flags : list string) (countFiles : nat)
    : M state bool :=
  r <- parseFlags_loop cfg flags 0 ;;
  match r with
  | None => ret false
  | Some countFlags =>
      st <- get ;;
      if on (flag_at st help) || on (flag_at st version) then
        if (1 <? countFlags)%nat || negb (countFiles =? 0)%nat then
          print "Error argument: Too many arguments" ;; std_exit 1
        else if on (flag_at st help) then
          print (text_help cfg) ;; std_exit 0
        else if on (flag_at st version) then
          print (text_version cfg) ;; std_exit 0
        else ret false
      else ret true
  end.

(** [parseFiles] (lines 734-807).  [publish] is what follows the
    label [exit:], reached by [goto exit] from the directory branch
    and by falling through from the identity check. *)
Definition parseFiles (cfg : Config) (fs : FileSystem) (files : list string)
    : M state bool :=
  let publish : M state bool :=
    modify (fun st => set_source (_source st) st) ;;
    modify (fun st => set_target (_target st) st) ;;
    ret true in
  if vector_empty files then
    print "Error: No source file specified" ;; ret false
  else if (2 <? length files)%nat then
    print "Error argument: Too many arguments" ;; ret false
  else
    modify (set__source (nth 0 files "")) ;;
    st <- get ;;
    if is_directory fs (_source st) then
      if (1 <? length files)%nat then
        print "Error argument: Too many arguments" ;; ret false
      else publish
    else if negb (exists_ fs (_source st)) then
      print ("Error: Could not find the source file " ++ nth 0 files "") ;; ret false
    else
      let extension := getExtension (_source st) in
      if negb (contains String.eqb (source_ext cfg) extension) then
        print ("Error: Source file is not a valid extension: " ++ _source st) ;; ret false
      else
        let identity : M state bool :=
          st <- get ;;
          if String.eqb (tolower (_source st)) (tolower (_target st)) then
            print "Error: Source and target files are the same" ;; ret false
          else publish in
        modify (fun st => set__target (_source st) st) ;;
        modify (fun st =>
          set__target (Path.replace_extension (_target st) (defaultTargetExt cfg)) st) ;;
        if (length files =? 2)%nat then
          modify (set__target (nth 1 files "")) ;;
          modify (fun st =>
            if Path.empty (Path.parent_path (_target st))
            then set__target (Path.parent_path (_source st) </> Path.filename (_target st)) st
            else st) ;;
          st <- get ;;
          if negb (is_directory fs (Path.parent_path (_target st))) then
            print ("Error: Target file has unknown directory " ++ _target st) ;; ret false
          else identity
        else identity.

(** [CmdArgumentParser::parse] (lines 624-647). *)
Definition parse (cfg : Config) (fs : FileSystem) (args : list string)
    : M state bool :=
  check cfg ;;
  let (flags, files) := tokenize args in
  ok <- parseFlags cfg flags (length files) ;;
  if negb ok then ret false
  else parseFiles cfg fs files.

End CmdArgumentParser.

(** [cmd::parse] (lines 812-816): a parser object of its own for every
    call, then [command.parse(argc, argv)]. *)
Definition parse (cfg : Config) (fs : FileSystem) (args : list string)
    : M state bool :=
  modify (fun st => set__source "" (set__target "" st)) ;;
  CmdArgumentParser.parse cfg fs args.

End C.

(** ** Revision C *)

(** The name of a flag object, as [parseFlags] reads it
    ([operator std::string]). *)
Definition C_name (st : C.state) (f : C.flag_ptr) : string := C._flag (C.flag_at st f).

(** The state [cmd::parse] hands to [CmdArgumentParser::parse]. *)
Definition C_fresh (st : C.state) : C.state := C.set__source "" (C.set__target "" st).

(** The state [check] leaves. *)
Definition C_reset (cfg : C.Config) (st : C.state) : C.state :=
  snd (C.CmdArgumentParser.check cfg st).

(** What the configuration check of revision C rejects. *)
Definition C_misconfigured (cfg : C.Config) : Prop :=
  C.source_ext cfg = [] \/ C.target_ext cfg = [] \/
  C.source_ext cfg = C.target_ext cfg \/
  ~ In C.help (C.cmd_flags cfg) \/ ~ In C.version (C.cmd_flags cfg) \/
  length (C.cmd_flags cfg) < 3.

(** Some flag token, in one of its two spellings, names the flag [f]. *)
Definition C_named (st : C.state) (registry : list C.flag_ptr) (flags : list string)
    (f : C.flag_ptr) : bool :=
  existsb (fun flag =>
             match C.find_flag (C_name st) registry flag with
             | Some g => C.flag_ptr_eqb f g
             | None => false
             end) flags.

(** Every flag token names a registered flag. *)
Definition C_all_known (st : C.state) (registry : list C.flag_ptr) (flags : list string)
    : Prop :=
  forall flag, In flag flags -> C.find_flag (C_name st) registry flag <> None.

(* ================================================================== *)
(** * Facts about strings and paths *)

Lemma append_nil_r (s : string) : s ++ "" = s.
Proof. induction s as [|a s IH]; simpl; [reflexivity | now rewrite IH]. Qed.

Lemma append_assoc (s t u : string) : (s ++ t) ++ u = s ++ t ++ u.
Proof. induction s as [|a s IH]; simpl; [reflexivity | now rewrite IH]. Qed.

Lemma append_empty (s t : string) : s ++ t = "" -> s = "" /\ t = "".
Proof. destruct s; simpl; [tauto | discriminate]. Qed.

Lemma length_append (s t : string) :
  String.length (s ++ t) = String.length s + String.length t.
Proof. induction s as [|a s IH]; simpl; [reflexivity | now rewrite IH]. Qed.

Lemma occurs_app (c : ascii) (s t : string) :
  occurs c (s ++ t) = occurs c s || occurs c t.
Proof.
  induction s as [|a s IH]; simpl; [reflexivity |].
  now rewrite IH, orb_assoc.
Qed.

Lemma rsplit_None (c : ascii) (s : string) :
  rsplit c s = None <-> occurs c s = false.
Proof.
  induction s as [|a s IH]; simpl; [tauto |].
  destruct (rsplit c s) as [[b t]|].
  - split; [discriminate |].
    intros H. apply orb_false_elim in H. destruct H as [_ H].
    apply IH in H. discriminate.
  - destruct (Ascii.eqb a c); simpl; split; try discriminate; intros _; auto.
    now apply IH.
Qed.

Lemma rsplit_Some (c : ascii) (s b t : string) :
  rsplit c s = Some (b, t) -> s = b ++ String c t /\ occurs c t = false.
Proof.
  revert b; induction s as [|a s IH]; simpl; intros b H; [discriminate |].
  destruct (rsplit c s) as [[b' t']|] eqn:E.
  - injection H as <- <-. destruct (IH b' eq_refl) as [-> Ht]. now split.
  - destruct (Ascii.eqb_spec a c) as [->|]; [|discriminate].
    injection H as <- <-. split; [reflexivity | now apply rsplit_None].
Qed.

Lemma rsplit_app (c : ascii) (b t : string) :
  occurs c t = false -> rsplit c (b ++ String c t) = Some (b, t).
Proof.
  intros Ht. induction b as [|a b IH]; simpl.
  - apply rsplit_None in Ht. rewrite Ht. now rewrite Ascii.eqb_refl.
  - now rewrite IH.
Qed.

Module PathFacts.
Import Path.

Lemma filename_no_sep (p : path) : occurs sep (filename p) = false.
Proof.
  unfold filename. destruct (rsplit sep p) as [[b t]|] eqn:E.
  - now apply rsplit_Some in E.
  - now apply rsplit_None.
Qed.

Lemma filename_of_name (f : string) : occurs sep f = false -> filename f = f.
Proof. intros H. unfold filename. apply rsplit_None in H. now rewrite H. Qed.

Lemma filename_app_sep (b t : string) :
  occurs sep t = false -> filename (b ++ String sep t) = t.
Proof. intros H. unfold filename. now rewrite rsplit_app. Qed.

(** A path is its directory part followed by its filename. *)
Lemma dirpart_filename (p : path) : dirpart p ++ filename p = p.
Proof.
  unfold dirpart, filename. destruct (rsplit sep p) as [[b t]|] eqn:E.
  - apply rsplit_Some in E. destruct E as [-> _]. now rewrite append_assoc.
  - reflexivity.
Qed.

Lemma filename_dirpart_app (p : path) (f : string) :
  occurs sep f = false -> filename (dirpart p ++ f) = f.
Proof.
  intros H. unfold dirpart. destruct (rsplit sep p) as [[b t]|].
  - rewrite append_assoc. simpl. now apply filename_app_sep.
  - now apply filename_of_name.
Qed.

(** A filename is its stem followed by its extension. *)
Lemma split_extension_app (f : string) :
  fst (split_extension f) ++ snd (split_extension f) = f.
Proof.
  unfold split_extension.
  destruct (String.eqb f "." || String.eqb f ".."); simpl; [apply append_nil_r |].
  destruct (rsplit dot f) as [[b t]|] eqn:E; simpl; [| apply append_nil_r].
  apply rsplit_Some in E. destruct E as [-> _].
  destruct b; simpl; [| reflexivity].
  (* the last dot is the first character: no extension *)
  now rewrite append_nil_r.
Qed.

Lemma stem_extension (p : path) : stem p ++ extension p = filename p.
Proof. apply split_extension_app. Qed.

Lemma stem_no_sep (p : path) : occurs sep (stem p) = false.
Proof.
  pose proof (filename_no_sep p) as H.
  rewrite <- (stem_extension p), occurs_app in H.
  now apply orb_false_elim in H.
Qed.

(** A path with an extension has a stem. *)
Lemma extension_stem_nonempty (p : path) : extension p <> "" -> stem p <> "".
Proof.
  unfold extension, stem, split_extension.
  destruct (String.eqb (filename p) "." || String.eqb (filename p) ".."); simpl; [tauto |].
  destruct (rsplit dot (filename p)) as [[b t]|]; simpl; [| tauto].
  destruct b; simpl; [tauto | discriminate].
Qed.

(** The extension of [stem.ext], for a stem that is not empty and an
    [ext] without dot. *)
Lemma split_extension_dotted (s d : string) :
  s <> "" -> d <> "" -> occurs dot d = false ->
  split_extension (s ++ String dot d) = (s, String dot d).
Proof.
  intros Hs Hd Hdot. unfold split_extension.
assert (Hlen : 3 <= String.length (s ++ String dot d)).
  { rewrite length_append. simpl.
    destruct s; [tauto |]. destruct d; [tauto |]. simpl. lia. }
  assert (Hne : String.eqb (s ++ String dot d) "." || String.eqb (s ++ String dot d) ".." = false).
  { apply orb_false_intro; apply String.eqb_neq; intros E; rewrite E in Hlen;
      simpl in Hlen; lia. }
  rewrite Hne. rewrite rsplit_app by assumption.
  destruct s; [tauto | reflexivity].
Qed.

(** Replacing the extension by [d] puts [.d] behind the stem. *)
Lemma replace_extension_dotted (p : path) (d : string) :
  d <> "" -> occurs dot d = false ->
  replace_extension p d = dirpart p ++ stem p ++ String dot d.
Proof.
  intros Hd Hdot. unfold replace_extension.
  destruct d as [|c d]; [tauto |].
  simpl in Hdot. apply orb_false_elim in Hdot. destruct Hdot as [Hc _].
  rewrite Hc. now rewrite !append_assoc.
Qed.

(** The stem survives [replace_extension] and the new extension is the
    replacement behind a dot, for a path with a stem and a replacement
    that is a plain extension (not empty, no dot, no separator). *)
Lemma replace_extension_stem_extension (p : path) (d : string) :
  stem p <> "" -> d <> "" -> occurs dot d = false -> occurs sep d = false ->
  stem (replace_extension p d) = stem p /\
  extension (replace_extension p d) = String dot d.
Proof.
  intros Hs Hd Hdot Hsep.
  rewrite replace_extension_dotted by assumption.
  unfold stem at 1, extension.
  rewrite filename_dirpart_app.
  - fold (stem p). rewrite split_extension_dotted by assumption. now split.
  - rewrite occurs_app, stem_no_sep. simpl. now rewrite Hsep.
Qed.

Lemma parent_path_empty (p : path) : parent_path p = "" -> occurs sep p = false.
Proof.
  unfold parent_path. destruct (rsplit sep p) as [[b t]|] eqn:E.
  - apply rsplit_Some in E. destruct E as [-> _].
    destruct (rstrip_sep b); [| discriminate].
    destruct (empty t); [| discriminate].
    intros H. apply append_empty in H. destruct H as [_ H]. discriminate.
  - intros _. now apply rsplit_None.
Qed.

Lemma is_absolute_no_sep (t : path) : occurs sep t = false -> is_absolute t = false.
Proof.
  destruct t as [|c t]; simpl; [reflexivity |].
  intros H. now apply orb_false_elim in H.
Qed.

Lemma empty_true (p : path) : empty p = true <-> p = "".
Proof. destruct p; simpl; split; congruence. Qed.

Lemma empty_false (p : path) : empty p = false <-> p <> "".
Proof. destruct p; simpl; split; congruence. Qed.

(** [d / t] for a bare name [t]: the filename is [t]. *)
Lemma filename_append_name (d t : path) :
  occurs sep t = false -> filename (d </> t) = t.
Proof.
  intros Ht. unfold append. rewrite is_absolute_no_sep by assumption.
  unfold has_filename. destruct (empty (filename d)) eqn:E; simpl.
  - apply empty_true in E.
    rewrite <- (dirpart_filename d), E, append_nil_r.
    now apply filename_dirpart_app.
  - now apply filename_app_sep.
Qed.

(** [d / t] for a bare name [t] behind a directory [d] that is not
    empty: the result has a parent path. *)
Lemma parent_path_append_name (d t : path) :
  d <> "" -> occurs sep t = false -> parent_path (d </> t) <> "".
Proof.
  intros Hd Ht Hp. apply parent_path_empty in Hp.
  unfold append in Hp. rewrite is_absolute_no_sep in Hp by assumption.
  unfold has_filename in Hp. destruct (empty (filename d)) eqn:E; simpl in Hp.
  - apply empty_true in E.
    rewrite occurs_app in Hp. apply orb_false_elim in Hp. destruct Hp as [Hp _].
    unfold filename in E. destruct (rsplit sep d) as [[b u]|] eqn:R.
    + apply rsplit_Some in R. destruct R as [-> _].
      rewrite occurs_app in Hp. simpl in Hp.
      rewrite orb_true_r in Hp. discriminate.
    + tauto.
  - rewrite occurs_app in Hp. simpl in Hp. rewrite orb_true_r in Hp. discriminate.
Qed.

(** [has_extension] looks at the filename only. *)
Lemma extension_filename (p q : path) : filename p = filename q -> extension p = extension q.
Proof. unfold extension. now intros ->. Qed.

End PathFacts.

Lemma tolower_dot : tolower_char "."%char = "."%char.
Proof. reflexivity. Qed.

(** A file with a non-empty [getExtension] has an extension. *)
Lemma getExtension_nonempty (p : path) : getExtension p <> "" -> Path.extension p <> "".
Proof. unfold getExtension. intros H E. rewrite E in H. now apply H. Qed.

Lemma getExtension_dotted (p : path) (d : string) :
  Path.extension p = String Path.dot d -> getExtension p = tolower d.
Proof. unfold getExtension. intros ->. reflexivity. Qed.

Lemma contains_In (l : list string) (x : string) :
  contains String.eqb l x = true <-> In x l.
Proof.
  unfold contains. rewrite existsb_exists. split.
  - intros [y [Hy E]]. apply String.eqb_eq in E. now subst.
  - intros H. exists x. split; [assumption | apply String.eqb_refl].
Qed.

Lemma flag_ptr_eqb_eq (p q : flag_ptr) : flag_ptr_eqb p q = true <-> p = q.
Proof. destruct p, q; simpl; split; congruence. Qed.

Lemma flag_ptr_eqb_refl (p : flag_ptr) : flag_ptr_eqb p p = true.
Proof. now destruct p. Qed.

Lemma contains_flag_In (l : list flag_ptr) (f : flag_ptr) :
  contains flag_ptr_eqb l f = true <-> In f l.
Proof.
  unfold contains. rewrite existsb_exists. split.
  - intros [y [Hy E]]. apply flag_ptr_eqb_eq in E. now subst.
  - intros H. exists f. split; [assumption | apply flag_ptr_eqb_refl].
Qed.

Lemma vector_eqb_eq (v w : list string) : vector_eqb v w = true <-> v = w.
Proof.
  revert w; induction v as [|x v IH]; intros [|y w]; simpl; split; try congruence.
  - intros H. apply andb_true_iff in H. destruct H as [Hx Hv].
    apply String.eqb_eq in Hx. apply IH in Hv. congruence.
  - intros H. injection H as -> ->. rewrite String.eqb_refl. now apply IH.
Qed.

Lemma vector_empty_nil {T : Type} (v : list T) : vector_empty v = true <-> v = [].
Proof. destruct v; simpl; split; congruence. Qed.

(** ** The tokenizer and the flag lookup *)

Lemma tokenize_flags_In (args : list string) (t : string) :
  In t (fst (tokenize args)) -> In t args.
Proof.
  induction args as [|a args IH]; simpl; [tauto |].
  destruct (tokenize args) as [flags files]. simpl in IH.
  destruct a as [|c a]; simpl; [tauto |].
  destruct (Ascii.eqb c "-"); simpl; intuition.
Qed.

Lemma tokenize_files_In (args : list string) (t : string) :
  In t (snd (tokenize args)) -> In t args /\ t <> "".
Proof.
  induction args as [|a args IH]; simpl; [tauto |].
  destruct (tokenize args) as [flags files]. simpl in IH.
  destruct a as [|c a]; simpl; [tauto |].
  destruct (Ascii.eqb c "-"); simpl; [tauto |].
  intros [<- | H]; [split; [now left | discriminate] | tauto].
Qed.

(** A flag is found only through its own name, behind one or two dashes,
    and only when it is registered. *)
Lemma find_flag_Some (name : flag_ptr -> string) (registry : list flag_ptr)
    (flag : string) (f : flag_ptr) :
  find_flag name registry flag = Some f ->
  In f registry /\ (flag = "-" ++ name f \/ flag = "--" ++ name f).
Proof.
  induction registry as [|g registry IH]; simpl; [discriminate |].
  destruct (String.eqb_spec flag (String "-" (name g))) as [E1|_]; simpl.
  - intros H. injection H as <-. auto.
  - destruct (String.eqb_spec flag (String "-" (String "-" (name g)))) as [E2|_].
    + intros H. injection H as <-. auto.
    + intros H. apply IH in H. tauto.
Qed.

Lemma find_flag_ext (name name' : flag_ptr -> string) (registry : list flag_ptr)
    (flag : string) :
  (forall f, name f = name' f) ->
  find_flag name registry flag = find_flag name' registry flag.
Proof.
  intros H. induction registry as [|g registry IH]; simpl; [reflexivity |].
  now rewrite H, IH.
Qed.

(** ** The monad *)

Lemma for_each_modify {S T : Type} (g : T -> S -> S) (l : list T) (s : S) :
  for_each l (fun x => modify (g x)) s = (Returned tt, fold_left (fun s x => g x s) l s).
Proof.
  revert s; induction l as [|x l IH]; intros s; simpl; [reflexivity |].
  unfold bind, modify at 1. apply IH.
Qed.

Lemma bind_modify {S B : Type} (f : S -> S) (k : unit -> M S B) (s : S) :
  bind (modify f) k s = k tt (f s).
Proof. reflexivity. Qed.

Lemma bind_get {S B : Type} (k : S -> M S B) (s : S) : bind get k s = k s s.
Proof. reflexivity. Qed.

Lemma bind_for_each_modify {S T B : Type} (g : T -> S -> S) (l : list T)
    (k : unit -> M S B) (s : S) :
  bind (for_each l (fun x => modify (g x))) k s = k tt (fold_left (fun s x => g x s) l s).
Proof. unfold bind at 1. now rewrite for_each_modify. Qed.

Lemma matched_flags_ext (name name' : flag_ptr -> string) (registry : list flag_ptr)
    (flags : list string) :
  (forall f, name f = name' f) ->
  matched_flags name registry flags = matched_flags name' registry flags.
Proof.
  intros H. induction flags as [|t flags IH]; simpl; [reflexivity |].
  rewrite (find_flag_ext name name' registry t H).
  destruct (find_flag name' registry t); [now rewrite IH | reflexivity].
Qed.

Lemma unknown_flag_ext (name name' : flag_ptr -> string) (registry : list flag_ptr)
    (flags : list string) :
  (forall f, name f = name' f) ->
  unknown_flag name registry flags = unknown_flag name' registry flags.
Proof.
  intros H. induction flags as [|t flags IH]; simpl; [reflexivity |].
  rewrite (find_flag_ext name name' registry t H).
  destruct (find_flag name' registry t); [now rewrite IH | reflexivity].
Qed.

(** A matched flag is registered and mentioned by the tokens. *)
Lemma matched_flags_In (name : flag_ptr -> string) (registry : list flag_ptr)
    (flags : list string) (f : flag_ptr) :
  In f (matched_flags name registry flags) ->
  In f registry /\ (In ("-" ++ name f) flags \/ In ("--" ++ name f) flags).
Proof.
  induction flags as [|t flags IH]; simpl; [tauto |].
  destruct (find_flag name registry t) as [g|] eqn:E; simpl; [| tauto].
  intros [<- | H].
  - apply find_flag_Some in E. destruct E as [Hr [-> | ->]]; auto.
  - apply IH in H. tauto.
Qed.

Lemma unknown_flag_None_length (name : flag_ptr -> string) (registry : list flag_ptr)
    (flags : list string) :
  unknown_flag name registry flags = None ->
  length (matched_flags name registry flags) = length flags.
Proof.
  induction flags as [|t flags IH]; simpl; [reflexivity |].
  destruct (find_flag name registry t); [| discriminate].
  intros H. simpl. now rewrite IH.
Qed.

Lemma among_In (l : list flag_ptr) (f : flag_ptr) : among l f = true <-> In f l.
Proof.
  unfold among. rewrite existsb_exists. split.
  - intros [g [Hg E]]. apply flag_ptr_eqb_eq in E. now subst.
  - intros H. exists f. split; [assumption | apply flag_ptr_eqb_refl].
Qed.

(* ================================================================== *)
(** * Revision A, stage by stage *)

Module AFacts.
Import A A.CmdArgumentParser.

(** What a run of assignments over a list of flags leaves. *)
Lemma A_assign_all (b : bool) (l : list flag_ptr) (st : state) :
  let st' := fold_left (fun s f => assign f b s) l st in
  (forall p, _flag (flag_at st' p) = _flag (flag_at st p)) /\
  (forall p, on (flag_at st' p) = if among l p then b else on (flag_at st p)) /\
  source st' = source st /\ target st' = target st /\
  _source st' = _source st /\ _target st' = _target st /\
  cout st' = cout st /\ cerr st' = cerr st.
Proof.
  revert st; induction l as [|f l IH]; intros st; simpl.
  - repeat split; reflexivity.
  - destruct (IH (assign f b st)) as (Hn & Ho & H).
    split; [| split; [| exact H]].
    + intros p. rewrite Hn. simpl. now destruct (flag_ptr_eqb p f).
    + intros p. rewrite Ho. simpl.
      destruct (flag_ptr_eqb p f); simpl; [| reflexivity].
      now destruct (among l p).
Qed.

(** [check] always leaves the same state, whether it throws or not. *)
Lemma A_check_state (cfg : Config) (st : state) :
  A_reset cfg st =
  assign translate true (assign convert true
    (fold_left (fun s f => assign f false s) (cmd_flags cfg)
       (set_target "" (set_source "" st)))).
Proof.
  unfold A_reset, check.
  rewrite !bind_modify, bind_for_each_modify, !bind_modify.
  repeat match goal with |- context [if ?c then _ else _] => destruct c end; reflexivity.
Qed.

Lemma A_reset_facts (cfg : Config) (st : state) :
  let st' := A_reset cfg st in
  (forall p, _flag (flag_at st' p) = _flag (flag_at st p)) /\
  (forall p, on (flag_at st' p) =
             match p with
             | convert | translate => true
             | _ => if among (cmd_flags cfg) p then false else on (flag_at st p)
             end) /\
  source st' = "" /\ target st' = "" /\
  _source st' = _source st /\ _target st' = _target st /\
  cout st' = cout st /\ cerr st' = cerr st.
Proof.
  cbv zeta. rewrite A_check_state.
  destruct (A_assign_all false (cmd_flags cfg) (set_target "" (set_source "" st)))
    as (Hn & Ho & Hs & Ht & H).
  simpl. split; [| split; [| split; [exact Hs | split; [exact Ht | exact H]]]].
  - intros p. destruct p; simpl; apply Hn.
  - intros p. destruct p; simpl; try reflexivity; apply Ho.
Qed.

(** [check] throws exactly on a configuration that is misconfigured or
    has identical extension lists, and otherwise returns. *)
Lemma A_check_completion (cfg : Config) (st : state) :
  ((misconfigured cfg \/ identical_extension_lists cfg) /\
     exists what, fst (check cfg st) = Thrown what) \/
  (~ (misconfigured cfg \/ identical_extension_lists cfg) /\
     fst (check cfg st) = Returned tt).
Proof.
  unfold check.
  rewrite !bind_modify, bind_for_each_modify, !bind_modify.
  unfold misconfigured, identical_extension_lists.
  destruct (vector_empty (source_ext cfg)) eqn:E1; simpl.
  { left. split; [| eexists; reflexivity]. apply vector_empty_nil in E1. tauto. }
  destruct (vector_empty (target_ext cfg)) eqn:E2; simpl.
  { left. split; [| eexists; reflexivity]. apply vector_empty_nil in E2. tauto. }
  destruct (vector_eqb (source_ext cfg) (target_ext cfg)) eqn:E3; simpl.
  { left. split; [| eexists; reflexivity]. apply vector_eqb_eq in E3. tauto. }
  destruct (contains flag_ptr_eqb (cmd_flags cfg) help) eqn:E4; simpl.
  2:{ left. split; [| eexists; reflexivity]. left.
      right; right; left. intros Hin. apply contains_flag_In in Hin. congruence. }
  destruct (contains flag_ptr_eqb (cmd_flags cfg) version) eqn:E5; simpl.
  2:{ left. split; [| eexists; reflexivity]. left.
      right; right; right; left. intros Hin. apply contains_flag_In in Hin. congruence. }
  destruct (length (cmd_flags cfg) <? 3)%nat eqn:E6; simpl.
  { left. split; [| eexists; reflexivity]. apply Nat.ltb_lt in E6. tauto. }
  right. split; [| reflexivity].
  apply Nat.ltb_ge in E6. apply contains_flag_In in E4, E5.
  assert (vector_empty (source_ext cfg) = true <-> source_ext cfg = []) by apply vector_empty_nil.
  assert (vector_empty (target_ext cfg) = true <-> target_ext cfg = []) by apply vector_empty_nil.
  assert (vector_eqb (source_ext cfg) (target_ext cfg) = true <-> source_ext cfg = target_ext cfg)
    by apply vector_eqb_eq.
  intros [[H'|[H'|[H'|[H'|H']]]]|H']; try tauto; try lia; intuition congruence.
Qed.

Lemma A_name_assign (f : flag_ptr) (b : bool) (st : state) (g : flag_ptr) :
  A_name (assign f b st) g = A_name st g.
Proof. unfold A_name. simpl. now destruct (flag_ptr_eqb g f). Qed.

(** The loop of [parseFlags]: the matched flags are switched on, in
    order, until a token names no registered flag. *)
Lemma A_loop_run (cfg : Config) (flags : list string) (n : nat) (st : state) :
  parseFlags_loop cfg flags n st =
  let st1 := fold_left (fun s f => assign f true s)
               (matched_flags (A_name st) (cmd_flags cfg) flags) st in
  match unknown_flag (A_name st) (cmd_flags cfg) flags with
  | None => (Returned (Some (n + length flags)), st1)
  | Some t => (Returned None,
               write_cerr ("Error: " ++ ("argument: Unknown flag " ++ t) ++ nl) st1)
  end.
Proof.
  revert n st; induction flags as [|t flags IH]; intros n st.
  - simpl. now rewrite Nat.add_0_r.
  - cbn [parseFlags_loop matched_flags unknown_flag]. rewrite bind_get.
    change (fun f => _flag (flag_at st f)) with (A_name st).
    destruct (find_flag (A_name st) (cmd_flags cfg) t) as [f|] eqn:E.
    + rewrite bind_modify, IH.
      rewrite (matched_flags_ext _ (A_name st) _ _ (A_name_assign f true st)).
      rewrite (unknown_flag_ext _ (A_name st) _ _ (A_name_assign f true st)).
      cbn [fold_left length]. now rewrite Nat.add_succ_r.
    + reflexivity.
Qed.

(** [parseFlags], case by case. *)
Lemma A_parseFlags_run (cfg : Config) (flags : list string) (n : nat) (st : state) :
  parseFlags cfg flags n st =
  let st1 := A_switched cfg flags st in
  match unknown_flag (A_name st) (cmd_flags cfg) flags with
  | Some t =>
      (Returned false, write_cerr ("Error: " ++ ("argument: Unknown flag " ++ t) ++ nl) st1)
  | None =>
      if on (flag_at st1 help) || on (flag_at st1 version) then
        if (1 <? length flags)%nat || negb (n =? 0)%nat then
          (Returned false, write_cerr ("Error: " ++ "argument: Too many arguments" ++ nl) st1)
        else if on (flag_at st1 help) then
          (Exited 0%Z, write_cout (text_help cfg ++ nl) st1)
        else
          (Exited 0%Z, write_cout (text_version cfg ++ nl) st1)
      else (Returned true, st1)
  end.
Proof.
  unfold parseFlags. unfold bind at 1. rewrite A_loop_run. cbv zeta.
  fold (A_switched cfg flags st).
  destruct (unknown_flag (A_name st) (cmd_flags cfg) flags); [reflexivity |].
  rewrite bind_get. cbn [Nat.add].
  destruct (on (flag_at (A_switched cfg flags st) help)
            || on (flag_at (A_switched cfg flags st) version)); [| reflexivity].
  destruct ((1 <? length flags)%nat || negb (n =? 0)%nat); [reflexivity |].
  destruct (on (flag_at (A_switched cfg flags st) help)); reflexivity.
Qed.

Lemma A_switched_facts (cfg : Config) (flags : list string) (st : state) :
  let st' := A_switched cfg flags st in
  (forall p, _flag (flag_at st' p) = _flag (flag_at st p)) /\
  (forall p, on (flag_at st' p) =
             if among (matched_flags (A_name st) (cmd_flags cfg) flags) p
             then true else on (flag_at st p)) /\
  source st' = source st /\ target st' = target st /\
  _source st' = _source st /\ _target st' = _target st /\
  cout st' = cout st /\ cerr st' = cerr st.
Proof. apply A_assign_all. Qed.

(** When [parseFlags] returns [true] it has written nothing and has
    only switched the matched flags on. *)
Lemma A_parseFlags_true (cfg : Config) (flags : list string) (n : nat) (st : state) :
  fst (parseFlags cfg flags n st) = Returned true ->
  snd (parseFlags cfg flags n st) = A_switched cfg flags st /\
  unknown_flag (A_name st) (cmd_flags cfg) flags = None /\
  on (flag_at (A_switched cfg flags st) help) = false /\
  on (flag_at (A_switched cfg flags st) version) = false.
Proof.
  rewrite A_parseFlags_run. cbv zeta.
  destruct (unknown_flag (A_name st) (cmd_flags cfg) flags); [discriminate |].
  destruct (on (flag_at (A_switched cfg flags st) help)) eqn:Eh;
    destruct (on (flag_at (A_switched cfg flags st) version)) eqn:Ev;
    cbn [orb];
    repeat match goal with |- context [if ?c then _ else _] => destruct c end;
    cbn [fst snd]; try discriminate; auto.
Qed.

(** [parseFlags] never throws, leaves the paths alone and switches no
    flag off. *)
Lemma A_parseFlags_frame (cfg : Config) (flags : list string) (n : nat) (st : state) :
  let r := parseFlags cfg flags n st in
  (forall what, fst r <> Thrown what) /\
  flag_at (snd r) = flag_at (A_switched cfg flags st) /\
  source (snd r) = source st /\ target (snd r) = target st /\
  _source (snd r) = _source st /\ _target (snd r) = _target st.
Proof.
  cbv zeta. rewrite A_parseFlags_run. cbv zeta.
  destruct (A_switched_facts cfg flags st) as (_ & _ & Hs & Ht & Hs' & Ht' & _).
  repeat match goal with |- context [if ?c then _ else _] => destruct c end;
    try destruct (unknown_flag (A_name st) (cmd_flags cfg) flags);
    cbn [fst snd flag_at source target _source _target write_cerr write_cout];
    repeat split; try assumption; try discriminate.
Qed.

(** [CmdArgumentParser::parse], stage by stage. *)
Lemma A_parse_run (cfg : Config) (fs : FileSystem) (args : list string) (st : state) :
  CmdArgumentParser.parse cfg fs args st =
  match fst (check cfg st) with
  | Returned _ =>
      match parseFlags cfg (fst (tokenize args)) (length (snd (tokenize args)))
              (A_reset cfg st) with
      | (Returned true, st2) => parseFiles cfg fs (snd (tokenize args)) st2
      | (Returned false, st2) => (Returned false, st2)
      | (Exited code, st2) => (Exited code, st2)
      | (Thrown what, st2) => (Thrown what, st2)
      end
  | Exited code => (Exited code, A_reset cfg st)
  | Thrown what => (Thrown what, A_reset cfg st)
  end.
Proof.
  unfold CmdArgumentParser.parse, A_reset. unfold bind at 1.
  destruct (check cfg st) as [[[]|code|what] st1]; cbn [fst snd]; try reflexivity.
  destruct (tokenize args) as [flags files]. cbn [fst snd]. unfold bind.
  destruct (parseFlags cfg flags (length files) st1) as [[[|]|code|what] st2]; reflexivity.
Qed.

Lemma A_parse_accepted (cfg : Config) (fs : FileSystem) (args : list string) (st : state) :
  A_flags_accepted cfg args st ->
  CmdArgumentParser.parse cfg fs args st =
  parseFiles cfg fs (snd (tokenize args)) (A_after_flags cfg args st).
Proof.
  intros [Hc Hf]. rewrite A_parse_run, Hc. unfold A_after_flags.
  destruct (parseFlags cfg (fst (tokenize args)) (length (snd (tokenize args)))
              (A_reset cfg st)) as [c st2].
  cbn [fst snd] in *. now subst c.
Qed.

(** The state [parseFiles] starts from: paths cleared, nothing written,
    the parser object untouched. *)
Lemma A_after_flags_facts (cfg : Config) (args : list string) (st : state) :
  A_flags_accepted cfg args st ->
  let st2 := A_after_flags cfg args st in
  source st2 = "" /\ target st2 = "" /\
  _source st2 = _source st /\ _target st2 = _target st /\
  cout st2 = cout st /\ cerr st2 = cerr st.
Proof.
  intros [_ Hf]. cbv zeta. unfold A_after_flags.
  apply A_parseFlags_true in Hf. destruct Hf as (-> & _).
  destruct (A_switched_facts cfg (fst (tokenize args)) (A_reset cfg st))
    as (_ & _ & Hs & Ht & Hs' & Ht' & Ho & He).
  destruct (A_reset_facts cfg st) as (_ & _ & Rs & Rt & Rs' & Rt' & Ro & Re).
  cbv zeta in *. repeat split; congruence.
Qed.

End AFacts.

Module AFiles.
Import A A.CmdArgumentParser.

(** Symbolic execution of a monadic body: binds are reduced, then a
    branch whose condition is closed is split. *)
Ltac run :=
  repeat first
    [ rewrite bind_modify
    | rewrite bind_get
    | progress cbn [flag_at source target _source _target cout cerr
                    set_source set_target set__source set__target
                    write_cout write_cerr fst snd nth length
                    vector_empty Nat.ltb Nat.leb Nat.eqb negb andb orb]
    | progress cbv zeta ].

Ltac split_if :=
  match goal with
  | |- context [if ?c then _ else _] => destruct c eqn:?
  end.

Ltac finish_run :=
  unfold err, ret; run;
  cbn [flag_at source target _source _target cout cerr
       set_source set_target set__source set__target
       write_cout write_cerr fst snd].

(** [parseFiles], its filesystem queries answered, returns; it leaves
    the flags and [std::cout] alone, and the published paths too unless
    it returns [true]. *)
Lemma A_parseFiles_frame (cfg : Config) (fs : FileSystem) (files : list string) (st : state) :
  let r := parseFiles cfg fs files st in
  (exists b, fst r = Returned b) /\
  flag_at (snd r) = flag_at st /\ cout (snd r) = cout st /\
  (fst r = Returned false -> source (snd r) = source st /\ target (snd r) = target st).
Proof.
  cbv zeta. unfold parseFiles.
  repeat (run; try split_if); finish_run;
    (split; [eexists; reflexivity | repeat split; try reflexivity; discriminate]).
Qed.

End AFiles.

(* ================================================================== *)
(** * Revision A: the properties, on any parser object *)

Module AProps.
Import A A.CmdArgumentParser AFacts AFiles.

Lemma A_parse_fresh (cfg : Config) (fs : FileSystem) (args : list string) (st : state) :
  A.parse cfg fs args st = CmdArgumentParser.parse cfg fs args (A_fresh st).
Proof. reflexivity. Qed.

(** What [check] throws is the outcome of the call, whatever the
    arguments and the filesystem are: nothing after [check] is run, and
    nothing is written. *)
Lemma A_check_throw_escapes (cfg : Config) (fs : FileSystem) (args : list string)
    (st : state) (what : string) :
  fst (check cfg st) = Thrown what ->
  CmdArgumentParser.parse cfg fs args st = (Thrown what, A_reset cfg st) /\
  cout (A_reset cfg st) = cout st /\ cerr (A_reset cfg st) = cerr st.
Proof.
  intros Hw. rewrite A_parse_run, Hw.
  destruct (A_reset_facts cfg st) as (_ & _ & _ & _ & _ & _ & Ho & He).
  auto.
Qed.

(** The messages of [check]. *)
Lemma A_check_messages (cfg : Config) (st : state) (what : string) :
  fst (check cfg st) = Thrown what ->
  In what ["Error: source_ext or target_ext is not defined.";
              "Error: source_ext and target_ext cannot be the same.";
              "Error: cmd_flags must contain 'help' flag.";
              "Error: cmd_flags must contain 'version' flag.";
              "Error: cmd_flags is not defined."].
Proof.
  unfold check. rewrite !bind_modify, bind_for_each_modify, !bind_modify.
  repeat match goal with |- context [if ?c then _ else _] => destruct c end;
    cbn [fst throw ret]; intros H; try discriminate H;
    injection H as <-; simpl; auto 10.
Qed.

Lemma A_throws_before_arguments (cfg : Config) (fs : FileSystem) (args : list string)
    (st : state) :
  misconfigured cfg \/ identical_extension_lists cfg ->
  CmdArgumentParser.parse cfg fs args st = CmdArgumentParser.parse cfg fs [] st /\
  cout (snd (CmdArgumentParser.parse cfg fs args st)) = cout st /\
  cerr (snd (CmdArgumentParser.parse cfg fs args st)) = cerr st.
Proof.
  intros Hbad. rewrite !A_parse_run.
  destruct (A_check_completion cfg st) as [[_ [what Hw]] | [Hok _]]; [| tauto].
  rewrite Hw. cbn [snd].
  destruct (A_reset_facts cfg st) as (_ & _ & _ & _ & _ & _ & Ho & He).
  auto.
Qed.

(** A failure return leaves the published paths empty. *)
Lemma A_failure_paths_empty (cfg : Config) (fs : FileSystem) (args : list string)
    (st : state) :
  fst (CmdArgumentParser.parse cfg fs args st) = Returned false ->
  source (snd (CmdArgumentParser.parse cfg fs args st)) = "" /\
  target (snd (CmdArgumentParser.parse cfg fs args st)) = "".
Proof.
  rewrite A_parse_run.
  destruct (A_reset_facts cfg st) as (_ & _ & Rs & Rt & _).
  destruct (fst (check cfg st)) as [[]|code|what]; cbn [fst snd]; try discriminate.
  destruct (A_parseFlags_frame cfg (fst (tokenize args)) (length (snd (tokenize args)))
              (A_reset cfg st)) as (_ & _ & Hs & Ht & _).
  cbv zeta in *.
  destruct (parseFlags cfg (fst (tokenize args)) (length (snd (tokenize args)))
              (A_reset cfg st)) as [[[|]|code|w] st2]; cbn [fst snd] in *; try discriminate.
  - intros Hf.
    destruct (A_parseFiles_frame cfg fs (snd (tokenize args)) st2) as (_ & _ & _ & Hp).
    destruct (Hp Hf) as [Hs2 Ht2]. split; congruence.
  - intros _. split; congruence.
Qed.

(** [check] puts every registered flag at the value it is declared
    with. *)
Lemma A_reset_default (cfg : Config) (st : state) (f : flag_ptr) :
  In f (cmd_flags cfg) -> on (flag_at (A_reset cfg st) f) = A_default f.
Proof.
  intros Hf. destruct (A_reset_facts cfg st) as (_ & Ho & _). cbv zeta in Ho.
  rewrite Ho. apply among_In in Hf. rewrite Hf. now destruct f.
Qed.

(** A flag the call switches is one the arguments mention. *)
Lemma A_final_flag (cfg : Config) (fs : FileSystem) (args : list string) (st : state)
    (f : flag_ptr) :
  on (flag_at (snd (CmdArgumentParser.parse cfg fs args st)) f) =
    on (flag_at (A_reset cfg st) f) \/
  mentions args (A_name st f).
Proof.
  rewrite A_parse_run.
  destruct (fst (check cfg st)) as [[]|code|what]; cbn [snd]; auto.
  destruct (A_parseFlags_frame cfg (fst (tokenize args)) (length (snd (tokenize args)))
              (A_reset cfg st)) as (_ & Hfl & _).
  cbv zeta in Hfl.
  assert (Hsw : on (flag_at (A_switched cfg (fst (tokenize args)) (A_reset cfg st)) f) =
                on (flag_at (A_reset cfg st) f) \/ mentions args (A_name st f)).
  { destruct (A_switched_facts cfg (fst (tokenize args)) (A_reset cfg st)) as (_ & Ho & _).
    cbv zeta in Ho. rewrite Ho.
    destruct (among _ f) eqn:E; [right | now left].
    apply among_In, matched_flags_In in E. destruct E as [_ E].
    destruct (A_reset_facts cfg st) as (Hn & _). cbv zeta in Hn.
    unfold A_name in E. rewrite Hn in E. fold (A_name st f) in E.
    unfold mentions. destruct E as [E|E]; apply tokenize_flags_In in E; auto. }
  destruct (parseFlags cfg (fst (tokenize args)) (length (snd (tokenize args)))
              (A_reset cfg st)) as [[[|]|code|w] st2]; cbn [fst snd] in *;
    try (rewrite Hfl; exact Hsw).
  destruct (A_parseFiles_frame cfg fs (snd (tokenize args)) st2) as (_ & Hff & _).
  cbv zeta in Hff. rewrite Hff, Hfl. exact Hsw.
Qed.

(** The help/version short-circuit of [parseFlags]. *)
Lemma A_help_version (cfg : Config) (fs : FileSystem) (args : list string) (st : state) :
  let flags := fst (tokenize args) in
  let files := snd (tokenize args) in
  let matched := matched_flags (A_name st) (cmd_flags cfg) flags in
  ~ (misconfigured cfg \/ identical_extension_lists cfg) ->
  unknown_flag (A_name st) (cmd_flags cfg) flags = None ->
  In help matched \/ In version matched ->
  let (c, st') := CmdArgumentParser.parse cfg fs args st in
  (1 < length flags \/ files <> [] ->
     c = Returned false /\
     cerr st' = cerr st ++ "Error: " ++ "argument: Too many arguments" ++ nl /\
     cout st' = cout st /\ source st' = "" /\ target st' = "") /\
  (length flags = 1 /\ files = [] ->
     c = Exited 0%Z /\
     cout st' = cout st ++ (if on (flag_at st' help) then text_help cfg
                            else text_version cfg) ++ nl /\
     cerr st' = cerr st /\ source st' = "" /\ target st' = "").
Proof.
  cbv zeta. intros Hok Hun Hm. rewrite A_parse_run.
  destruct (A_check_completion cfg st) as [[Hbad _] | [_ Hr]]; [tauto |].
  rewrite Hr, A_parseFlags_run. cbv zeta.
  destruct (A_reset_facts cfg st) as (Rn & _ & Rs & Rt & _ & _ & Ro & Re).
  cbv zeta in *.
  assert (Hnames : forall f, A_name (A_reset cfg st) f = A_name st f)
    by (intros f; unfold A_name; apply Rn).
  rewrite (unknown_flag_ext _ _ _ _ Hnames), Hun.
  destruct (A_switched_facts cfg (fst (tokenize args)) (A_reset cfg st))
    as (_ & So & Ss & St & _ & _ & Sout & Serr).
  cbv zeta in *.
  rewrite (matched_flags_ext _ _ _ _ Hnames) in So.
  assert (Hhv : on (flag_at (A_switched cfg (fst (tokenize args)) (A_reset cfg st)) help)
                || on (flag_at (A_switched cfg (fst (tokenize args)) (A_reset cfg st)) version)
                = true).
  { rewrite !So. destruct Hm as [Hm|Hm]; apply among_In in Hm; rewrite Hm;
      [reflexivity | apply orb_true_r]. }
  rewrite Hhv.
  destruct ((1 <? length (fst (tokenize args)))%nat
            || negb (length (snd (tokenize args)) =? 0)%nat) eqn:Ecount.
  - split.
    + intros _. cbn [cerr cout source target write_cerr].
      repeat split; first [congruence | now rewrite Serr, Re].
    + intros [Hone Hnil]. rewrite Hone, Hnil in Ecount. discriminate.
  - apply orb_false_elim in Ecount. destruct Ecount as [E1 E2].
    apply Nat.ltb_ge in E1. apply negb_false_iff, Nat.eqb_eq in E2.
    destruct (on (flag_at (A_switched cfg (fst (tokenize args)) (A_reset cfg st)) help))
      eqn:Eh.
    all: split;
      [ intros [Hgt | Hne]; [lia |];
        destruct (snd (tokenize args)); [tauto | discriminate]
      | intros _; cbn [cerr cout source target write_cout flag_at]; rewrite Eh;
        repeat split; first [congruence | now rewrite Sout, Ro] ].
Qed.

(** Directory mode. *)
Lemma A_directory_mode (cfg : Config) (fs : FileSystem) (args : list string)
    (d : string) (rest : list string) (st : state) :
  snd (tokenize args) = d :: rest -> is_directory fs d = true ->
  A_flags_accepted cfg args st ->
  let (c, st') := CmdArgumentParser.parse cfg fs args st in
  match rest with
  | [] => c = Returned true /\ source st' = d /\ target st' = _target st /\
          cerr st' = cerr st
  | _ => c = Returned false /\ source st' = "" /\ target st' = "" /\
         cerr st' = cerr st ++ "Error: " ++ "argument: Too many arguments" ++ nl
  end.
Proof.
  intros Hfiles Hd Hacc. rewrite (A_parse_accepted fs Hacc), Hfiles.
  destruct (A_after_flags_facts Hacc) as (Hs & Ht & Hs' & Ht' & Ho & He).
  cbv zeta in *. revert Hs Ht Hs' Ht' Ho He.
  generalize (A_after_flags cfg args st). intros st2 Hs Ht Hs' Ht' Ho He.
  unfold parseFiles.
  destruct rest as [|x [|y rest]]; run; rewrite ?Hd; run; finish_run.
  - auto.
  - repeat split; first [congruence | now rewrite He].
  - repeat split; first [congruence | now rewrite He].
Qed.

(** File mode, once both paths are resolved: the identity check decides. *)
Lemma A_files_resolved (cfg : Config) (fs : FileSystem) (args : list string)
    (rs rt : path) (st : state) :
  A_flags_accepted cfg args st ->
  A_resolved_paths cfg fs (snd (tokenize args)) = Some (rs, rt) ->
  let (c, st') := CmdArgumentParser.parse cfg fs args st in
  _source st' = rs /\ _target st' = rt /\
  (tolower rs = tolower rt ->
     c = Returned false /\ source st' = "" /\ target st' = "" /\
     cerr st' = cerr st ++ "Error: " ++ "Source and target files are the same" ++ nl) /\
  (tolower rs <> tolower rt ->
     c = Returned true /\ source st' = rs /\ target st' = rt /\ cerr st' = cerr st).
Proof.
  intros Hacc Hres. rewrite (A_parse_accepted fs Hacc).
  destruct (A_after_flags_facts Hacc) as (Hs & Ht & Hs' & Ht' & Ho & He).
  cbv zeta in *. revert Hs Ht Hs' Ht' Ho He.
  generalize (A_after_flags cfg args st). intros st2 Hs Ht Hs' Ht' Ho He.
  destruct (snd (tokenize args)) as [|s more]; [discriminate |].
  cbn [A_resolved_paths] in Hres.
  destruct (is_directory fs s) eqn:Ed; [discriminate |].
  destruct (exists_ fs s) eqn:Ee; [| discriminate].
  destruct (contains String.eqb (source_ext cfg) (getExtension s)) eqn:Ex; [| discriminate].
  cbn [negb andb] in Hres.
  unfold parseFiles.
  destruct more as [|t [|u more]]; [| | discriminate].
  - injection Hres as <- <-.
    run. rewrite Ed. run. rewrite Ee. run. rewrite Ex. run.
    destruct (String.eqb_spec (tolower s)
                (tolower (Path.replace_extension s (defaultTargetExt cfg)))) as [E|E];
      finish_run; repeat split; intros; first [congruence | tauto | now rewrite He].
  - cbv zeta in Hres.
    run. rewrite Ed. run. rewrite Ee. run. rewrite Ex. run.
    destruct (Path.empty (Path.parent_path t)); run.
    + destruct (is_directory fs (Path.parent_path (Path.parent_path s </> Path.filename t)));
        [| discriminate].
      injection Hres as <- <-. run.
      destruct (String.eqb_spec (tolower s)
                  (tolower (Path.parent_path s </> Path.filename t))) as [E|E];
        finish_run; repeat split; intros; first [congruence | tauto | now rewrite He].
    + destruct (is_directory fs (Path.parent_path t)); [| discriminate].
      injection Hres as <- <-. run.
      destruct (String.eqb_spec (tolower s) (tolower t)) as [E|E];
        finish_run; repeat split; intros; first [congruence | tauto | now rewrite He].
Qed.

(** The checks on the source file: the token is used as written. *)
Lemma A_source_checks (cfg : Config) (fs : FileSystem) (args : list string)
    (s : string) (more : list string) (st : state) :
  A_flags_accepted cfg args st ->
  snd (tokenize args) = s :: more -> length more <= 1 ->
  is_directory fs s = false ->
  let (c, st') := CmdArgumentParser.parse cfg fs args st in
  _source st' = s /\
  (exists_ fs s = false ->
     c = Returned false /\ source st' = "" /\ target st' = "" /\
     cerr st' = cerr st ++ "Error: " ++ ("Could not find the source file " ++ s) ++ nl) /\
  (exists_ fs s = true -> ~ In (getExtension s) (source_ext cfg) ->
     c = Returned false /\ source st' = "" /\ target st' = "" /\
     cerr st' = cerr st ++ "Error: " ++ ("Source file is not a valid extension: " ++ s) ++ nl) /\
  (c = Returned true ->
     exists_ fs s = true /\ In (getExtension s) (source_ext cfg) /\ source st' = s).
Proof.
  intros Hacc Hfiles Hlen Ed. rewrite (A_parse_accepted fs Hacc), Hfiles.
  destruct (A_after_flags_facts Hacc) as (Hs & Ht & Hs' & Ht' & Ho & He).
  cbv zeta in *. revert Hs Ht Hs' Ht' Ho He.
  generalize (A_after_flags cfg args st). intros st2 Hs Ht Hs' Ht' Ho He.
  unfold parseFiles.
  destruct more as [|t [|u more]]; [| | cbn [length] in Hlen; lia].
  all: run; rewrite Ed; run.
  all: destruct (exists_ fs s) eqn:Ee; run.
  all: try (finish_run; repeat split; intros;
            first [congruence | tauto | now rewrite He]).
  all: destruct (contains String.eqb (source_ext cfg) (getExtension s)) eqn:Ex;
         [ apply contains_In in Ex
         | assert (~ In (getExtension s) (source_ext cfg))
             by (let Hin := fresh in intros Hin; apply contains_In in Hin; congruence) ];
         run.
  all: try (finish_run; repeat split; intros;
            first [congruence | tauto | now rewrite He]).
  all: repeat (run; try split_if); finish_run; repeat split; intros;
         first [congruence | tauto | now rewrite He].
Qed.

(** An explicit target whose parent is no directory: one message,
    whether the token has an extension or not. *)
Lemma A_target_parent_checks (cfg : Config) (fs : FileSystem) (args : list string)
    (s t : string) (st : state) :
  A_flags_accepted cfg args st ->
  snd (tokenize args) = [s; t] ->
  is_directory fs s = false ->
  exists_ fs s = true -> In (getExtension s) (source_ext cfg) ->
  let rt := if Path.empty (Path.parent_path t)
            then Path.parent_path s </> Path.filename t else t in
  is_directory fs (Path.parent_path rt) = false ->
  let (c, st') := CmdArgumentParser.parse cfg fs args st in
  c = Returned false /\ source st' = "" /\ target st' = "" /\ _target st' = rt /\
  cerr st' = cerr st ++ "Error: " ++ ("Target file has unknown directory " ++ rt) ++ nl.
Proof.
  intros Hacc Hfiles Ed Ee Ex. cbv zeta. intros Hd.
  rewrite (A_parse_accepted fs Hacc), Hfiles.
  destruct (A_after_flags_facts Hacc) as (Hs & Ht & Hs' & Ht' & Ho & He).
  cbv zeta in *. revert Hs Ht Hs' Ht' Ho He.
  generalize (A_after_flags cfg args st). intros st2 Hs Ht Hs' Ht' Ho He.
  apply contains_In in Ex.
  unfold parseFiles.
  run. rewrite Ed. run. rewrite Ee. run. rewrite Ex. run.
  destruct (Path.empty (Path.parent_path t)); run; rewrite Hd; run;
    finish_run; repeat split; first [congruence | now rewrite He].
Qed.

End AProps.

(* ================================================================== *)
(** * Revision B, stage by stage *)

Module BFacts.
Import B B.CmdArgumentParser.

(** What a run of assignments over a list of flags leaves. *)
Lemma B_assign_all (b : bool) (l : list flag_ptr) (st : state) :
  let st' := fold_left (fun s f => assign f b s) l st in
  (forall p, _flag (flag_at st' p) = _flag (flag_at st p)) /\
  (forall p, defaultOn (flag_at st' p) = defaultOn (flag_at st p)) /\
  (forall p, on (flag_at st' p) = if among l p then b else on (flag_at st p)) /\
  source st' = source st /\ target st' = target st /\
  _source st' = _source st /\ _target st' = _target st /\
  cout st' = cout st /\ cerr st' = cerr st.
Proof.
  revert st; induction l as [|f l IH]; intros st; simpl.
  - repeat split; reflexivity.
  - destruct (IH (assign f b st)) as (Hn & Hd & Ho & H).
    split; [| split; [| split; [| exact H]]].
    + intros p. rewrite Hn. simpl. now destruct (flag_ptr_eqb p f).
    + intros p. rewrite Hd. simpl. now destruct (flag_ptr_eqb p f).
    + intros p. rewrite Ho. simpl.
      destruct (flag_ptr_eqb p f); simpl; [| reflexivity].
      now destruct (among l p).
Qed.

(** What clearing a list of flags leaves. *)
Lemma B_clear_all (l : list flag_ptr) (st : state) :
  let st' := fold_left (fun s f => clear f s) l st in
  (forall p, _flag (flag_at st' p) = _flag (flag_at st p)) /\
  (forall p, defaultOn (flag_at st' p) = defaultOn (flag_at st p)) /\
  (forall p, on (flag_at st' p) =
             if among l p then defaultOn (flag_at st p) else on (flag_at st p)) /\
  source st' = source st /\ target st' = target st /\
  _source st' = _source st /\ _target st' = _target st /\
  cout st' = cout st /\ cerr st' = cerr st.
Proof.
  revert st; induction l as [|f l IH]; intros st; simpl.
  - repeat split; reflexivity.
  - destruct (IH (clear f st)) as (Hn & Hd & Ho & H).
    split; [| split; [| split; [| exact H]]].
    + intros p. rewrite Hn. simpl. now destruct (flag_ptr_eqb p f).
    + intros p. rewrite Hd. simpl. now destruct (flag_ptr_eqb p f).
    + intros p. rewrite Ho. simpl.
      destruct (flag_ptr_eqb p f) eqn:E; simpl.
      * apply flag_ptr_eqb_eq in E. subst p. now destruct (among l f).
      * reflexivity.
Qed.

(** [check] always leaves the same state, whether it throws or not. *)
Lemma B_check_state (cfg : Config) (st : state) :
  B_reset cfg st =
  fold_left (fun s f => clear f s) (cmd_flags cfg) (set_target "" (set_source "" st)).
Proof.
  unfold B_reset, check.
  rewrite !bind_modify, bind_for_each_modify.
  repeat match goal with |- context [if ?c then _ else _] => destruct c end; reflexivity.
Qed.

Lemma B_reset_facts (cfg : Config) (st : state) :
  let st' := B_reset cfg st in
  (forall p, _flag (flag_at st' p) = _flag (flag_at st p)) /\
  (forall p, defaultOn (flag_at st' p) = defaultOn (flag_at st p)) /\
  (forall p, on (flag_at st' p) =
             if among (cmd_flags cfg) p then defaultOn (flag_at st p)
             else on (flag_at st p)) /\
  source st' = "" /\ target st' = "" /\
  _source st' = _source st /\ _target st' = _target st /\
  cout st' = cout st /\ cerr st' = cerr st.
Proof.
  cbv zeta. rewrite B_check_state.
  apply (B_clear_all (cmd_flags cfg) (set_target "" (set_source "" st))).
Qed.

(** [check] throws exactly on a misconfigured configuration, and
    otherwise returns. *)
Lemma B_check_completion (cfg : Config) (st : state) :
  (misconfigured cfg /\ exists what, fst (check cfg st) = Thrown what) \/
  (~ misconfigured cfg /\ fst (check cfg st) = Returned tt).
Proof.
  unfold check.
  rewrite !bind_modify, bind_for_each_modify.
  unfold misconfigured.
  destruct (vector_empty (source_ext cfg)) eqn:E1; simpl.
  { left. split; [| eexists; reflexivity]. apply vector_empty_nil in E1. tauto. }
  destruct (vector_empty (target_ext cfg)) eqn:E2; simpl.
  { left. split; [| eexists; reflexivity]. apply vector_empty_nil in E2. tauto. }
  destruct (contains flag_ptr_eqb (cmd_flags cfg) help) eqn:E4; simpl.
  2:{ left. split; [| eexists; reflexivity].
      right; right; left. intros Hin. apply contains_flag_In in Hin. congruence. }
  destruct (contains flag_ptr_eqb (cmd_flags cfg) version) eqn:E5; simpl.
  2:{ left. split; [| eexists; reflexivity].
      right; right; right; left. intros Hin. apply contains_flag_In in Hin. congruence. }
  destruct (length (cmd_flags cfg) <? 3)%nat eqn:E6; simpl.
  { left. split; [| eexists; reflexivity]. apply Nat.ltb_lt in E6. tauto. }
  right. split; [| reflexivity].
  apply Nat.ltb_ge in E6. apply contains_flag_In in E4, E5.
  assert (vector_empty (source_ext cfg) = true <-> source_ext cfg = []) by apply vector_empty_nil.
  assert (vector_empty (target_ext cfg) = true <-> target_ext cfg = []) by apply vector_empty_nil.
  intros [H'|[H'|[H'|[H'|H']]]]; try tauto; try lia; intuition congruence.
Qed.

Lemma B_name_assign (f : flag_ptr) (b : bool) (st : state) (g : flag_ptr) :
  B_name (assign f b st) g = B_name st g.
Proof. unfold B_name. simpl. now destruct (flag_ptr_eqb g f). Qed.

(** The loop of [parseFlags]: the matched flags are switched on, in
    order, until a token names no registered flag. *)
Lemma B_loop_run (cfg : Config) (flags : list string) (n : nat) (st : state) :
  parseFlags_loop cfg flags n st =
  let st1 := fold_left (fun s f => assign f true s)
               (matched_flags (B_name st) (cmd_flags cfg) flags) st in
  match unknown_flag (B_name st) (cmd_flags cfg) flags with
  | None => (Returned (Some (n + length flags)), st1)
  | Some t => (Returned None,
               write_cerr ("Error: " ++ ("argument: Unknown flag " ++ t) ++ nl) st1)
  end.
Proof.
  revert n st; induction flags as [|t flags IH]; intros n st.
  - simpl. now rewrite Nat.add_0_r.
  - cbn [parseFlags_loop matched_flags unknown_flag]. rewrite bind_get.
    change (fun f => _flag (flag_at st f)) with (B_name st).
    destruct (find_flag (B_name st) (cmd_flags cfg) t) as [f|] eqn:E.
    + rewrite bind_modify, IH.
      rewrite (matched_flags_ext _ (B_name st) _ _ (B_name_assign f true st)).
      rewrite (unknown_flag_ext _ (B_name st) _ _ (B_name_assign f true st)).
      cbn [fold_left length]. now rewrite Nat.add_succ_r.
    + reflexivity.
Qed.

(** [parseFlags], case by case. *)
Lemma B_parseFlags_run (cfg : Config) (flags : list string) (n : nat) (st : state) :
  parseFlags cfg flags n st =
  let st1 := B_switched cfg flags st in
  match unknown_flag (B_name st) (cmd_flags cfg) flags with
  | Some t =>
      (Returned false, write_cerr ("Error: " ++ ("argument: Unknown flag " ++ t) ++ nl) st1)
  | None =>
      if on (flag_at st1 help) || on (flag_at st1 version) then
        if (1 <? length flags)%nat || negb (n =? 0)%nat then
          (Returned false, write_cerr ("Error: " ++ "argument: Too many arguments" ++ nl) st1)
        else if on (flag_at st1 help) then
          (Exited 0%Z, write_cout (text_help cfg ++ nl) st1)
        else
          (Exited 0%Z, write_cout (text_version cfg ++ nl) st1)
      else (Returned true, st1)
  end.
Proof.
  unfold parseFlags. unfold bind at 1. rewrite B_loop_run. cbv zeta.
  fold (B_switched cfg flags st).
  destruct (unknown_flag (B_name st) (cmd_flags cfg) flags); [reflexivity |].
  rewrite bind_get. cbn [Nat.add].
  destruct (on (flag_at (B_switched cfg flags st) help)
            || on (flag_at (B_switched cfg flags st) version)); [| reflexivity].
  destruct ((1 <? length flags)%nat || negb (n =? 0)%nat); [reflexivity |].
  destruct (on (flag_at (B_switched cfg flags st) help)); reflexivity.
Qed.

Lemma B_switched_facts (cfg : Config) (flags : list string) (st : state) :
  let st' := B_switched cfg flags st in
  (forall p, _flag (flag_at st' p) = _flag (flag_at st p)) /\
  (forall p, defaultOn (flag_at st' p) = defaultOn (flag_at st p)) /\
  (forall p, on (flag_at st' p) =
             if among (matched_flags (B_name st) (cmd_flags cfg) flags) p
             then true else on (flag_at st p)) /\
  source st' = source st /\ target st' = target st /\
  _source st' = _source st /\ _target st' = _target st /\
  cout st' = cout st /\ cerr st' = cerr st.
Proof. apply B_assign_all. Qed.

(** When [parseFlags] returns [true] it has written nothing and has
    only switched the matched flags on. *)
Lemma B_parseFlags_true (cfg : Config) (flags : list string) (n : nat) (st : state) :
  fst (parseFlags cfg flags n st) = Returned true ->
  snd (parseFlags cfg flags n st) = B_switched cfg flags st /\
  unknown_flag (B_name st) (cmd_flags cfg) flags = None /\
  on (flag_at (B_switched cfg flags st) help) = false /\
  on (flag_at (B_switched cfg flags st) version) = false.
Proof.
  rewrite B_parseFlags_run. cbv zeta.
  destruct (unknown_flag (B_name st) (cmd_flags cfg) flags); [discriminate |].
  destruct (on (flag_at (B_switched cfg flags st) help)) eqn:Eh;
    destruct (on (flag_at (B_switched cfg flags st) version)) eqn:Ev;
    cbn [orb];
    repeat match goal with |- context [if ?c then _ else _] => destruct c end;
    cbn [fst snd]; try discriminate; auto.
Qed.

(** [parseFlags] never throws, leaves the paths alone and switches no
    flag off. *)
Lemma B_parseFlags_frame (cfg : Config) (flags : list string) (n : nat) (st : state) :
  let r := parseFlags cfg flags n st in
  (forall what, fst r <> Thrown what) /\
  flag_at (snd r) = flag_at (B_switched cfg flags st) /\
  source (snd r) = source st /\ target (snd r) = target st /\
  _source (snd r) = _source st /\ _target (snd r) = _target st.
Proof.
  cbv zeta. rewrite B_parseFlags_run. cbv zeta.
  destruct (B_switched_facts cfg flags st) as (_ & _ & _ & Hs & Ht & Hs' & Ht' & _).
  repeat match goal with |- context [if ?c then _ else _] => destruct c end;
    try destruct (unknown_flag (B_name st) (cmd_flags cfg) flags);
    cbn [fst snd flag_at source target _source _target write_cerr write_cout];
    repeat split; try assumption; try discriminate.
Qed.

(** [CmdArgumentParser::parse], stage by stage. *)
Lemma B_parse_run (cfg : Config) (fs : FileSystem) (args : list string) (st : state) :
  CmdArgumentParser.parse cfg fs args st =
  match fst (check cfg st) with
  | Returned _ =>
      match parseFlags cfg (fst (tokenize args)) (length (snd (tokenize args)))
              (B_reset cfg st) with
      | (Returned true, st2) => parseFiles cfg fs (snd (tokenize args)) st2
      | (Returned false, st2) => (Returned false, st2)
      | (Exited code, st2) => (Exited code, st2)
      | (Thrown what, st2) => (Thrown what, st2)
      end
  | Exited code => (Exited code, B_reset cfg st)
  | Thrown what => (Thrown what, B_reset cfg st)
  end.
Proof.
  unfold CmdArgumentParser.parse, B_reset. unfold bind at 1.
  destruct (check cfg st) as [[[]|code|what] st1]; cbn [fst snd]; try reflexivity.
  destruct (tokenize args) as [flags files]. cbn [fst snd]. unfold bind.
  destruct (parseFlags cfg flags (length files) st1) as [[[|]|code|what] st2]; reflexivity.
Qed.

Lemma B_parse_accepted (cfg : Config) (fs : FileSystem) (args : list string) (st : state) :
  B_flags_accepted cfg args st ->
  CmdArgumentParser.parse cfg fs args st =
  parseFiles cfg fs (snd (tokenize args)) (B_after_flags cfg args st).
Proof.
  intros [Hc Hf]. rewrite B_parse_run, Hc. unfold B_after_flags.
  destruct (parseFlags cfg (fst (tokenize args)) (length (snd (tokenize args)))
              (B_reset cfg st)) as [c st2].
  cbn [fst snd] in *. now subst c.
Qed.

(** The state [parseFiles] starts from: paths cleared, nothing written,
    the parser object untouched. *)
Lemma B_after_flags_facts (cfg : Config) (args : list string) (st : state) :
  B_flags_accepted cfg args st ->
  let st2 := B_after_flags cfg args st in
  source st2 = "" /\ target st2 = "" /\
  _source st2 = _source st /\ _target st2 = _target st /\
  cout st2 = cout st /\ cerr st2 = cerr st.
Proof.
  intros [_ Hf]. cbv zeta. unfold B_after_flags.
  apply B_parseFlags_true in Hf. destruct Hf as (-> & _).
  destruct (B_switched_facts cfg (fst (tokenize args)) (B_reset cfg st))
    as (_ & _ & _ & Hs & Ht & Hs' & Ht' & Ho & He).
  destruct (B_reset_facts cfg st) as (_ & _ & _ & Rs & Rt & Rs' & Rt' & Ro & Re).
  cbv zeta in *. repeat split; congruence.
Qed.

End BFacts.

Module BFiles.
Import B B.CmdArgumentParser.

(** Symbolic execution of a monadic body: binds are reduced, then a
    branch whose condition is closed is split. *)
Ltac run :=
  repeat first
    [ rewrite bind_modify
    | rewrite bind_get
    | progress cbn [flag_at source target _source _target cout cerr
                    set_source set_target set__source set__target
                    write_cout write_cerr fst snd nth length
                    vector_empty Nat.ltb Nat.leb Nat.eqb negb andb orb]
    | progress cbv zeta ].

Ltac split_if :=
  match goal with
  | |- context [if ?c then _ else _] => destruct c eqn:?
  end.

Ltac finish_run :=
  unfold err, ret; run;
  cbn [flag_at source target _source _target cout cerr
       set_source set_target set__source set__target
       write_cout write_cerr fst snd].

(** [parseFiles], its filesystem queries answered, returns; it leaves
    the flags and [std::cout] alone, and the published paths too unless
    it returns [true]. *)
Lemma B_parseFiles_frame (cfg : Config) (fs : FileSystem) (files : list string) (st : state) :
  let r := parseFiles cfg fs files st in
  (exists b, fst r = Returned b) /\
  flag_at (snd r) = flag_at st /\ cout (snd r) = cout st /\
  (fst r = Returned false -> source (snd r) = source st /\ target (snd r) = target st).
Proof.
  cbv zeta. unfold parseFiles.
  repeat (run; try split_if); finish_run;
    (split; [eexists; reflexivity | repeat split; try reflexivity; discriminate]).
Qed.

End BFiles.

(* ================================================================== *)
(** * Revision B: the properties, on any parser object *)

Module BProps.
Import B B.CmdArgumentParser BFacts BFiles.

Lemma B_parse_fresh (cfg : Config) (fs : FileSystem) (args : list string) (st : state) :
  B.parse cfg fs args st = CmdArgumentParser.parse cfg fs args (B_fresh st).
Proof. reflexivity. Qed.

(** What [check] throws is the outcome of the call, whatever the
    arguments and the filesystem are: nothing after [check] is run, and
    nothing is written. *)
Lemma B_check_throw_escapes (cfg : Config) (fs : FileSystem) (args : list string)
    (st : state) (what : string) :
  fst (check cfg st) = Thrown what ->
  CmdArgumentParser.parse cfg fs args st = (Thrown what, B_reset cfg st) /\
  cout (B_reset cfg st) = cout st /\ cerr (B_reset cfg st) = cerr st.
Proof.
  intros Hw. rewrite B_parse_run, Hw.
  destruct (B_reset_facts cfg st) as (_ & _ & _ & _ & _ & _ & _ & Ho & He).
  auto.
Qed.

(** The messages of [check]. *)
Lemma B_check_messages (cfg : Config) (st : state) (what : string) :
  fst (check cfg st) = Thrown what ->
  In what ["Error: source_ext or target_ext is not defined.";
              "Error: cmd_flags must contain 'help' flag.";
              "Error: cmd_flags must contain 'version' flag.";
              "Error: cmd_flags is not defined."].
Proof.
  unfold check. rewrite !bind_modify, bind_for_each_modify.
  repeat match goal with |- context [if ?c then _ else _] => destruct c end;
    cbn [fst throw ret]; intros H; try discriminate H;
    injection H as <-; simpl; auto 10.
Qed.

Lemma B_throws_before_arguments (cfg : Config) (fs : FileSystem) (args : list string)
    (st : state) :
  misconfigured cfg ->
  CmdArgumentParser.parse cfg fs args st = CmdArgumentParser.parse cfg fs [] st /\
  cout (snd (CmdArgumentParser.parse cfg fs args st)) = cout st /\
  cerr (snd (CmdArgumentParser.parse cfg fs args st)) = cerr st.
Proof.
  intros Hbad. rewrite !B_parse_run.
  destruct (B_check_completion cfg st) as [[_ [what Hw]] | [Hok _]]; [| tauto].
  rewrite Hw. cbn [snd].
  destruct (B_reset_facts cfg st) as (_ & _ & _ & _ & _ & _ & _ & Ho & He).
  auto.
Qed.

(** A failure return leaves the published paths empty. *)
Lemma B_failure_paths_empty (cfg : Config) (fs : FileSystem) (args : list string)
    (st : state) :
  fst (CmdArgumentParser.parse cfg fs args st) = Returned false ->
  source (snd (CmdArgumentParser.parse cfg fs args st)) = "" /\
  target (snd (CmdArgumentParser.parse cfg fs args st)) = "".
Proof.
  rewrite B_parse_run.
  destruct (B_reset_facts cfg st) as (_ & _ & _ & Rs & Rt & _).
  destruct (fst (check cfg st)) as [[]|code|what]; cbn [fst snd]; try discriminate.
  destruct (B_parseFlags_frame cfg (fst (tokenize args)) (length (snd (tokenize args)))
              (B_reset cfg st)) as (_ & _ & Hs & Ht & _).
  cbv zeta in *.
  destruct (parseFlags cfg (fst (tokenize args)) (length (snd (tokenize args)))
              (B_reset cfg st)) as [[[|]|code|w] st2]; cbn [fst snd] in *; try discriminate.
  - intros Hf.
    destruct (B_parseFiles_frame cfg fs (snd (tokenize args)) st2) as (_ & _ & _ & Hp).
    destruct (Hp Hf) as [Hs2 Ht2]. split; congruence.
  - intros _. split; congruence.
Qed.

(** [check] puts every registered flag at its stored default. *)
Lemma B_reset_default (cfg : Config) (st : state) (f : flag_ptr) :
  In f (cmd_flags cfg) -> on (flag_at (B_reset cfg st) f) = B_default st f.
Proof.
  intros Hf. destruct (B_reset_facts cfg st) as (_ & _ & Ho & _). cbv zeta in Ho.
  rewrite Ho. apply among_In in Hf. now rewrite Hf.
Qed.

(** A flag the call switches is one the arguments mention. *)
Lemma B_final_flag (cfg : Config) (fs : FileSystem) (args : list string) (st : state)
    (f : flag_ptr) :
  on (flag_at (snd (CmdArgumentParser.parse cfg fs args st)) f) =
    on (flag_at (B_reset cfg st) f) \/
  mentions args (B_name st f).
Proof.
  rewrite B_parse_run.
  destruct (fst (check cfg st)) as [[]|code|what]; cbn [snd]; auto.
  destruct (B_parseFlags_frame cfg (fst (tokenize args)) (length (snd (tokenize args)))
              (B_reset cfg st)) as (_ & Hfl & _).
  cbv zeta in Hfl.
  assert (Hsw : on (flag_at (B_switched cfg (fst (tokenize args)) (B_reset cfg st)) f) =
                on (flag_at (B_reset cfg st) f) \/ mentions args (B_name st f)).
  { destruct (B_switched_facts cfg (fst (tokenize args)) (B_reset cfg st)) as (_ & _ & Ho & _).
    cbv zeta in Ho. rewrite Ho.
    destruct (among _ f) eqn:E; [right | now left].
    apply among_In, matched_flags_In in E. destruct E as [_ E].
    destruct (B_reset_facts cfg st) as (Hn & _). cbv zeta in Hn.
    unfold B_name in E. rewrite Hn in E. fold (B_name st f) in E.
    unfold mentions. destruct E as [E|E]; apply tokenize_flags_In in E; auto. }
  destruct (parseFlags cfg (fst (tokenize args)) (length (snd (tokenize args)))
              (B_reset cfg st)) as [[[|]|code|w] st2]; cbn [fst snd] in *;
    try (rewrite Hfl; exact Hsw).
  destruct (B_parseFiles_frame cfg fs (snd (tokenize args)) st2) as (_ & Hff & _).
  cbv zeta in Hff. rewrite Hff, Hfl. exact Hsw.
Qed.

(** The help/version short-circuit of [parseFlags]. *)
Lemma B_help_version (cfg : Config) (fs : FileSystem) (args : list string) (st : state) :
  let flags := fst (tokenize args) in
  let files := snd (tokenize args) in
  let matched := matched_flags (B_name st) (cmd_flags cfg) flags in
  ~ misconfigured cfg ->
  unknown_flag (B_name st) (cmd_flags cfg) flags = None ->
  In help matched \/ In version matched ->
  let (c, st') := CmdArgumentParser.parse cfg fs args st in
  (1 < length flags \/ files <> [] ->
     c = Returned false /\
     cerr st' = cerr st ++ "Error: " ++ "argument: Too many arguments" ++ nl /\
     cout st' = cout st /\ source st' = "" /\ target st' = "") /\
  (length flags = 1 /\ files = [] ->
     c = Exited 0%Z /\
     cout st' = cout st ++ (if on (flag_at st' help) then text_help cfg
                            else text_version cfg) ++ nl /\
     cerr st' = cerr st /\ source st' = "" /\ target st' = "").
Proof.
  cbv zeta. intros Hok Hun Hm. rewrite B_parse_run.
  destruct (B_check_completion cfg st) as [[Hbad _] | [_ Hr]]; [tauto |].
  rewrite Hr, B_parseFlags_run. cbv zeta.
  destruct (B_reset_facts cfg st) as (Rn & _ & _ & Rs & Rt & _ & _ & Ro & Re).
  cbv zeta in *.
  assert (Hnames : forall f, B_name (B_reset cfg st) f = B_name st f)
    by (intros f; unfold B_name; apply Rn).
  rewrite (unknown_flag_ext _ _ _ _ Hnames), Hun.
  destruct (B_switched_facts cfg (fst (tokenize args)) (B_reset cfg st))
    as (_ & _ & So & Ss & St & _ & _ & Sout & Serr).
  cbv zeta in *.
  rewrite (matched_flags_ext _ _ _ _ Hnames) in So.
  assert (Hhv : on (flag_at (B_switched cfg (fst (tokenize args)) (B_reset cfg st)) help)
                || on (flag_at (B_switched cfg (fst (tokenize args)) (B_reset cfg st)) version)
                = true).
  { rewrite !So. destruct Hm as [Hm|Hm]; apply among_In in Hm; rewrite Hm;
      [reflexivity | apply orb_true_r]. }
  rewrite Hhv.
  destruct ((1 <? length (fst (tokenize args)))%nat
            || negb (length (snd (tokenize args)) =? 0)%nat) eqn:Ecount.
  - split.
    + intros _. cbn [cerr cout source target write_cerr].
      repeat split; first [congruence | now rewrite Serr, Re].
    + intros [Hone Hnil]. rewrite Hone, Hnil in Ecount. discriminate.
  - apply orb_false_elim in Ecount. destruct Ecount as [E1 E2].
    apply Nat.ltb_ge in E1. apply negb_false_iff, Nat.eqb_eq in E2.
    destruct (on (flag_at (B_switched cfg (fst (tokenize args)) (B_reset cfg st)) help))
      eqn:Eh.
    all: split;
      [ intros [Hgt | Hne]; [lia |];
        destruct (snd (tokenize args)); [tauto | discriminate]
      | intros _; cbn [cerr cout source target write_cout flag_at]; rewrite Eh;
        repeat split; first [congruence | now rewrite Sout, Ro] ].
Qed.

(** Directory mode. *)
Lemma B_directory_mode (cfg : Config) (fs : FileSystem) (args : list string)
    (d : string) (rest : list string) (st : state) :
  snd (tokenize args) = d :: rest -> is_directory fs d = true ->
  B_flags_accepted cfg args st ->
  let (c, st') := CmdArgumentParser.parse cfg fs args st in
  match rest with
  | [] => c = Returned true /\ source st' = d /\ target st' = "" /\
          cerr st' = cerr st
  | _ => c = Returned false /\ source st' = "" /\ target st' = "" /\
         cerr st' = cerr st ++ "Error: " ++ "argument: Too many arguments" ++ nl
  end.
Proof.
  intros Hfiles Hd Hacc. rewrite (B_parse_accepted fs Hacc), Hfiles.
  destruct (B_after_flags_facts Hacc) as (Hs & Ht & Hs' & Ht' & Ho & He).
  cbv zeta in *. revert Hs Ht Hs' Ht' Ho He.
  generalize (B_after_flags cfg args st). intros st2 Hs Ht Hs' Ht' Ho He.
  unfold parseFiles.
  destruct rest as [|x [|y rest]]; run; rewrite ?Hd; run; finish_run.
  - auto.
  - repeat split; first [congruence | now rewrite He].
  - repeat split; first [congruence | now rewrite He].
Qed.

(** The last steps of [parseFiles], once both paths are known. *)
Ltac decide_finish He :=
  match goal with
  | |- context [String.eqb (tolower ?a) (tolower ?b)] =>
      destruct (String.eqb_spec (tolower a) (tolower b))
  end;
  [ finish_run; repeat split; intros; first [congruence | tauto | now rewrite He]
  | match goal with
    | |- context [contains String.eqb ?l ?x] =>
        let Et := fresh "Et" in
        destruct (contains String.eqb l x) eqn:Et;
        [ apply contains_In in Et
        | assert (~ In x l) by (let Hin := fresh in
                                intros Hin; apply contains_In in Hin; congruence) ]
    end;
    finish_run; repeat split; intros; first [congruence | tauto | now rewrite He] ].

(** File mode, once both paths are resolved: the identity check, then
    the validation of the target extension, decide. *)
Lemma B_files_resolved (cfg : Config) (fs : FileSystem) (args : list string)
    (rs rt : path) (st : state) :
  B_flags_accepted cfg args st ->
  B_resolved_paths cfg fs (snd (tokenize args)) = Some (rs, rt) ->
  let (c, st') := CmdArgumentParser.parse cfg fs args st in
  _source st' = rs /\ _target st' = rt /\
  (tolower rs = tolower rt ->
     c = Returned false /\ source st' = "" /\ target st' = "" /\
     cerr st' = cerr st ++ "Error: " ++ "Source and target files are the same" ++ nl) /\
  (tolower rs <> tolower rt -> ~ In (getExtension rt) (target_ext cfg) ->
     c = Returned false /\ source st' = "" /\ target st' = "" /\
     cerr st' = cerr st ++ "Error: " ++ ("Target file is not a valid extension: " ++ rt) ++ nl) /\
  (tolower rs <> tolower rt -> In (getExtension rt) (target_ext cfg) ->
     c = Returned true /\ source st' = rs /\ target st' = rt /\ cerr st' = cerr st).
Proof.
  intros Hacc Hres. rewrite (B_parse_accepted fs Hacc).
  destruct (B_after_flags_facts Hacc) as (Hs & Ht & Hs' & Ht' & Ho & He).
  cbv zeta in *. revert Hs Ht Hs' Ht' Ho He.
  generalize (B_after_flags cfg args st). intros st2 Hs Ht Hs' Ht' Ho He.
  destruct (snd (tokenize args)) as [|s more]; [discriminate |].
  cbn [B_resolved_paths] in Hres. cbv zeta in Hres.
  destruct (is_directory fs s) eqn:Ed; [discriminate |].
  destruct (exists_ fs (B_resolved_source fs s)) eqn:Ee; [| discriminate].
  destruct (contains String.eqb (source_ext cfg) (getExtension (B_resolved_source fs s)))
    eqn:Ex; [| discriminate].
  cbn [negb andb] in Hres.
  unfold parseFiles, B_resolved_source, B_anchored_target in *.
  destruct more as [|t [|u more]]; [| | discriminate].
  - injection Hres as <- <-.
    run. rewrite Ed. run.
    destruct (Path.empty (Path.parent_path s)); run; rewrite Ee; run; rewrite Ex; run;
      decide_finish He.
  - run. rewrite Ed. run.
    destruct (Path.empty (Path.parent_path s)); run; rewrite Ee; run; rewrite Ex; run.
    all: destruct (Path.empty (Path.parent_path t)); run.
    all: match type of Hres with
         | (if negb (Path.empty (Path.parent_path ?rt')) && _ then _ else _) = _ =>
             destruct (negb (Path.empty (Path.parent_path rt'))
                       && negb (is_directory fs (Path.parent_path rt'))); [discriminate |];
             destruct (Path.has_extension rt'); run;
             [| destruct (is_directory fs rt'); [| discriminate]; run];
             injection Hres as <- <-;
             decide_finish He
         end.
Qed.

(** The checks on the source file. *)
Lemma B_source_checks (cfg : Config) (fs : FileSystem) (args : list string)
    (s : string) (more : list string) (st : state) :
  B_flags_accepted cfg args st ->
  snd (tokenize args) = s :: more -> length more <= 1 ->
  is_directory fs s = false ->
  let rs := B_resolved_source fs s in
  let (c, st') := CmdArgumentParser.parse cfg fs args st in
  _source st' = rs /\
  (exists_ fs rs = false ->
     c = Returned false /\ source st' = "" /\ target st' = "" /\
     cerr st' = cerr st ++ "Error: " ++ ("Could not find the source file " ++ s) ++ nl) /\
  (exists_ fs rs = true -> ~ In (getExtension rs) (source_ext cfg) ->
     c = Returned false /\ source st' = "" /\ target st' = "" /\
     cerr st' = cerr st ++ "Error: " ++ ("Source file is not a valid extension: " ++ rs) ++ nl) /\
  (c = Returned true ->
     exists_ fs rs = true /\ In (getExtension rs) (source_ext cfg) /\ source st' = rs).
Proof.
  intros Hacc Hfiles Hlen Ed. cbv zeta. rewrite (B_parse_accepted fs Hacc), Hfiles.
  destruct (B_after_flags_facts Hacc) as (Hs & Ht & Hs' & Ht' & Ho & He).
  cbv zeta in *. revert Hs Ht Hs' Ht' Ho He.
  generalize (B_after_flags cfg args st). intros st2 Hs Ht Hs' Ht' Ho He.
  unfold parseFiles, B_resolved_source.
  destruct more as [|t [|u more]]; [| | cbn [length] in Hlen; lia].
  all: run; rewrite Ed; run.
  all: destruct (Path.empty (Path.parent_path s)); run.
  all: match goal with
       | |- context [exists_ ?f ?p] => destruct (exists_ f p) eqn:Ee
       end; run.
  all: try (finish_run; repeat split; intros;
            first [congruence | tauto | now rewrite He]).
  all: match goal with
       | |- context [contains String.eqb (source_ext ?c) ?x] =>
           destruct (contains String.eqb (source_ext c) x) eqn:Ex;
           [ apply contains_In in Ex
           | assert (~ In x (source_ext c))
               by (let Hin := fresh in intros Hin; apply contains_In in Hin; congruence) ]
       end; run.
  all: try (finish_run; repeat split; intros;
            first [congruence | tauto | now rewrite He]).
  all: repeat (run; try split_if); finish_run; repeat split; intros;
         first [congruence | tauto | now rewrite He].
Qed.

(** An explicit target whose parent is no directory. *)
Lemma B_target_parent_checks (cfg : Config) (fs : FileSystem) (args : list string)
    (s t : string) (st : state) :
  B_flags_accepted cfg args st ->
  snd (tokenize args) = [s; t] ->
  is_directory fs s = false ->
  let rs := B_resolved_source fs s in
  exists_ fs rs = true -> In (getExtension rs) (source_ext cfg) ->
  let rt := B_anchored_target rs t in
  Path.parent_path rt <> "" -> is_directory fs (Path.parent_path rt) = false ->
  let (c, st') := CmdArgumentParser.parse cfg fs args st in
  c = Returned false /\ source st' = "" /\ target st' = "" /\ _target st' = rt /\
  cerr st' = cerr st ++ "Error: " ++
               ((if Path.has_extension rt then "Target file has unknown directory "
                 else "Target directory does not exist ") ++ rt) ++ nl.
Proof.
  intros Hacc Hfiles Ed. cbv zeta. intros Ee Ex Hp Hd.
  rewrite (B_parse_accepted fs Hacc), Hfiles.
  destruct (B_after_flags_facts Hacc) as (Hs & Ht & Hs' & Ht' & Ho & He).
  cbv zeta in *. revert Hs Ht Hs' Ht' Ho He.
  generalize (B_after_flags cfg args st). intros st2 Hs Ht Hs' Ht' Ho He.
  apply contains_In in Ex. apply PathFacts.empty_false in Hp.
  unfold parseFiles, B_resolved_source, B_anchored_target in *.
  run. rewrite Ed. run.
  destruct (Path.empty (Path.parent_path s)); run; rewrite Ee; run; rewrite Ex; run.
  all: destruct (Path.empty (Path.parent_path t)); run; rewrite Hp, Hd; run.
  all: match goal with
       | |- context [Path.has_extension ?p] => destruct (Path.has_extension p)
       end; finish_run; repeat split; first [congruence | now rewrite He].
Qed.

(** A call changes no stored default. *)
Lemma B_parse_keeps_default (cfg : Config) (fs : FileSystem) (args : list string)
    (st : state) (f : flag_ptr) :
  B_default (snd (CmdArgumentParser.parse cfg fs args st)) f = B_default st f.
Proof.
  rewrite B_parse_run. unfold B_default.
  destruct (B_reset_facts cfg st) as (_ & Rd & _). cbv zeta in Rd.
  destruct (fst (check cfg st)) as [[]|code|what]; cbn [snd]; try apply Rd.
  destruct (B_parseFlags_frame cfg (fst (tokenize args)) (length (snd (tokenize args)))
              (B_reset cfg st)) as (_ & Hfl & _).
  destruct (B_switched_facts cfg (fst (tokenize args)) (B_reset cfg st)) as (_ & Sd & _).
  cbv zeta in *.
  destruct (parseFlags cfg (fst (tokenize args)) (length (snd (tokenize args)))
              (B_reset cfg st)) as [[[|]|code|w] st2]; cbn [fst snd] in *;
    try (rewrite Hfl, Sd; apply Rd).
  destruct (B_parseFiles_frame cfg fs (snd (tokenize args)) st2) as (_ & Hff & _).
  cbv zeta in Hff. rewrite Hff, Hfl, Sd. apply Rd.
Qed.

End BProps.

(* ================================================================== *)
(** * The demo configuration *)

Lemma demo_well_configured :
  ~ (misconfigured demo \/ identical_extension_lists demo).
Proof.
  unfold misconfigured, identical_extension_lists, demo; simpl.
  intros [[H|[H|[H|[H|H]]]]|H]; try discriminate; try lia.
  - apply H. auto.
  - apply H. auto.
Qed.

Lemma demo_not_misconfigured : ~ misconfigured demo.
Proof. intros H. apply demo_well_configured. now left. Qed.

(** The scenarios of the specification, run on revision B (the one
    [README.md] describes) in the working directory [/home/u]. *)
Example B_scenarios :
  (* 1 *)
  (let (c, st) := B.parse demo demo_fs ["source.txt"] B.initial in
   c = Returned true /\ B.source st = "/home/u/source.txt" /\
   B.target st = "/home/u/source.csv" /\ B.on (B.flag_at st convert) = true) /\
  (* 2 *)
  (let (c, st) := B.parse demo demo_fs ["source.txt"; "target.csv"] B.initial in
   c = Returned true /\ B.source st = "/home/u/source.txt" /\
   B.target st = "/home/u/target.csv") /\
  (* 3 *)
  (let (c, st) := B.parse demo demo_fs ["-translate"; "source.json"; "target.csv"]
                    B.initial in
   c = Returned true /\ B.on (B.flag_at st translate) = true /\
   B.on (B.flag_at st convert) = true) /\
  (* 4 *)
  (let (c, st) := B.parse demo demo_fs ["source.jpg"; "target.csv"] B.initial in
   c = Returned false /\
   B.cerr st = "Error: Source file is not a valid extension: /home/u/source.jpg" ++ nl) /\
  (* 5 *)
  (let (c, st) := B.parse demo demo_fs ["source.cpp"] B.initial in
   c = Returned false /\
   B.cerr st = "Error: Could not find the source file source.cpp" ++ nl) /\
  (* 6 *)
  (let (c, st) := B.parse demo demo_fs ["-version"] B.initial in
   c = Exited 0%Z /\ B.cout st = "MyProgram version: 1.0.0" ++ nl /\
   B.source st = "" /\ B.target st = "") /\
  (* 7 *)
  (let (c, st) := B.parse demo demo_fs ["source.txt"; "target.csv"; "extra.csv"] B.initial in
   c = Returned false /\ B.cerr st = "Error: argument: Too many arguments" ++ nl).
Proof. vm_compute. repeat split. Qed.

(* ================================================================== *)
(** * The claims *)

(** ** C1: the help/version short-circuit *)

(** C1, as stated, fails in both revisions on a repeated help flag: the
    arguments [-help -help] enable the help flag and no other, and there
    is no positional token, so the claim promises the help text and a
    successful exit; [parseFlags] counts two flag tokens and returns
    failure with "Too many arguments". *)
Lemma C1_repeated_help_is_rejected :
  ~ A_short_circuit_as_stated demo demo_fs ["-help"; "-help"] A.initial /\
  ~ B_short_circuit_as_stated demo demo_fs ["-help"; "-help"] B.initial.
Proof.
  split; intros H.
  - generalize (H demo_well_configured eq_refl). clear H.
    vm_compute. intros [H _]. discriminate.
  - generalize (H demo_not_misconfigured eq_refl). clear H.
    vm_compute. intros [H _]. discriminate.
Qed.

(** The claim as stated also fails when a token that names no flag
    follows the help flag: [-help -bogus] switches the help flag on, then
    the call returns failure with "Unknown flag -bogus".  The claim is
    about argument lists whose flag tokens all name registered flags. *)
Lemma unknown_flag_after_help_is_reported :
  ~ A_short_circuit_as_stated demo demo_fs ["-help"; "-bogus"] A.initial /\
  ~ B_short_circuit_as_stated demo demo_fs ["-help"; "-bogus"] B.initial /\
  (let (c, st) := B.parse demo demo_fs ["-help"; "-bogus"] B.initial in
   c = Returned false /\ B.on (B.flag_at st help) = true /\
   B.cerr st = "Error: argument: Unknown flag -bogus" ++ nl).
Proof.
  split; [| split].
  - intros H. generalize (H demo_well_configured eq_refl). clear H.
    vm_compute. intros [H _]. discriminate.
  - intros H. generalize (H demo_not_misconfigured eq_refl). clear H.
    vm_compute. intros [H _]. discriminate.
  - vm_compute. repeat split.
Qed.

(** C1 (amended). For every argument list whose flag tokens all name
    registered flags and at least one of them names the help or the version
    flag: if there is more than one flag token (a repeated flag counts) or
    at least one positional token, parse returns failure after writing
    "Error: argument: Too many arguments" and leaves the published paths
    empty; if there is exactly one flag token and no positional token,
    parse writes the help text (when the help flag is on) or the version
    text to the standard output and ends the process with exit code 0, so
    nothing is returned to the caller.  Holds in both revisions, for a
    configuration the check accepts. *)
Theorem C1_help_version_short_circuit (cfg : Config) (fs : FileSystem) (args : list string) :
  let flags := fst (tokenize args) in
  let files := snd (tokenize args) in
  (forall st : A.state,
     let matched := matched_flags (A_name st) (cmd_flags cfg) flags in
     ~ (misconfigured cfg \/ identical_extension_lists cfg) ->
     unknown_flag (A_name st) (cmd_flags cfg) flags = None ->
     In help matched \/ In version matched ->
     let (c, st') := A.parse cfg fs args st in
     (1 < length flags \/ files <> [] ->
        c = Returned false /\
        A.cerr st' = A.cerr st ++ "Error: " ++ "argument: Too many arguments" ++ nl /\
        A.cout st' = A.cout st /\ A.source st' = "" /\ A.target st' = "") /\
     (length flags = 1 /\ files = [] ->
        c = Exited 0%Z /\
        A.cout st' = A.cout st ++ (if A.on (A.flag_at st' help) then A.text_help cfg
                                   else text_version cfg) ++ nl /\
        A.cerr st' = A.cerr st /\ A.source st' = "" /\ A.target st' = "")) /\
  (forall st : B.state,
     let matched := matched_flags (B_name st) (cmd_flags cfg) flags in
     ~ misconfigured cfg ->
     unknown_flag (B_name st) (cmd_flags cfg) flags = None ->
     In help matched \/ In version matched ->
     let (c, st') := B.parse cfg fs args st in
     (1 < length flags \/ files <> [] ->
        c = Returned false /\
        B.cerr st' = B.cerr st ++ "Error: " ++ "argument: Too many arguments" ++ nl /\
        B.cout st' = B.cout st /\ B.source st' = "" /\ B.target st' = "") /\
     (length flags = 1 /\ files = [] ->
        c = Exited 0%Z /\
        B.cout st' = B.cout st ++ (if B.on (B.flag_at st' help) then B.text_help cfg
                                   else text_version cfg) ++ nl /\
        B.cerr st' = B.cerr st /\ B.source st' = "" /\ B.target st' = "")).
Proof.
  cbv zeta. split; intros st Hok Hun Hm.
  - exact (AProps.A_help_version fs args (A_fresh st) Hok Hun Hm).
  - exact (BProps.B_help_version fs args (B_fresh st) Hok Hun Hm).
Qed.

(** [-version] alone ends the process with exit code 0 (revision A);
    [-help source.txt] returns failure (revision B). *)
Lemma C1_help_version_short_circuit_witness :
  fst (A.parse demo demo_fs ["-version"] A.initial) = Exited 0%Z /\
  fst (B.parse demo demo_fs ["-help"; "source.txt"] B.initial) = Returned false.
Proof.
  destruct (C1_help_version_short_circuit demo demo_fs ["-version"]) as [HA _].
  destruct (C1_help_version_short_circuit demo demo_fs ["-help"; "source.txt"]) as [_ HB].
  specialize (HA A.initial demo_well_configured eq_refl (or_intror (or_introl eq_refl))).
  specialize (HB B.initial demo_not_misconfigured eq_refl (or_introl (or_introl eq_refl))).
  split.
  - destruct (A.parse demo demo_fs ["-version"] A.initial) as [c st'].
    destruct HA as [_ HA]. destruct (HA (conj eq_refl eq_refl)) as (Hc & _). exact Hc.
  - destruct (B.parse demo demo_fs ["-help"; "source.txt"] B.initial) as [c st'].
    destruct HB as [HB _]. destruct HB as (Hc & _); [right; discriminate | exact Hc].
Defined.

(** ** C2: the reset at the start of a call *)

(** C2. Every call of parse starts with [check], which, before any
    argument is looked at, clears the published source and target paths
    and puts every registered flag at its configured default, so that
    after the call -- however it ends -- a registered flag the argument
    list does not mention reads as its configured default, whatever an
    earlier call or the program had left in it.  The configured default is
    the value the flag is declared with: revision A assigns it in [check];
    in revision B the constructor stores it in the flag object
    ([defaultOn]), no call changes what is stored, and [clear] copies it
    back, so that in any state whose flag objects hold what their
    declarations stored -- the state after static initialisation and every
    state calls of parse lead to from it -- the flag reads as the value it
    is declared with: [convert], declared on, returns to on. *)
Theorem C2_reset_to_defaults (cfg : Config) (fs : FileSystem) (args : list string)
    (f : flag_ptr) :
  In f (cmd_flags cfg) ->
  (forall st : A.state,
     let st1 := A_reset cfg (A_fresh st) in
     let st' := snd (A.parse cfg fs args st) in
     (A.source st1 = "" /\ A.target st1 = "" /\ A.on (A.flag_at st1 f) = A_default f) /\
     (~ mentions args (A_name st f) -> A.on (A.flag_at st' f) = A_default f)) /\
  (forall st : B.state,
     let st1 := B_reset cfg (B_fresh st) in
     let st' := snd (B.parse cfg fs args st) in
     (B.source st1 = "" /\ B.target st1 = "" /\ B.on (B.flag_at st1 f) = B_default st f) /\
     (~ mentions args (B_name st f) -> B.on (B.flag_at st' f) = B_default st f)) /\
  (forall g, B_default B.initial g = B.on (B.declared g)) /\
  (forall st : B.state,
     (forall g, B_default st g = B.on (B.declared g)) ->
     let st1 := B_reset cfg (B_fresh st) in
     let st' := snd (B.parse cfg fs args st) in
     (forall g, B_default st' g = B.on (B.declared g)) /\
     B.on (B.flag_at st1 f) = B.on (B.declared f) /\
     (~ mentions args (B_name st f) -> B.on (B.flag_at st' f) = B.on (B.declared f))).
Proof.
  intros Hf.
  assert (HB : forall st : B.state,
             let st1 := B_reset cfg (B_fresh st) in
             let st' := snd (B.parse cfg fs args st) in
             (B.source st1 = "" /\ B.target st1 = "" /\
              B.on (B.flag_at st1 f) = B_default st f) /\
             (~ mentions args (B_name st f) -> B.on (B.flag_at st' f) = B_default st f)).
  { intros st; cbv zeta.
    destruct (BFacts.B_reset_facts cfg (B_fresh st)) as (_ & _ & _ & Hs & Ht & _).
    pose proof (BProps.B_reset_default cfg (B_fresh st) f Hf) as Hd.
    split; [now repeat split |].
    intros Hm. destruct (BProps.B_final_flag cfg fs args (B_fresh st) f) as [H|H].
    + change (B.parse cfg fs args st)
        with (B.CmdArgumentParser.parse cfg fs args (B_fresh st)).
      now rewrite H.
    + tauto. }
  split; [| split; [exact HB | split]].
  - intros st; cbv zeta.
    destruct (AFacts.A_reset_facts cfg (A_fresh st)) as (_ & _ & Hs & Ht & _).
    pose proof (AProps.A_reset_default cfg (A_fresh st) f Hf) as Hd.
    split; [now repeat split |].
    intros Hm. destruct (AProps.A_final_flag cfg fs args (A_fresh st) f) as [H|H].
    + change (A.parse cfg fs args st)
        with (A.CmdArgumentParser.parse cfg fs args (A_fresh st)).
      now rewrite H.
    + tauto.
  - intros g. destruct g; reflexivity.
  - intros st Hdecl. cbv zeta.
    destruct (HB st) as ((_ & _ & H1) & H2). cbv zeta in H1, H2.
    split; [| split].
    + intros g. rewrite <- (Hdecl g).
      exact (BProps.B_parse_keeps_default cfg fs args (B_fresh st) g).
    + rewrite H1. apply Hdecl.
    + intros Hm. rewrite (H2 Hm). apply Hdecl.
Qed.

(** The program switches [convert] off and calls parse: [convert],
    declared on, reads as on again, in both revisions.  In revision B a
    call with [-translate] leaves [translate] on; the next call, without
    it, reads it as it is declared, off. *)
Lemma C2_reset_to_defaults_witness :
  B.on (B.flag_at (snd (B.parse demo demo_fs ["source.txt"]
                          (B.assign convert false B.initial))) convert) = true /\
  A.on (A.flag_at (snd (A.parse demo demo_fs ["source.txt"]
                          (A.assign convert false A.initial))) convert) = true /\
  (B.on (B.flag_at (snd (B.parse demo demo_fs ["-translate"; "source.txt"] B.initial))
          translate) = true /\
   B.on (B.flag_at (snd (B.parse demo demo_fs ["source.txt"]
                           (snd (B.parse demo demo_fs ["-translate"; "source.txt"]
                                   B.initial)))) translate) = false).
Proof.
  assert (Hconvert : In convert (cmd_flags demo)) by (simpl; auto).
  assert (Htranslate : In translate (cmd_flags demo)) by (simpl; auto).
  assert (Hc : ~ mentions ["source.txt"] "convert").
  { unfold mentions. simpl. intros [[H|[]]|[H|[]]]; discriminate. }
  assert (Ht : ~ mentions ["source.txt"] "translate").
  { unfold mentions. simpl. intros [[H|[]]|[H|[]]]; discriminate. }
  assert (D0 : forall g, B_default (B.assign convert false B.initial) g = B.on (B.declared g))
    by (intros g; destruct g; reflexivity).
  destruct (C2_reset_to_defaults demo demo_fs ["source.txt"] convert Hconvert)
    as (HA & _ & _ & HB).
  destruct (C2_reset_to_defaults demo demo_fs ["-translate"; "source.txt"] translate Htranslate)
    as (_ & _ & Hinit & HB1).
  destruct (C2_reset_to_defaults demo demo_fs ["source.txt"] translate Htranslate)
    as (_ & _ & _ & HB2).
  split; [| split; [| split]].
  - exact (eq_trans (proj2 (proj2 (HB (B.assign convert false B.initial) D0)) Hc)
             (eq_refl : B.on (B.declared convert) = true)).
  - exact (eq_trans (proj2 (HA (A.assign convert false A.initial)) Hc)
             (eq_refl : A_default convert = true)).
  - vm_compute; reflexivity.
  - exact (eq_trans
             (proj2 (proj2 (HB2 (snd (B.parse demo demo_fs ["-translate"; "source.txt"]
                                        B.initial))
                              (proj1 (HB1 B.initial Hinit)))) Ht)
             (eq_refl : B.on (B.declared translate) = false)).
Defined.

(** ** When a call gets past the flags *)

(** Revision A: the configuration is accepted, every flag token names a
    registered flag and none of them names help or version. *)
Lemma A_flags_accepted_iff (cfg : Config) (args : list string) (st : A.state) :
  A_flags_accepted cfg args st <->
  ~ (misconfigured cfg \/ identical_extension_lists cfg) /\
  unknown_flag (A_name st) (cmd_flags cfg) (fst (tokenize args)) = None /\
  ~ In help (matched_flags (A_name st) (cmd_flags cfg) (fst (tokenize args))) /\
  ~ In version (matched_flags (A_name st) (cmd_flags cfg) (fst (tokenize args))).
Proof.
  destruct (AFacts.A_reset_facts cfg st) as (Rn & Ro & _). cbv zeta in Rn, Ro.
  assert (Hnames : forall f, A_name (A_reset cfg st) f = A_name st f)
    by (intros f; unfold A_name; apply Rn).
  destruct (AFacts.A_switched_facts cfg (fst (tokenize args)) (A_reset cfg st))
    as (_ & So & _). cbv zeta in So.
  rewrite (matched_flags_ext _ _ _ _ Hnames) in So.
  unfold A_flags_accepted. split.
  - intros [Hc Hf].
    apply AFacts.A_parseFlags_true in Hf. destruct Hf as (_ & Hun & Hh & Hv).
    rewrite (unknown_flag_ext _ _ _ _ Hnames) in Hun.
    rewrite So in Hh, Hv.
    split; [| split; [exact Hun | split]].
    + intros Hbad.
      destruct (AFacts.A_check_completion cfg st) as [[_ [what Hw]] | [Hok _]];
        [congruence | tauto].
    + intros Hin. apply among_In in Hin. rewrite Hin in Hh. discriminate.
    + intros Hin. apply among_In in Hin. rewrite Hin in Hv. discriminate.
  - intros (Hok & Hun & Hh & Hv).
    destruct (AFacts.A_check_completion cfg st) as [[Hbad _] | [_ Hr]]; [tauto |].
    split; [exact Hr |].
    rewrite AFacts.A_parseFlags_run. cbv zeta.
    rewrite (unknown_flag_ext _ _ _ _ Hnames), Hun, !So, !Ro.
    assert (Hreg : among (cmd_flags cfg) help = true /\ among (cmd_flags cfg) version = true).
    { split.
      - destruct (among (cmd_flags cfg) help) eqn:E; [reflexivity | exfalso].
        apply Hok. left. right; right; left. intros Hin. apply among_In in Hin. congruence.
      - destruct (among (cmd_flags cfg) version) eqn:E; [reflexivity | exfalso].
        apply Hok. left. right; right; right; left.
        intros Hin. apply among_In in Hin. congruence. }
    destruct Hreg as [-> ->].
    destruct (among (matched_flags (A_name st) (cmd_flags cfg) (fst (tokenize args))) help)
      eqn:Eh; [apply among_In in Eh; tauto |].
    destruct (among (matched_flags (A_name st) (cmd_flags cfg) (fst (tokenize args))) version)
      eqn:Ev; [apply among_In in Ev; tauto |].
    reflexivity.
Qed.

(** Revision B: the same, for help and version flags that are off by
    default. *)
Lemma B_flags_accepted_iff (cfg : Config) (args : list string) (st : B.state) :
  B_flags_accepted cfg args st <->
  ~ misconfigured cfg /\
  unknown_flag (B_name st) (cmd_flags cfg) (fst (tokenize args)) = None /\
  ~ In help (matched_flags (B_name st) (cmd_flags cfg) (fst (tokenize args))) /\
  ~ In version (matched_flags (B_name st) (cmd_flags cfg) (fst (tokenize args))) /\
  B_default st help = false /\ B_default st version = false.
Proof.
  destruct (BFacts.B_reset_facts cfg st) as (Rn & _ & Ro & _). cbv zeta in Rn, Ro.
  assert (Hnames : forall f, B_name (B_reset cfg st) f = B_name st f)
    by (intros f; unfold B_name; apply Rn).
  destruct (BFacts.B_switched_facts cfg (fst (tokenize args)) (B_reset cfg st))
    as (_ & _ & So & _). cbv zeta in So.
  rewrite (matched_flags_ext _ _ _ _ Hnames) in So.
  assert (Hreg : ~ misconfigured cfg ->
                 among (cmd_flags cfg) help = true /\ among (cmd_flags cfg) version = true).
  { intros Hok. split.
    - destruct (among (cmd_flags cfg) help) eqn:E; [reflexivity | exfalso].
      apply Hok. right; right; left. intros Hin. apply among_In in Hin. congruence.
    - destruct (among (cmd_flags cfg) version) eqn:E; [reflexivity | exfalso].
      apply Hok. right; right; right; left.
      intros Hin. apply among_In in Hin. congruence. }
  unfold B_flags_accepted, B_default. split.
  - intros [Hc Hf].
    assert (Hok : ~ misconfigured cfg).
    { intros Hbad.
      destruct (BFacts.B_check_completion cfg st) as [[_ [what Hw]] | [Hok _]];
        [congruence | tauto]. }
    destruct (Hreg Hok) as [Rh Rv].
    apply BFacts.B_parseFlags_true in Hf. destruct Hf as (_ & Hun & Hh & Hv).
    rewrite (unknown_flag_ext _ _ _ _ Hnames) in Hun.
    rewrite So, Ro, Rh in Hh. rewrite So, Ro, Rv in Hv.
    destruct (among (matched_flags (B_name st) (cmd_flags cfg) (fst (tokenize args))) help)
      eqn:Eh; [discriminate |].
    destruct (among (matched_flags (B_name st) (cmd_flags cfg) (fst (tokenize args))) version)
      eqn:Ev; [discriminate |].
    repeat split; try assumption.
    + intros Hin. apply among_In in Hin. congruence.
    + intros Hin. apply among_In in Hin. congruence.
  - intros (Hok & Hun & Hh & Hv & Dh & Dv).
    destruct (BFacts.B_check_completion cfg st) as [[Hbad _] | [_ Hr]]; [tauto |].
    split; [exact Hr |].
    destruct (Hreg Hok) as [Rh Rv].
    rewrite BFacts.B_parseFlags_run. cbv zeta.
    rewrite (unknown_flag_ext _ _ _ _ Hnames), Hun, !So, !Ro, Rh, Rv, Dh, Dv.
    destruct (among (matched_flags (B_name st) (cmd_flags cfg) (fst (tokenize args))) help)
      eqn:Eh; [apply among_In in Eh; tauto |].
    destruct (among (matched_flags (B_name st) (cmd_flags cfg) (fst (tokenize args))) version)
      eqn:Ev; [apply among_In in Ev; tauto |].
    reflexivity.
Qed.

(** ** Helpers for the file stage *)




(** The default target of a valid source keeps the stem and carries the
    default target extension, when that extension is a plain one and the
    source list has no empty entry. *)
Lemma default_target_stem_extension (cfg : Config) (rs : path) :
  In (getExtension rs) (source_ext cfg) ->
  plain_extension (defaultTargetExt cfg) -> ~ In "" (source_ext cfg) ->
  let T := Path.replace_extension rs (defaultTargetExt cfg) in
  Path.stem T = Path.stem rs /\
  Path.extension T = String Path.dot (defaultTargetExt cfg) /\
  getExtension T = tolower (defaultTargetExt cfg).
Proof.
  intros Hin (Hne & Hdot & Hsep) Hempty. cbv zeta.
  assert (Hstem : Path.stem rs <> "").
  { apply PathFacts.extension_stem_nonempty, getExtension_nonempty.
    intros E. rewrite E in Hin. tauto. }
  destruct (@PathFacts.replace_extension_stem_extension rs (defaultTargetExt cfg)
              Hstem Hne Hdot Hsep) as [H1 H2].
  repeat split; [exact H1 | exact H2 | now apply getExtension_dotted].
Qed.

(** ** Paths of revision B *)

(** The anchored target has the extension of the token. *)
Lemma B_anchored_target_has_extension (rs t : path) :
  Path.has_extension (B_anchored_target rs t) = Path.has_extension t.
Proof.
  unfold B_anchored_target, Path.has_extension.
  destruct (Path.empty (Path.parent_path t)) eqn:E; [| reflexivity].
  apply PathFacts.empty_true, PathFacts.parent_path_empty in E.
  rewrite (@PathFacts.extension_filename (Path.parent_path rs </> t) t); [reflexivity |].
  rewrite (@PathFacts.filename_append_name (Path.parent_path rs) t E).
  symmetry. now apply PathFacts.filename_of_name.
Qed.

(** With a working directory that is not the empty path, the resolved
    source has a parent path. *)
Lemma B_resolved_source_parent (fs : FileSystem) (s : string) :
  current_path fs <> "" -> Path.parent_path (B_resolved_source fs s) <> "".
Proof.
  intros Hcwd. unfold B_resolved_source.
  destruct (Path.empty (Path.parent_path s)) eqn:E.
  - apply PathFacts.empty_true, PathFacts.parent_path_empty in E.
    now apply PathFacts.parent_path_append_name.
  - now apply PathFacts.empty_false.
Qed.

(** So has the anchored target. *)
Lemma B_anchored_target_parent (fs : FileSystem) (s t : string) :
  current_path fs <> "" ->
  Path.parent_path (B_anchored_target (B_resolved_source fs s) t) <> "".
Proof.
  intros Hcwd. unfold B_anchored_target.
  destruct (Path.empty (Path.parent_path t)) eqn:E.
  - apply PathFacts.empty_true, PathFacts.parent_path_empty in E.
    apply PathFacts.parent_path_append_name; [| exact E].
    now apply B_resolved_source_parent.
  - now apply PathFacts.empty_false.
Qed.

(** ** C3: directory mode *)

(** What C3 states, in revision B, for [CmdArgumentParser::parse] on any
    parser object and so for [cmd::parse]: for every call that gets past
    the flags and whose first positional token is an existing directory,
    when it is the only positional token the call succeeds, publishes the
    token as the source and leaves the published target empty, writes no
    error and looks at no extension (no condition on the token's extension
    is needed); when any further positional token is present the call
    returns failure with "Error: argument: Too many arguments". *)
Lemma B_directory_mode_clears_the_target (cfg : Config) (fs : FileSystem)
    (args : list string) (d : string) (rest : list string) (st : B.state) :
  snd (tokenize args) = d :: rest -> is_directory fs d = true ->
  (B_flags_accepted cfg args st ->
   let (c, st') := B.CmdArgumentParser.parse cfg fs args st in
   match rest with
   | [] => c = Returned true /\ B.source st' = d /\ B.target st' = "" /\
           B.cerr st' = B.cerr st
   | _ => c = Returned false /\ B.source st' = "" /\ B.target st' = "" /\
          B.cerr st' = B.cerr st ++ "Error: " ++ "argument: Too many arguments" ++ nl
   end) /\
  (B_flags_accepted cfg args (B_fresh st) ->
   let (c, st') := B.parse cfg fs args st in
   match rest with
   | [] => c = Returned true /\ B.source st' = d /\ B.target st' = "" /\
           B.cerr st' = B.cerr st
   | _ => c = Returned false /\ B.source st' = "" /\ B.target st' = "" /\
          B.cerr st' = B.cerr st ++ "Error: " ++ "argument: Too many arguments" ++ nl
   end).
Proof.
  intros Hfiles Hd. split; intros Hacc.
  - exact (@BProps.B_directory_mode cfg fs args d rest st Hfiles Hd Hacc).
  - exact (@BProps.B_directory_mode cfg fs args d rest (B_fresh st) Hfiles Hd Hacc).
Qed.

(** Revision A publishes, in directory mode, the member [_target] of the
    parser object: the target is empty for [cmd::parse], which constructs
    its parser, and it is whatever the object holds for a call of
    [CmdArgumentParser::parse]. *)
Lemma A_directory_mode_publishes_the_member (cfg : Config) (fs : FileSystem)
    (args : list string) (d : string) (rest : list string) (st : A.state) :
  snd (tokenize args) = d :: rest -> is_directory fs d = true ->
  (A_flags_accepted cfg args st ->
   let (c, st') := A.CmdArgumentParser.parse cfg fs args st in
   match rest with
   | [] => c = Returned true /\ A.source st' = d /\ A.target st' = A._target st /\
           A.cerr st' = A.cerr st
   | _ => c = Returned false /\ A.source st' = "" /\ A.target st' = "" /\
          A.cerr st' = A.cerr st ++ "Error: " ++ "argument: Too many arguments" ++ nl
   end) /\
  (A_flags_accepted cfg args (A_fresh st) ->
   let (c, st') := A.parse cfg fs args st in
   match rest with
   | [] => c = Returned true /\ A.source st' = d /\ A.target st' = "" /\
           A.cerr st' = A.cerr st
   | _ => c = Returned false /\ A.source st' = "" /\ A.target st' = "" /\
          A.cerr st' = A.cerr st ++ "Error: " ++ "argument: Too many arguments" ++ nl
   end).
Proof.
  intros Hfiles Hd. split; intros Hacc.
  - exact (@AProps.A_directory_mode cfg fs args d rest st Hfiles Hd Hacc).
  - exact (@AProps.A_directory_mode cfg fs args d rest (A_fresh st) Hfiles Hd Hacc).
Qed.

(** C3 holds in revision B ([B_directory_mode_clears_the_target]) and
    fails in [src/CmdArgs.h] for a parser object that is used twice
    ([A_directory_mode_publishes_the_member]).  One [CmdArgumentParser]
    object, [parse] called with [/home/u/source.txt] and then with the
    directory [/out]: both calls succeed; after the second, revision A
    has published the target of the first call, [/home/u/source.csv],
    revision B an empty target.  With [cmd::parse], which constructs a
    parser for every call, revision A leaves the target empty too. *)
Theorem C3_directory_target_in_CmdArgs_h :
  is_directory demo_fs "/out" = true /\
  (let first := A.CmdArgumentParser.parse demo demo_fs ["/home/u/source.txt"] A.initial in
   let second := A.CmdArgumentParser.parse demo demo_fs ["/out"] (snd first) in
   fst first = Returned true /\ A.target (snd first) = "/home/u/source.csv" /\
   fst second = Returned true /\ A.source (snd second) = "/out" /\
   A.target (snd second) = "/home/u/source.csv") /\
  (let first := B.CmdArgumentParser.parse demo demo_fs ["/home/u/source.txt"] B.initial in
   let second := B.CmdArgumentParser.parse demo demo_fs ["/out"] (snd first) in
   fst first = Returned true /\ B.target (snd first) = "/home/u/source.csv" /\
   fst second = Returned true /\ B.source (snd second) = "/out" /\
   B.target (snd second) = "") /\
  (let first := A.parse demo demo_fs ["/home/u/source.txt"] A.initial in
   let second := A.parse demo demo_fs ["/out"] (snd first) in
   fst first = Returned true /\ A.target (snd first) = "/home/u/source.csv" /\
   fst second = Returned true /\ A.source (snd second) = "/out" /\
   A.target (snd second) = "").
Proof. vm_compute. repeat split. Qed.

(** ** C4: the source file *)

(** What C4 states, in revision B: a first positional token that is not a
    directory is anchored to the working directory when it has no
    directory component; when the anchored path does not exist the call
    fails with "Could not find the source file"; when it exists but its
    lowercased extension is not in the source list the call fails with
    "Source file is not a valid extension:" and the resolved path; a
    successful call publishes the resolved path as the source. *)
Lemma B_source_anchored_and_checked (cfg : Config) (fs : FileSystem) (args : list string)
    (s : string) (more : list string) (st : B.state) :
  B_flags_accepted cfg args (B_fresh st) ->
  snd (tokenize args) = s :: more -> length more <= 1 ->
  is_directory fs s = false ->
  let rs := B_resolved_source fs s in
  let (c, st') := B.parse cfg fs args st in
  (Path.parent_path s = "" -> rs = current_path fs </> s) /\
  (Path.parent_path s <> "" -> rs = s) /\
  B._source st' = rs /\
  (exists_ fs rs = false ->
     c = Returned false /\ B.source st' = "" /\ B.target st' = "" /\
     B.cerr st' = B.cerr st ++ "Error: " ++ ("Could not find the source file " ++ s) ++ nl) /\
  (exists_ fs rs = true -> ~ In (getExtension rs) (source_ext cfg) ->
     c = Returned false /\ B.source st' = "" /\ B.target st' = "" /\
     B.cerr st' = B.cerr st ++ "Error: "
                    ++ ("Source file is not a valid extension: " ++ rs) ++ nl) /\
  (c = Returned true ->
     exists_ fs rs = true /\ In (getExtension rs) (source_ext cfg) /\ B.source st' = rs).
Proof.
  intros Hacc Hfiles Hlen Hd. cbv zeta.
  pose proof (@BProps.B_source_checks cfg fs args s more (B_fresh st) Hacc Hfiles Hlen Hd) as H.
  cbv zeta in H.
  change (B.CmdArgumentParser.parse cfg fs args (B_fresh st))
    with (B.parse cfg fs args st) in H.
  destruct (B.parse cfg fs args st) as [c st'].
  split; [| split; [| exact H]].
  - intros E. unfold B_resolved_source. now rewrite E.
  - intros E. unfold B_resolved_source. apply PathFacts.empty_false in E. now rewrite E.
Qed.

(** Revision A takes the first positional token as written: nothing is
    anchored, the existence and extension checks look at the token, the
    error message names it and a successful call publishes it. *)
Lemma A_source_used_as_written (cfg : Config) (fs : FileSystem) (args : list string)
    (s : string) (more : list string) (st : A.state) :
  A_flags_accepted cfg args (A_fresh st) ->
  snd (tokenize args) = s :: more -> length more <= 1 ->
  is_directory fs s = false ->
  let (c, st') := A.parse cfg fs args st in
  A._source st' = s /\
  (exists_ fs s = false ->
     c = Returned false /\ A.source st' = "" /\ A.target st' = "" /\
     A.cerr st' = A.cerr st ++ "Error: " ++ ("Could not find the source file " ++ s) ++ nl) /\
  (exists_ fs s = true -> ~ In (getExtension s) (source_ext cfg) ->
     c = Returned false /\ A.source st' = "" /\ A.target st' = "" /\
     A.cerr st' = A.cerr st ++ "Error: "
                    ++ ("Source file is not a valid extension: " ++ s) ++ nl) /\
  (c = Returned true ->
     exists_ fs s = true /\ In (getExtension s) (source_ext cfg) /\ A.source st' = s).
Proof.
  intros Hacc Hfiles Hlen Hd.
  exact (@AProps.A_source_checks cfg fs args s more (A_fresh st) Hacc Hfiles Hlen Hd).
Qed.

(** C4 holds in revision B ([B_source_anchored_and_checked]) and fails in
    [src/CmdArgs.h], which never anchors the source
    ([A_source_used_as_written]).  With the working directory [/home/u]
    and the bare token [source.jpg] (an existing file): revision A names
    [source.jpg] in the error message, revision B the resolved path
    [/home/u/source.jpg]; for [source.txt] revision A publishes
    [source.txt] and [source.csv], revision B [/home/u/source.txt] and
    [/home/u/source.csv]; and for [source.txt target.csv] revision A
    fails, because the target's parent is then the empty path. *)
Theorem C4_source_is_not_anchored_in_CmdArgs_h :
  Path.parent_path "source.jpg" = "" /\ current_path demo_fs = "/home/u" /\
  (let (c, st') := A.parse demo demo_fs ["source.jpg"] A.initial in
   c = Returned false /\ A._source st' = "source.jpg" /\
   A.cerr st' = "Error: Source file is not a valid extension: source.jpg" ++ nl) /\
  (let (c, st') := B.parse demo demo_fs ["source.jpg"] B.initial in
   c = Returned false /\ B._source st' = "/home/u/source.jpg" /\
   B.cerr st' = "Error: Source file is not a valid extension: /home/u/source.jpg" ++ nl) /\
  (let (c, st') := A.parse demo demo_fs ["source.txt"] A.initial in
   c = Returned true /\ A.source st' = "source.txt" /\ A.target st' = "source.csv") /\
  (let (c, st') := B.parse demo demo_fs ["source.txt"] B.initial in
   c = Returned true /\ B.source st' = "/home/u/source.txt" /\
   B.target st' = "/home/u/source.csv") /\
  (let (c, st') := A.parse demo demo_fs ["source.txt"; "target.csv"] A.initial in
   c = Returned false /\
   A.cerr st' = "Error: Target file has unknown directory target.csv" ++ nl) /\
  (let (c, st') := B.parse demo demo_fs ["source.txt"; "target.csv"] B.initial in
   c = Returned true /\ B.source st' = "/home/u/source.txt" /\
   B.target st' = "/home/u/target.csv").
Proof. vm_compute. repeat split. Qed.

(** ** C5: the default target *)




(** ** C6: an explicit target in a missing directory *)

(** What C6 states, in revision B: an explicit target whose resolved
    parent is no directory makes the call fail, with "Target file has
    unknown directory" when the token has an extension and "Target
    directory does not exist" when it has none. *)
Lemma B_missing_target_parent_messages (cfg : Config) (fs : FileSystem)
    (args : list string) (s t : string) (st : B.state) :
  B_flags_accepted cfg args (B_fresh st) ->
  snd (tokenize args) = [s; t] ->
  is_directory fs s = false ->
  let rs := B_resolved_source fs s in
  exists_ fs rs = true -> In (getExtension rs) (source_ext cfg) ->
  current_path fs <> "" ->
  let rt := B_anchored_target rs t in
  is_directory fs (Path.parent_path rt) = false ->
  let (c, st') := B.parse cfg fs args st in
  c = Returned false /\ B.source st' = "" /\ B.target st' = "" /\
  B.cerr st' = B.cerr st ++ "Error: " ++
                 ((if Path.has_extension t then "Target file has unknown directory "
                   else "Target directory does not exist ") ++ rt) ++ nl.
Proof.
  intros Hacc Hfiles Hd. cbv zeta. intros He Hx Hcwd Hp.
  pose proof (@BProps.B_target_parent_checks cfg fs args s t (B_fresh st) Hacc Hfiles Hd
                He Hx (@B_anchored_target_parent fs s t Hcwd) Hp) as H.
  change (B.CmdArgumentParser.parse cfg fs args (B_fresh st))
    with (B.parse cfg fs args st) in H.
  destruct (B.parse cfg fs args st) as [c st'].
  rewrite B_anchored_target_has_extension in H.
  destruct H as (H1 & H2 & H3 & _ & H5). now repeat split.
Qed.

(** Revision A has one message for an explicit target whose parent is no
    directory, whether the token has an extension or not. *)
Lemma A_single_message_for_missing_target_parent (cfg : Config) (fs : FileSystem)
    (args : list string) (s t : string) (st : A.state) :
  A_flags_accepted cfg args (A_fresh st) ->
  snd (tokenize args) = [s; t] ->
  is_directory fs s = false ->
  exists_ fs s = true -> In (getExtension s) (source_ext cfg) ->
  let rt := if Path.empty (Path.parent_path t)
            then Path.parent_path s </> Path.filename t else t in
  is_directory fs (Path.parent_path rt) = false ->
  let (c, st') := A.parse cfg fs args st in
  c = Returned false /\ A.source st' = "" /\ A.target st' = "" /\
  A.cerr st' = A.cerr st ++ "Error: " ++ ("Target file has unknown directory " ++ rt) ++ nl.
Proof.
  intros Hacc Hfiles Hd He Hx. cbv zeta. intros Hp.
  pose proof (@AProps.A_target_parent_checks cfg fs args s t (A_fresh st)
                Hacc Hfiles Hd He Hx Hp) as H.
  change (A.CmdArgumentParser.parse cfg fs args (A_fresh st))
    with (A.parse cfg fs args st) in H.
  destruct (A.parse cfg fs args st) as [c st'].
  destruct H as (H1 & H2 & H3 & _ & H5). now repeat split.
Qed.

(** C6 holds in revision B ([B_missing_target_parent_messages]) and fails
    in [src/CmdArgs.h], which has a single message
    ([A_single_message_for_missing_target_parent]).  The token
    [/nodir/out] has no extension and its parent [/nodir] is no directory:
    revision A reports "Target file has unknown directory", revision B
    "Target directory does not exist". *)
Theorem C6_single_message_in_CmdArgs_h :
  Path.has_extension "/nodir/out" = false /\
  is_directory demo_fs (Path.parent_path "/nodir/out") = false /\
  (let (c, st') := A.parse demo demo_fs ["/home/u/source.txt"; "/nodir/out"] A.initial in
   c = Returned false /\
   A.cerr st' = "Error: Target file has unknown directory /nodir/out" ++ nl) /\
  (let (c, st') := B.parse demo demo_fs ["/home/u/source.txt"; "/nodir/out"] B.initial in
   c = Returned false /\
   B.cerr st' = "Error: Target directory does not exist /nodir/out" ++ nl) /\
  (let (c, st') := B.parse demo demo_fs ["/home/u/source.txt"; "/nodir/out.csv"] B.initial in
   c = Returned false /\
   B.cerr st' = "Error: Target file has unknown directory /nodir/out.csv" ++ nl).
Proof. vm_compute. repeat split. Qed.

(** ** C7: a target directory *)

(** What C7 states, in revision B: an explicit target without extension
    that resolves to an existing directory (whose parent is a directory)
    makes the parser's target that directory joined with the source's
    filename, the extension replaced by the default target extension; a
    successful call publishes it. *)
Lemma B_target_directory_composed (cfg : Config) (fs : FileSystem) (args : list string)
    (s t : string) (st : B.state) :
  B_flags_accepted cfg args (B_fresh st) ->
  snd (tokenize args) = [s; t] ->
  is_directory fs s = false ->
  let rs := B_resolved_source fs s in
  exists_ fs rs = true -> In (getExtension rs) (source_ext cfg) ->
  let rt := B_anchored_target rs t in
  Path.has_extension t = false -> is_directory fs rt = true ->
  Path.parent_path rt = "" \/ is_directory fs (Path.parent_path rt) = true ->
  let T := Path.replace_extension (rt </> Path.filename rs) (defaultTargetExt cfg) in
  let (c, st') := B.parse cfg fs args st in
  B._target st' = T /\
  (c = Returned true -> B.source st' = rs /\ B.target st' = T) /\
  (tolower rs <> tolower T -> In (getExtension T) (target_ext cfg) -> c = Returned true).
Proof.
  intros Hacc Hfiles Hd. cbv zeta. intros He Hx Hext Hdir Hparent.
  assert (Hres : B_resolved_paths cfg fs (snd (tokenize args))
                 = Some (B_resolved_source fs s,
                         Path.replace_extension
                           (B_anchored_target (B_resolved_source fs s) t
                              </> Path.filename (B_resolved_source fs s))
                           (defaultTargetExt cfg))).
  { rewrite Hfiles. cbn [B_resolved_paths]. cbv zeta. rewrite Hd, He.
    apply contains_In in Hx. rewrite Hx. cbn [negb andb].
    rewrite B_anchored_target_has_extension, Hext, Hdir.
    destruct Hparent as [E|E]; rewrite E; [reflexivity |].
    now rewrite andb_false_r. }
  pose proof (@BProps.B_files_resolved cfg fs args _ _ (B_fresh st) Hacc Hres) as H.
  change (B.CmdArgumentParser.parse cfg fs args (B_fresh st))
    with (B.parse cfg fs args st) in H.
  destruct (B.parse cfg fs args st) as [c st'].
  destruct H as (_ & Ht & Hsame & Hbadext & Hdiff).
  split; [exact Ht | split].
  - intros Hc.
    match goal with
    | |- _ = ?rs /\ _ = ?T =>
        destruct (String.eqb_spec (tolower rs) (tolower T)) as [E|E];
        [ destruct (Hsame E) as [Hf _]; congruence
        | destruct (in_dec string_dec (getExtension T) (target_ext cfg)) as [I|I];
          [ destruct (Hdiff E I) as (_ & H1 & H2 & _); now split
          | destruct (Hbadext E I) as [Hf _]; congruence ] ]
    end.
  - intros E I. now destruct (Hdiff E I).
Qed.

(** Revision A publishes an explicit target as written (next to the
    source when it has no directory component), also when it names a
    directory. *)
Lemma A_target_used_as_written (cfg : Config) (fs : FileSystem) (args : list string)
    (s t : string) (st : A.state) :
  A_flags_accepted cfg args (A_fresh st) ->
  snd (tokenize args) = [s; t] ->
  is_directory fs s = false ->
  exists_ fs s = true -> In (getExtension s) (source_ext cfg) ->
  let rt := if Path.empty (Path.parent_path t)
            then Path.parent_path s </> Path.filename t else t in
  is_directory fs (Path.parent_path rt) = true ->
  tolower s <> tolower rt ->
  let (c, st') := A.parse cfg fs args st in
  c = Returned true /\ A.source st' = s /\ A.target st' = rt.
Proof.
  intros Hacc Hfiles Hd He Hx. cbv zeta. intros Hp Hne.
  assert (Hres : A_resolved_paths cfg fs (snd (tokenize args))
                 = Some (s, if Path.empty (Path.parent_path t)
                            then Path.parent_path s </> Path.filename t else t)).
  { rewrite Hfiles. cbn [A_resolved_paths]. rewrite Hd, He.
    apply contains_In in Hx. rewrite Hx. cbn [negb andb]. cbv zeta. now rewrite Hp. }
  pose proof (@AProps.A_files_resolved cfg fs args _ _ (A_fresh st) Hacc Hres) as H.
  change (A.CmdArgumentParser.parse cfg fs args (A_fresh st))
    with (A.parse cfg fs args st) in H.
  destruct (A.parse cfg fs args st) as [c st'].
  destruct H as (_ & _ & _ & Hdiff).
  destruct (Hdiff Hne) as (H1 & H2 & H3 & _). now repeat split.
Qed.

(** C7 holds in revision B ([B_target_directory_composed]) and fails in
    [src/CmdArgs.h], which has no target-directory handling
    ([A_target_used_as_written]).  The token [/out] has no extension and
    is an existing directory: revision A publishes the directory itself as
    the target, revision B [/out/source.csv]. *)
Theorem C7_target_directory_in_CmdArgs_h :
  Path.has_extension "/out" = false /\ is_directory demo_fs "/out" = true /\
  (let (c, st') := A.parse demo demo_fs ["/home/u/source.txt"; "/out"] A.initial in
   c = Returned true /\ A.source st' = "/home/u/source.txt" /\ A.target st' = "/out") /\
  (let (c, st') := B.parse demo demo_fs ["/home/u/source.txt"; "/out"] B.initial in
   c = Returned true /\ B.source st' = "/home/u/source.txt" /\
   B.target st' = "/out/source.csv").
Proof. vm_compute. repeat split. Qed.

(** ** C8: the identity check *)

(** C8. In both revisions, for every call of parse that gets past the
    flags and resolves both a source and a target path (so outside
    directory mode): if the two path strings are equal once lowercased,
    the call returns failure with "Error: Source and target files are the
    same" and publishes nothing. *)
Theorem C8_identity_check (cfg : Config) (fs : FileSystem) (args : list string)
    (rs rt : path) :
  tolower rs = tolower rt ->
  (forall st : A.state,
     A_flags_accepted cfg args (A_fresh st) ->
     A_resolved_paths cfg fs (snd (tokenize args)) = Some (rs, rt) ->
     let (c, st') := A.parse cfg fs args st in
     c = Returned false /\ A.source st' = "" /\ A.target st' = "" /\
     A.cerr st' = A.cerr st ++ "Error: " ++ "Source and target files are the same" ++ nl) /\
  (forall st : B.state,
     B_flags_accepted cfg args (B_fresh st) ->
     B_resolved_paths cfg fs (snd (tokenize args)) = Some (rs, rt) ->
     let (c, st') := B.parse cfg fs args st in
     c = Returned false /\ B.source st' = "" /\ B.target st' = "" /\
     B.cerr st' = B.cerr st ++ "Error: " ++ "Source and target files are the same" ++ nl).
Proof.
  intros Hsame. split; intros st Hacc Hres.
  - pose proof (@AProps.A_files_resolved cfg fs args rs rt (A_fresh st) Hacc Hres) as H.
    change (A.CmdArgumentParser.parse cfg fs args (A_fresh st))
      with (A.parse cfg fs args st) in H.
    destruct (A.parse cfg fs args st) as [c st'].
    destruct H as (_ & _ & H & _). exact (H Hsame).
  - pose proof (@BProps.B_files_resolved cfg fs args rs rt (B_fresh st) Hacc Hres) as H.
    change (B.CmdArgumentParser.parse cfg fs args (B_fresh st))
      with (B.parse cfg fs args st) in H.
    destruct (B.parse cfg fs args st) as [c st'].
    destruct H as (_ & _ & H & _). exact (H Hsame).
Qed.

(** [SOURCE.TXT] against [source.txt], in both revisions; and a source
    whose own extension is the default target extension. *)
Lemma C8_identity_check_witness :
  (let (c, st') := A.parse demo demo_fs ["/home/u/SOURCE.TXT"; "/home/u/source.txt"]
                     A.initial in
   c = Returned false /\ A.source st' = "" /\ A.target st' = "" /\
   A.cerr st' = A.cerr A.initial ++
                "Error: " ++ "Source and target files are the same" ++ nl) /\
  (let (c, st') := B.parse demo demo_fs ["SOURCE.TXT"; "source.txt"] B.initial in
   c = Returned false /\ B.source st' = "" /\ B.target st' = "" /\
   B.cerr st' = B.cerr B.initial ++
                "Error: " ++ "Source and target files are the same" ++ nl) /\
  (let (c, st') := B.parse demo demo_fs ["data.csv"] B.initial in
   c = Returned false /\ B.source st' = "" /\ B.target st' = "" /\
   B.cerr st' = B.cerr B.initial ++
                "Error: " ++ "Source and target files are the same" ++ nl).
Proof.
  assert (HA : A_flags_accepted demo ["/home/u/SOURCE.TXT"; "/home/u/source.txt"]
                 (A_fresh A.initial)) by (split; vm_compute; reflexivity).
  assert (HB : B_flags_accepted demo ["SOURCE.TXT"; "source.txt"] (B_fresh B.initial))
    by (split; vm_compute; reflexivity).
  assert (HB' : B_flags_accepted demo ["data.csv"] (B_fresh B.initial))
    by (split; vm_compute; reflexivity).
  assert (RA : A_resolved_paths demo demo_fs
                 (snd (tokenize ["/home/u/SOURCE.TXT"; "/home/u/source.txt"]))
               = Some ("/home/u/SOURCE.TXT", "/home/u/source.txt"))
    by (vm_compute; reflexivity).
  assert (RB : B_resolved_paths demo demo_fs (snd (tokenize ["SOURCE.TXT"; "source.txt"]))
               = Some ("/home/u/SOURCE.TXT", "/home/u/source.txt"))
    by (vm_compute; reflexivity).
  assert (RB' : B_resolved_paths demo demo_fs (snd (tokenize ["data.csv"]))
                = Some ("/home/u/data.csv", "/home/u/data.csv"))
    by (vm_compute; reflexivity).
  assert (E : tolower "/home/u/SOURCE.TXT" = tolower "/home/u/source.txt")
    by (vm_compute; reflexivity).
  split; [| split].
  - exact (proj1 (@C8_identity_check demo demo_fs
                    ["/home/u/SOURCE.TXT"; "/home/u/source.txt"] _ _ E) A.initial HA RA).
  - exact (proj2 (@C8_identity_check demo demo_fs ["SOURCE.TXT"; "source.txt"] _ _ E)
             B.initial HB RB).
  - exact (proj2 (@C8_identity_check demo demo_fs ["data.csv"] _ _ eq_refl)
             B.initial HB' RB').
Defined.

(** ** C9: the configuration check *)

(** C9. In both revisions a call of parse begins with the configuration
    check, and the check throws a [std::runtime_error] -- it neither
    returns nor exits -- exactly when the configuration is misconfigured:
    an extension list is empty, the registry lacks the help flag or the
    version flag, or it has fewer than 3 entries; revision A, which
    enforces it, also throws when the two extension lists are identical.
    On every other configuration the check returns.  What the check
    throws is one of its configuration messages and is the outcome of the
    call, never a failure return: nothing catches it, the call does the
    same whatever the arguments and the filesystem are, since neither is
    looked at, and it writes nothing.  (This is a statement about the
    check; an error the filesystem library raises later in a call is not
    modelled.) *)
Theorem C9_configuration_check (cfg : Config) (fs : FileSystem) (args : list string) :
  (forall st : A.state,
     ((exists what, fst (A.CmdArgumentParser.check cfg (A_fresh st)) = Thrown what) <->
      misconfigured cfg \/ identical_extension_lists cfg) /\
     (~ (misconfigured cfg \/ identical_extension_lists cfg) ->
      fst (A.CmdArgumentParser.check cfg (A_fresh st)) = Returned tt) /\
     (forall what,
        fst (A.CmdArgumentParser.check cfg (A_fresh st)) = Thrown what ->
        In what ["Error: source_ext or target_ext is not defined.";
                 "Error: source_ext and target_ext cannot be the same.";
                 "Error: cmd_flags must contain 'help' flag.";
                 "Error: cmd_flags must contain 'version' flag.";
                 "Error: cmd_flags is not defined."] /\
        fst (A.parse cfg fs args st) = Thrown what /\
        A.parse cfg fs args st = A.parse cfg fs [] st /\
        A.cout (snd (A.parse cfg fs args st)) = A.cout st /\
        A.cerr (snd (A.parse cfg fs args st)) = A.cerr st)) /\
  (forall st : B.state,
     ((exists what, fst (B.CmdArgumentParser.check cfg (B_fresh st)) = Thrown what) <->
      misconfigured cfg) /\
     (~ misconfigured cfg ->
      fst (B.CmdArgumentParser.check cfg (B_fresh st)) = Returned tt) /\
     (forall what,
        fst (B.CmdArgumentParser.check cfg (B_fresh st)) = Thrown what ->
        In what ["Error: source_ext or target_ext is not defined.";
                 "Error: cmd_flags must contain 'help' flag.";
                 "Error: cmd_flags must contain 'version' flag.";
                 "Error: cmd_flags is not defined."] /\
        fst (B.parse cfg fs args st) = Thrown what /\
        B.parse cfg fs args st = B.parse cfg fs [] st /\
        B.cout (snd (B.parse cfg fs args st)) = B.cout st /\
        B.cerr (snd (B.parse cfg fs args st)) = B.cerr st)).
Proof.
  split; intros st.
  - destruct (AFacts.A_check_completion cfg (A_fresh st)) as [[Hbad [w Hw]] | [Hok Hr]].
    + split; [split; [intros _; exact Hbad | intros _; now exists w] |].
      split; [tauto |].
      intros what Hwhat.
      split; [exact (AProps.A_check_messages cfg (A_fresh st) Hwhat) |].
      destruct (@AProps.A_check_throw_escapes cfg fs args (A_fresh st) what Hwhat)
        as (Hp & _).
      destruct (@AProps.A_throws_before_arguments cfg fs args (A_fresh st) Hbad)
        as (H1 & H2 & H3).
      change (A.CmdArgumentParser.parse cfg fs args (A_fresh st))
        with (A.parse cfg fs args st) in *.
      change (A.CmdArgumentParser.parse cfg fs [] (A_fresh st))
        with (A.parse cfg fs [] st) in *.
      repeat split; try assumption. now rewrite Hp.
    + split; [split; [intros [w Hw]; congruence | tauto] |].
      split; [intros _; exact Hr |].
      intros what Hwhat. congruence.
  - destruct (BFacts.B_check_completion cfg (B_fresh st)) as [[Hbad [w Hw]] | [Hok Hr]].
    + split; [split; [intros _; exact Hbad | intros _; now exists w] |].
      split; [tauto |].
      intros what Hwhat.
      split; [exact (BProps.B_check_messages cfg (B_fresh st) Hwhat) |].
      destruct (@BProps.B_check_throw_escapes cfg fs args (B_fresh st) what Hwhat)
        as (Hp & _).
      destruct (@BProps.B_throws_before_arguments cfg fs args (B_fresh st) Hbad)
        as (H1 & H2 & H3).
      change (B.CmdArgumentParser.parse cfg fs args (B_fresh st))
        with (B.parse cfg fs args st) in *.
      change (B.CmdArgumentParser.parse cfg fs [] (B_fresh st))
        with (B.parse cfg fs [] st) in *.
      repeat split; try assumption. now rewrite Hp.
    + split; [split; [intros [w Hw]; congruence | tauto] |].
      split; [intros _; exact Hr |].
      intros what Hwhat. congruence.
Qed.

(** A registry of two entries (revision B), and identical extension lists
    (revision A): the check throws, and its error is the outcome of the
    call. *)
Lemma C9_configuration_check_witness :
  fst (B.parse {| text_version := ""; source_ext := ["txt"]; target_ext := ["csv"];
                  cmd_flags := [help; version] |}
         demo_fs ["source.txt"] B.initial)
  = Thrown "Error: cmd_flags is not defined." /\
  fst (A.parse {| text_version := ""; source_ext := ["txt"]; target_ext := ["txt"];
                  cmd_flags := [convert; help; version] |}
         demo_fs ["source.txt"] A.initial)
  = Thrown "Error: source_ext and target_ext cannot be the same.".
Proof.
  split.
  - refine (proj1 (proj2 (proj2 (proj2 (proj2 (C9_configuration_check _ demo_fs ["source.txt"])
                                           B.initial)) _ _))).
    vm_compute; reflexivity.
  - refine (proj1 (proj2 (proj2 (proj2 (proj1 (C9_configuration_check _ demo_fs ["source.txt"])
                                           A.initial)) _ _))).
    vm_compute; reflexivity.
Defined.

(** ** C10: nothing is published on failure *)

(** C10. In both revisions, whenever a call of parse returns failure the
    published paths [cmd::source] and [cmd::target] are empty: [check]
    clears them and only the success paths of [parseFiles] assign them.
    This holds on any parser object, so for [cmd::parse] as well as for a
    direct call of [CmdArgumentParser::parse]. *)
Theorem C10_failure_leaves_paths_empty (cfg : Config) (fs : FileSystem)
    (args : list string) :
  (forall st : A.state,
     (fst (A.parse cfg fs args st) = Returned false ->
      A.source (snd (A.parse cfg fs args st)) = "" /\
      A.target (snd (A.parse cfg fs args st)) = "") /\
     (fst (A.CmdArgumentParser.parse cfg fs args st) = Returned false ->
      A.source (snd (A.CmdArgumentParser.parse cfg fs args st)) = "" /\
      A.target (snd (A.CmdArgumentParser.parse cfg fs args st)) = "")) /\
  (forall st : B.state,
     (fst (B.parse cfg fs args st) = Returned false ->
      B.source (snd (B.parse cfg fs args st)) = "" /\
      B.target (snd (B.parse cfg fs args st)) = "") /\
     (fst (B.CmdArgumentParser.parse cfg fs args st) = Returned false ->
      B.source (snd (B.CmdArgumentParser.parse cfg fs args st)) = "" /\
      B.target (snd (B.CmdArgumentParser.parse cfg fs args st)) = "")).
Proof.
  split; intros st; split.
  - exact (AProps.A_failure_paths_empty cfg fs args (A_fresh st)).
  - exact (AProps.A_failure_paths_empty cfg fs args st).
  - exact (BProps.B_failure_paths_empty cfg fs args (B_fresh st)).
  - exact (BProps.B_failure_paths_empty cfg fs args st).
Qed.

(** A successful call publishes both paths; a failing call right after it
    (the source does not exist) leaves them empty. *)
Lemma C10_failure_leaves_paths_empty_witness :
  B.source (snd (B.parse demo demo_fs ["source.txt"] B.initial)) = "/home/u/source.txt" /\
  B.source (snd (B.parse demo demo_fs ["missing.txt"]
                   (snd (B.parse demo demo_fs ["source.txt"] B.initial)))) = "" /\
  A.target (snd (A.parse demo demo_fs ["missing.txt"]
                   (snd (A.parse demo demo_fs ["source.txt"] A.initial)))) = "".
Proof.
  split; [vm_compute; reflexivity |].
  assert (EB : fst (B.parse demo demo_fs ["missing.txt"]
                      (snd (B.parse demo demo_fs ["source.txt"] B.initial))) = Returned false)
    by (vm_compute; reflexivity).
  assert (EA : fst (A.parse demo demo_fs ["missing.txt"]
                      (snd (A.parse demo demo_fs ["source.txt"] A.initial))) = Returned false)
    by (vm_compute; reflexivity).
  destruct (C10_failure_leaves_paths_empty demo demo_fs ["missing.txt"]) as [HA HB].
  split.
  - exact (proj1 (proj1 (HB (snd (B.parse demo demo_fs ["source.txt"] B.initial))) EB)).
  - exact (proj2 (proj1 (HA (snd (A.parse demo demo_fs ["source.txt"] A.initial))) EA)).
Defined.

(* ================================================================== *)
(** * Further properties of the code *)

(** ** Strings, paths, tokens and flag names *)

Lemma tolower_char_idempotent (c : ascii) : tolower_char (tolower_char c) = tolower_char c.
Proof. destruct c as [[] [] [] [] [] [] [] []]; reflexivity. Qed.

Lemma tolower_char_eqb_dot (c : ascii) :
  Ascii.eqb (tolower_char c) Path.dot = Ascii.eqb c Path.dot.
Proof. destruct c as [[] [] [] [] [] [] [] []]; reflexivity. Qed.

Lemma tolower_char_eqb_sep (c : ascii) :
  Ascii.eqb (tolower_char c) Path.sep = Ascii.eqb c Path.sep.
Proof. destruct c as [[] [] [] [] [] [] [] []]; reflexivity. Qed.

Lemma tolower_app (s t : string) : tolower (s ++ t) = tolower s ++ tolower t.
Proof. induction s as [|a s IH]; simpl; [reflexivity | now rewrite IH]. Qed.

Lemma tolower_idempotent (s : string) : tolower (tolower s) = tolower s.
Proof.
  induction s as [|a s IH]; simpl; [reflexivity |].
  now rewrite tolower_char_idempotent, IH.
Qed.

Lemma tolower_length (s : string) : String.length (tolower s) = String.length s.
Proof. induction s as [|a s IH]; simpl; [reflexivity | now rewrite IH]. Qed.

Lemma tolower_empty (s : string) : tolower s = "" <-> s = "".
Proof. destruct s; simpl; split; intros H; try reflexivity; discriminate. Qed.

Lemma occurs_tolower_dot (s : string) : occurs Path.dot (tolower s) = occurs Path.dot s.
Proof.
  induction s as [|a s IH]; simpl; [reflexivity |].
  now rewrite tolower_char_eqb_dot, IH.
Qed.

Lemma occurs_tolower_sep (s : string) : occurs Path.sep (tolower s) = occurs Path.sep s.
Proof.
  induction s as [|a s IH]; simpl; [reflexivity |].
  now rewrite tolower_char_eqb_sep, IH.
Qed.

(** [rfind] of a character that [tolower] neither produces nor changes
    commutes with [tolower]. *)
Lemma rsplit_tolower (c : ascii) (s : string) :
  (forall a, Ascii.eqb (tolower_char a) c = Ascii.eqb a c) ->
  rsplit c (tolower s) =
  match rsplit c s with
  | Some (b, t) => Some (tolower b, tolower t)
  | None => None
  end.
Proof.
  intros Hc. induction s as [|a s IH]; simpl; [reflexivity |].
  rewrite IH, Hc. destruct (rsplit c s) as [[b t]|]; [reflexivity |].
  now destruct (Ascii.eqb a c).
Qed.

Lemma filename_tolower (p : path) : Path.filename (tolower p) = tolower (Path.filename p).
Proof.
  unfold Path.filename. rewrite (rsplit_tolower Path.sep p tolower_char_eqb_sep).
  now destruct (rsplit Path.sep p) as [[b t]|].
Qed.

Lemma eqb_tolower_dots (f : string) :
  String.eqb (tolower f) "." || String.eqb (tolower f) ".." =
  String.eqb f "." || String.eqb f "..".
Proof.
  destruct f as [|a [|b [|c r]]]; simpl; try reflexivity.
  - fold Path.dot. now rewrite tolower_char_eqb_dot.
  - fold Path.dot. now rewrite !tolower_char_eqb_dot.
  - fold Path.dot. now rewrite !tolower_char_eqb_dot.
Qed.

Lemma split_extension_tolower (f : string) :
  Path.split_extension (tolower f) =
  (tolower (fst (Path.split_extension f)), tolower (snd (Path.split_extension f))).
Proof.
  unfold Path.split_extension. rewrite eqb_tolower_dots.
  destruct (String.eqb f "." || String.eqb f ".."); [reflexivity |].
  rewrite (rsplit_tolower Path.dot f tolower_char_eqb_dot).
  destruct (rsplit Path.dot f) as [[b t]|]; [| reflexivity].
  destruct b; [reflexivity |].
  cbn [fst snd tolower]. unfold Path.dot. now rewrite tolower_dot.
Qed.

Lemma extension_tolower (p : path) : Path.extension (tolower p) = tolower (Path.extension p).
Proof.
  unfold Path.extension. now rewrite filename_tolower, split_extension_tolower.
Qed.

(** The extension is empty or a dot followed by a string without dot or
    separator. *)
Lemma extension_shape (p : path) :
  Path.extension p = "" \/
  exists t, Path.extension p = String Path.dot t /\
            occurs Path.dot t = false /\ occurs Path.sep t = false.
Proof.
  unfold Path.extension.
  pose proof (PathFacts.filename_no_sep p) as Hsep. revert Hsep.
  generalize (Path.filename p). intros f Hsep.
  unfold Path.split_extension.
  destruct (String.eqb f "." || String.eqb f ".."); [now left |].
  destruct (rsplit Path.dot f) as [[b t]|] eqn:E; [| now left].
  destruct b as [|a b]; [now left |].
  right. exists t. apply rsplit_Some in E. destruct E as [-> Hdot].
  cbn [snd]. repeat split; [assumption |].
  rewrite occurs_app in Hsep. apply orb_false_elim in Hsep. destruct Hsep as [_ Hsep].
  exact Hsep.
Qed.

Lemma join_app (v w : list string) (delim : string) :
  v <> [] -> w <> [] ->
  join (v ++ w) delim = join v delim ++ delim ++ join w delim.
Proof.
  intros Hv Hw. induction v as [|x v IH]; [congruence |].
  destruct v as [|y v].
  - destruct w as [|z w]; [congruence | reflexivity].
  - change (join ((x :: y :: v) ++ w) delim)
      with (x ++ delim ++ join ((y :: v) ++ w) delim).
    rewrite IH by discriminate.
    change (join (x :: y :: v) delim) with (x ++ delim ++ join (y :: v) delim).
    now rewrite !append_assoc.
Qed.

Lemma tokenize_filter (args : list string) :
  tokenize args = (filter flag_token args, filter file_token args).
Proof.
  induction args as [|arg args IH]; [reflexivity |].
  cbn [tokenize filter]. rewrite IH.
  destruct arg as [|c r]; [reflexivity |].
  cbn [flag_token file_token]. now destruct (Ascii.eqb c "-").
Qed.

Lemma find_flag_None (name : flag_ptr -> string) (registry : list flag_ptr) (flag : string) :
  find_flag name registry flag = None <->
  forall f, In f registry -> flag <> "-" ++ name f /\ flag <> "--" ++ name f.
Proof.
  induction registry as [|g registry IH]; cbn [find_flag In append].
  - split; [intros _ f [] | reflexivity].
  - cbv zeta.
    destruct (String.eqb_spec flag (String "-" (name g))) as [E1|E1]; cbn [orb].
    { split; [discriminate |]. intros H. destruct (H g (or_introl eq_refl)) as [H1 _].
      now elim H1. }
    destruct (String.eqb_spec flag (String "-" (String "-" (name g)))) as [E2|E2].
    { split; [discriminate |]. intros H. destruct (H g (or_introl eq_refl)) as [_ H2].
      now elim H2. }
    rewrite IH. split.
    + intros H f [<- | Hf]; [split; assumption | now apply H].
    + intros H f Hf. apply H. now right.
Qed.

Lemma find_flag_registered (name : flag_ptr -> string) (registry : list flag_ptr)
    (f : flag_ptr) (flag : string) :
  In f registry -> flag = "-" ++ name f \/ flag = "--" ++ name f ->
  exists g, find_flag name registry flag = Some g.
Proof.
  intros Hf Hflag.
  destruct (find_flag name registry flag) as [g|] eqn:E; [now exists g |].
  exfalso. destruct (proj1 (@find_flag_None name registry flag) E f Hf). tauto.
Qed.

Lemma find_flag_plain (name : flag_ptr -> string) (registry : list flag_ptr)
    (f : flag_ptr) (flag : string) :
  plain_names name registry ->
  In f registry -> flag = "-" ++ name f \/ flag = "--" ++ name f ->
  find_flag name registry flag = Some f.
Proof.
  intros [Hnd Hplain] Hf Hflag.
  destruct (@find_flag_registered name registry f flag Hf Hflag) as [g Hg].
  rewrite Hg. f_equal.
  induction registry as [|h registry IH]; [destruct Hf |].
  cbn [find_flag append] in Hg. cbv zeta in Hg.
  cbn [map] in Hnd. inversion Hnd as [|? ? Hnotin Hnd']; subst.
  assert (Hhead : (flag = "-" ++ name h \/ flag = "--" ++ name h) -> name h = name f).
  { intros [E|E]; destruct Hflag as [E'|E']; rewrite E in E'; simpl in E'.
    - now injection E'.
    - injection E' as E'. pose proof (Hplain h (or_introl eq_refl)) as Hp.
      rewrite E' in Hp. discriminate.
    - injection E' as E'. pose proof (Hplain f Hf) as Hp.
      rewrite <- E' in Hp. discriminate.
    - now injection E'. }
  destruct (String.eqb_spec flag (String "-" (name h))) as [E1|E1]; cbn [orb] in Hg.
  { injection Hg as <-. destruct Hf as [<- | Hf]; [reflexivity |].
    exfalso. apply Hnotin. rewrite (Hhead (or_introl E1)). now apply in_map. }
  destruct (String.eqb_spec flag (String "-" (String "-" (name h)))) as [E2|E2].
  { injection Hg as <-. destruct Hf as [<- | Hf]; [reflexivity |].
    exfalso. apply Hnotin. rewrite (Hhead (or_intror E2)). now apply in_map. }
  destruct Hf as [<- | Hf].
  - exfalso. destruct Hflag; [now apply E1 | now apply E2].
  - apply IH; try assumption. intros k Hk. apply Hplain. now right.
Qed.

Lemma unknown_flag_Some (name : flag_ptr -> string) (registry : list flag_ptr)
    (flags : list string) (t : string) :
  unknown_flag name registry flags = Some t ->
  In t flags /\ find_flag name registry t = None.
Proof.
  induction flags as [|x flags IH]; cbn [unknown_flag]; [discriminate |].
  destruct (find_flag name registry x) eqn:E.
  - intros H. destruct (IH H). split; [now right | assumption].
  - intros H. injection H as <-. split; [now left | assumption].
Qed.

(** [operator/] yields the empty path for empty operands only. *)
Lemma append_path_nonempty (a b : path) : b <> "" -> a </> b <> "".
Proof.
  intros Hb. unfold Path.append.
  destruct (Path.is_absolute b); [assumption |].
  destruct (Path.has_filename a); intros E; apply append_empty in E;
    destruct E as [_ E]; [discriminate | contradiction].
Qed.

Lemma B_resolved_source_nonempty (fs : FileSystem) (s : string) :
  s <> "" -> B_resolved_source fs s <> "".
Proof.
  intros Hs. unfold B_resolved_source.
  destruct (Path.empty (Path.parent_path s)); [now apply append_path_nonempty | assumption].
Qed.

Lemma append_inv_head (a x y : string) : a ++ x = a ++ y -> x = y.
Proof.
  induction a as [|c a IH]; simpl; [auto |]. intros H. injection H as H. auto.
Qed.

(** A source with an accepted extension and its default target are the
    same file, case ignored, exactly when the source carries the default
    target extension, case ignored. *)
Lemma default_target_identity (cfg : Config) (rs : path) :
  In (getExtension rs) (source_ext cfg) ->
  plain_extension (defaultTargetExt cfg) -> ~ In "" (source_ext cfg) ->
  tolower rs <> tolower (Path.replace_extension rs (defaultTargetExt cfg)) <->
  getExtension rs <> tolower (defaultTargetExt cfg).
Proof.
  intros Hin (Hne & Hdot & Hsep) Hempty.
  assert (Hext : Path.extension rs <> "").
  { apply getExtension_nonempty. intros E. rewrite E in Hin. tauto. }
  destruct (extension_shape rs) as [E | (e & E & _)]; [contradiction |].
  rewrite (getExtension_dotted rs E).
  rewrite (@PathFacts.replace_extension_dotted rs (defaultTargetExt cfg) Hne Hdot).
  rewrite <- (PathFacts.dirpart_filename rs) at 1.
  rewrite <- (PathFacts.stem_extension rs), E.
  rewrite !tolower_app. unfold Path.dot. cbn [tolower]. rewrite tolower_dot.
  split; intros H1 H2; apply H1.
  - now rewrite H2.
  - apply append_inv_head, append_inv_head in H2. now injection H2.
Qed.

(* ================================================================== *)
(** ** Revision A, the whole call *)

Module AMore.
Import A A.CmdArgumentParser AFacts AFiles AProps.

(** A branch is split on a condition that has been reduced to the
    tokens, the configuration and the filesystem. *)
Ltac split_closed :=
  match goal with
  | |- context [if ?c then _ else _] =>
      lazymatch c with
      | context [set__source] => fail
      | context [set__target] => fail
      | context [if _ then _ else _] => fail
      | _ => destruct c eqn:?
      end
  end.

Lemma A_reset_names (cfg : Config) (st : state) (f : flag_ptr) :
  A_name (A_reset cfg st) f = A_name st f.
Proof.
  destruct (A_reset_facts cfg st) as (Rn & _). cbv zeta in Rn.
  unfold A_name. apply Rn.
Qed.

(** The flags after [parseFlags], whatever way it ends. *)
Lemma A_flags_after (cfg : Config) (flags : list string) (n : nat) (st : state)
    (f : flag_ptr) :
  on (flag_at (snd (parseFlags cfg flags n st)) f) =
  on (flag_at st f) || among (matched_flags (A_name st) (cmd_flags cfg) flags) f.
Proof.
  destruct (A_parseFlags_frame cfg flags n st) as (_ & Hfl & _). cbv zeta in Hfl.
  rewrite Hfl.
  destruct (A_switched_facts cfg flags st) as (_ & So & _). cbv zeta in So.
  rewrite So.
  destruct (among (matched_flags (A_name st) (cmd_flags cfg) flags) f);
    [now rewrite orb_true_r | now rewrite orb_false_r].
Qed.

Lemma A_flag_values (cfg : Config) (fs : FileSystem) (args : list string) (st : state)
    (f : flag_ptr) :
  ~ (misconfigured cfg \/ identical_extension_lists cfg) ->
  In f (cmd_flags cfg) ->
  on (flag_at (snd (CmdArgumentParser.parse cfg fs args st)) f) =
  A_default f || among (matched_flags (A_name st) (cmd_flags cfg) (fst (tokenize args))) f.
Proof.
  intros Hok Hf. rewrite A_parse_run.
  destruct (A_check_completion cfg st) as [[Hbad _] | [_ Hr]]; [tauto |].
  rewrite Hr.
  rewrite <- (@A_reset_default cfg st f Hf).
  rewrite <- (@matched_flags_ext _ _ (cmd_flags cfg) (fst (tokenize args))
                (A_reset_names cfg st)).
  rewrite <- (A_flags_after cfg (fst (tokenize args)) (length (snd (tokenize args)))
                (A_reset cfg st) f).
  destruct (parseFlags cfg (fst (tokenize args)) (length (snd (tokenize args)))
              (A_reset cfg st)) as [[[|]|code|w] st2]; cbn [fst snd]; try reflexivity.
  destruct (A_parseFiles_frame cfg fs (snd (tokenize args)) st2) as (_ & Hff & _).
  cbv zeta in Hff. now rewrite Hff.
Qed.

Lemma A_unknown_reported (cfg : Config) (fs : FileSystem) (args : list string)
    (t : string) (st : state) :
  ~ (misconfigured cfg \/ identical_extension_lists cfg) ->
  unknown_flag (A_name st) (cmd_flags cfg) (fst (tokenize args)) = Some t ->
  let (c, st') := CmdArgumentParser.parse cfg fs args st in
  c = Returned false /\
  cerr st' = cerr st ++ "Error: " ++ ("argument: Unknown flag " ++ t) ++ nl /\
  cout st' = cout st /\ source st' = "" /\ target st' = "".
Proof.
  intros Hok Hun. rewrite A_parse_run.
  destruct (A_check_completion cfg st) as [[Hbad _] | [_ Hr]]; [tauto |].
  rewrite Hr, A_parseFlags_run. cbv zeta.
  rewrite (@unknown_flag_ext _ _ (cmd_flags cfg) (fst (tokenize args)) (A_reset_names cfg st)), Hun.
  destruct (A_reset_facts cfg st) as (_ & _ & Rs & Rt & _ & _ & Ro & Re).
  destruct (A_switched_facts cfg (fst (tokenize args)) (A_reset cfg st))
    as (_ & _ & Ss & St & _ & _ & Sout & Serr).
  cbv zeta in *. cbn [cerr cout source target write_cerr].
  repeat split; first [congruence | now rewrite Serr, Re].
Qed.

(** The number of positional tokens is looked at before the filesystem. *)
Lemma A_parseFiles_count (cfg : Config) (fs : FileSystem) (files : list string)
    (st : state) :
  let r := parseFiles cfg fs files st in
  (files = [] ->
     fst r = Returned false /\
     cerr (snd r) = cerr st ++ "Error: " ++ "No source file specified" ++ nl) /\
  (2 < length files ->
     fst r = Returned false /\
     cerr (snd r) = cerr st ++ "Error: " ++ "argument: Too many arguments" ++ nl).
Proof.
  cbv zeta. unfold parseFiles. split.
  - intros ->. run. finish_run. auto.
  - intros Hlen. destruct files as [|s [|t [|u files]]]; cbn [length] in Hlen; try lia.
    run. finish_run. auto.
Qed.

(** What [parseFiles] writes: nothing when it returns [true], one line
    on [std::cerr] when it returns [false]. *)
Lemma A_parseFiles_output (cfg : Config) (fs : FileSystem) (files : list string)
    (st : state) :
  let r := parseFiles cfg fs files st in
  (fst r = Returned true /\ cerr (snd r) = cerr st /\
   source (snd r) = _source (snd r) /\ target (snd r) = _target (snd r)) \/
  (fst r = Returned false /\
   exists msg, cerr (snd r) = cerr st ++ "Error: " ++ msg ++ nl).
Proof.
  cbv zeta. unfold parseFiles.
  repeat (run; try split_if); finish_run;
    first [ left; repeat split; reflexivity
          | right; split; [reflexivity | eexists; reflexivity] ].
Qed.

(** [parseFiles] looks at the tokens, the configuration and the
    filesystem only: two runs agree on everything but what the states
    held before. *)
Lemma A_parseFiles_indep (cfg : Config) (fs : FileSystem) (files : list string)
    (st1 st2 : state) :
  _source st1 = _source st2 -> _target st1 = _target st2 ->
  let r1 := parseFiles cfg fs files st1 in
  let r2 := parseFiles cfg fs files st2 in
  fst r1 = fst r2 /\
  _source (snd r1) = _source (snd r2) /\ _target (snd r1) = _target (snd r2) /\
  (fst r1 = Returned true ->
     source (snd r1) = source (snd r2) /\ target (snd r1) = target (snd r2)) /\
  exists w, cerr (snd r1) = cerr st1 ++ w /\ cerr (snd r2) = cerr st2 ++ w.
Proof.
  intros Hs Ht. cbv zeta. unfold parseFiles.
  destruct files as [|s [|t [|u files]]];
  repeat (run; try split_closed); finish_run;
    (split; [reflexivity |]); (split; [first [reflexivity | assumption] |]);
    (split; [first [reflexivity | assumption] |]);
    (split; [first [discriminate | intros _; split; first [reflexivity | assumption]] |]);
    first [ exists ""; rewrite !append_nil_r; split; reflexivity
          | eexists; split; reflexivity ].
Qed.

Ltac split_atom c :=
  lazymatch c with
  | negb ?d => split_atom d
  | andb ?a _ => split_atom a
  | orb ?a _ => split_atom a
  | _ => destruct c eqn:?
  end.

Ltac split_cond :=
  match goal with
  | |- context [if ?c then _ else _] =>
      lazymatch c with
      | context [set__source] => fail
      | context [set__target] => fail
      | context [if _ then _ else _] => fail
      | _ => split_atom c
      end
  end.

(** [parseFiles] returns [true] in directory mode and when the resolved
    paths differ, and in no other case. *)
Lemma A_parseFiles_true_iff (cfg : Config) (fs : FileSystem) (files : list string)
    (st : state) :
  fst (parseFiles cfg fs files st) = Returned true <->
  (exists d, files = [d] /\ is_directory fs d = true) \/
  (exists rs rt, A_resolved_paths cfg fs files = Some (rs, rt) /\
                 tolower rs <> tolower rt).
Proof.
  unfold parseFiles, A_resolved_paths.
  destruct files as [|s [|t [|u files]]];
  repeat (run; try split_cond); finish_run;
    (split;
     [ intros H;
       first [ discriminate H
             | left; eexists; split; [reflexivity | assumption]
             | right; do 2 eexists; split;
               [reflexivity | apply String.eqb_neq; assumption] ]
     | intros [(d & E & Hd) | (rs & rt & E & Hne)];
       first [ reflexivity
             | discriminate E
             | congruence
             | injection E as <- <-; exfalso; apply Hne;
               apply String.eqb_eq; assumption ] ]).
Qed.

(** The completion of [check] is a matter of the configuration. *)
Lemma A_check_indep (cfg : Config) (st1 st2 : state) :
  fst (check cfg st1) = fst (check cfg st2).
Proof.
  unfold check.
  rewrite !bind_modify, !bind_for_each_modify, !bind_modify.
  repeat match goal with |- context [if ?c then _ else _] => destruct c end; reflexivity.
Qed.

(** What a call writes, completion by completion. *)
Lemma A_parse_output (cfg : Config) (fs : FileSystem) (args : list string) (st : state) :
  let (c, st') := CmdArgumentParser.parse cfg fs args st in
  match c with
  | Returned true =>
      cout st' = cout st /\ cerr st' = cerr st /\
      source st' = _source st' /\ target st' = _target st'
  | Returned false =>
      cout st' = cout st /\ exists msg, cerr st' = cerr st ++ "Error: " ++ msg ++ nl
  | Exited code =>
      code = 0%Z /\ cerr st' = cerr st /\
      (cout st' = cout st ++ text_help cfg ++ nl \/
       cout st' = cout st ++ text_version cfg ++ nl) /\
      source st' = "" /\ target st' = "" /\
      snd (tokenize args) = [] /\ length (fst (tokenize args)) <= 1
  | Thrown _ => cout st' = cout st /\ cerr st' = cerr st
  end.
Proof.
  rewrite A_parse_run.
  destruct (A_reset_facts cfg st) as (_ & _ & Rs & Rt & _ & _ & Ro & Re).
  cbv zeta in *.
  destruct (A_check_completion cfg st) as [[_ [what Hw]] | [_ Hr]].
  { rewrite Hw. auto. }
  rewrite Hr, A_parseFlags_run. cbv zeta.
  destruct (A_switched_facts cfg (fst (tokenize args)) (A_reset cfg st))
    as (_ & _ & Ss & St & _ & _ & Sout & Serr).
  cbv zeta in *.
  destruct (unknown_flag (A_name (A_reset cfg st)) (cmd_flags cfg) (fst (tokenize args)))
    as [t|].
  { cbn [cout cerr write_cerr]. split; [congruence |].
    eexists. rewrite Serr, Re. reflexivity. }
  destruct (on (flag_at (A_switched cfg (fst (tokenize args)) (A_reset cfg st)) help)
            || on (flag_at (A_switched cfg (fst (tokenize args)) (A_reset cfg st)) version)).
  - destruct ((1 <? length (fst (tokenize args)))%nat
              || negb (length (snd (tokenize args)) =? 0)%nat) eqn:Ecount.
    + cbn [cout cerr write_cerr]. split; [congruence |].
      eexists. rewrite Serr, Re. reflexivity.
    + apply orb_false_elim in Ecount. destruct Ecount as [E1 E2].
      apply Nat.ltb_ge in E1. apply negb_false_iff, Nat.eqb_eq in E2.
      assert (Hnil : snd (tokenize args) = [])
        by (destruct (snd (tokenize args)); [reflexivity | discriminate]).
      destruct (on (flag_at (A_switched cfg (fst (tokenize args)) (A_reset cfg st)) help));
        cbn [cout cerr source target write_cout]; rewrite Sout, Ro;
        repeat split; first [congruence | lia | now left | now right].
  - pose proof (A_parseFiles_output cfg fs (snd (tokenize args))
                  (A_switched cfg (fst (tokenize args)) (A_reset cfg st))) as Hout.
    destruct (A_parseFiles_frame cfg fs (snd (tokenize args))
                (A_switched cfg (fst (tokenize args)) (A_reset cfg st)))
      as (_ & _ & Hcout & _).
    cbv zeta in *.
    destruct (parseFiles cfg fs (snd (tokenize args))
                (A_switched cfg (fst (tokenize args)) (A_reset cfg st))) as [c st'].
    cbn [fst snd] in *.
    destruct Hout as [(-> & He & Hs & Ht) | (-> & msg & He)].
    + repeat split; congruence.
    + split; [congruence |]. exists msg. now rewrite He, Serr, Re.
Qed.

(** Two calls with the same arguments, from states that give the flags
    the same names. *)
Lemma A_parse_indep (cfg : Config) (fs : FileSystem) (args : list string)
    (st1 st2 : state) :
  (forall f, A_name st1 f = A_name st2 f) ->
  _source st1 = _source st2 -> _target st1 = _target st2 ->
  let r1 := CmdArgumentParser.parse cfg fs args st1 in
  let r2 := CmdArgumentParser.parse cfg fs args st2 in
  fst r1 = fst r2 /\
  source (snd r1) = source (snd r2) /\ target (snd r1) = target (snd r2) /\
  (forall f, In f (cmd_flags cfg) ->
     on (flag_at (snd r1) f) = on (flag_at (snd r2) f)) /\
  exists out err,
    cout (snd r1) = cout st1 ++ out /\ cout (snd r2) = cout st2 ++ out /\
    cerr (snd r1) = cerr st1 ++ err /\ cerr (snd r2) = cerr st2 ++ err.
Proof.
  intros Hn Hs0 Ht0. cbv zeta. rewrite !A_parse_run.
  rewrite (A_check_indep cfg st1 st2).
  destruct (A_reset_facts cfg st1) as (_ & _ & Rs1 & Rt1 & Rs1' & Rt1' & Ro1 & Re1).
  destruct (A_reset_facts cfg st2) as (_ & _ & Rs2 & Rt2 & Rs2' & Rt2' & Ro2 & Re2).
  cbv zeta in *.
  assert (Hreset : forall f, In f (cmd_flags cfg) ->
            on (flag_at (A_reset cfg st1) f) = on (flag_at (A_reset cfg st2) f)).
  { intros f Hf. now rewrite !(@A_reset_default cfg _ f Hf). }
  destruct (A_check_completion cfg st2) as [[_ [what Hw]] | [Hok Hr]].
  { rewrite Hw. cbn [fst snd]. repeat split; try congruence; try assumption.
    exists "", "". rewrite !append_nil_r. auto. }
  rewrite Hr, !A_parseFlags_run. cbv zeta.
  assert (Hn1 : forall f, A_name (A_reset cfg st1) f = A_name (A_reset cfg st2) f).
  { intros f. now rewrite !A_reset_names. }
  rewrite (@unknown_flag_ext _ _ (cmd_flags cfg) (fst (tokenize args)) Hn1).
  destruct (A_switched_facts cfg (fst (tokenize args)) (A_reset cfg st1))
    as (_ & So1 & Ss1 & St1 & Ss1' & St1' & Sout1 & Serr1).
  destruct (A_switched_facts cfg (fst (tokenize args)) (A_reset cfg st2))
    as (_ & So2 & Ss2 & St2 & Ss2' & St2' & Sout2 & Serr2).
  cbv zeta in *.
  rewrite (@matched_flags_ext _ _ (cmd_flags cfg) (fst (tokenize args)) Hn1) in So1.
  assert (Hsw : forall f, In f (cmd_flags cfg) ->
            on (flag_at (A_switched cfg (fst (tokenize args)) (A_reset cfg st1)) f) =
            on (flag_at (A_switched cfg (fst (tokenize args)) (A_reset cfg st2)) f)).
  { intros f Hf. rewrite So1, So2, (Hreset f Hf). reflexivity. }
  assert (Hhelp : In help (cmd_flags cfg)).
  { destruct (among (cmd_flags cfg) help) eqn:E; [now apply among_In |].
    exfalso. apply Hok. left. right; right; left.
    intros Hin. apply among_In in Hin. congruence. }
  assert (Hversion : In version (cmd_flags cfg)).
  { destruct (among (cmd_flags cfg) version) eqn:E; [now apply among_In |].
    exfalso. apply Hok. left. right; right; right; left.
    intros Hin. apply among_In in Hin. congruence. }
  rewrite (Hsw help Hhelp), (Hsw version Hversion).
  destruct (unknown_flag (A_name (A_reset cfg st2)) (cmd_flags cfg) (fst (tokenize args)))
    as [t|].
  { cbn [fst snd cout cerr source target flag_at write_cerr].
    repeat split; try congruence; try assumption.
    exists "", ("Error: " ++ ("argument: Unknown flag " ++ t) ++ nl).
    rewrite !append_nil_r. repeat split; congruence. }
  destruct (on (flag_at (A_switched cfg (fst (tokenize args)) (A_reset cfg st2)) help)
            || on (flag_at (A_switched cfg (fst (tokenize args)) (A_reset cfg st2)) version)).
  - destruct ((1 <? length (fst (tokenize args)))%nat
              || negb (length (snd (tokenize args)) =? 0)%nat).
    + cbn [fst snd cout cerr source target flag_at write_cerr].
      repeat split; try congruence; try assumption.
      exists "", ("Error: " ++ "argument: Too many arguments" ++ nl).
      rewrite !append_nil_r. repeat split; congruence.
    + destruct (on (flag_at (A_switched cfg (fst (tokenize args)) (A_reset cfg st2)) help));
        cbn [fst snd cout cerr source target flag_at write_cout];
        (repeat split; try congruence; try assumption);
        [ exists (text_help cfg ++ nl), "" | exists (text_version cfg ++ nl), "" ];
        rewrite !append_nil_r; repeat split; congruence.
  - pose proof (@A_parseFiles_indep cfg fs (snd (tokenize args))
                  (A_switched cfg (fst (tokenize args)) (A_reset cfg st1))
                  (A_switched cfg (fst (tokenize args)) (A_reset cfg st2))
                  ltac:(congruence) ltac:(congruence)) as Hind.
    destruct (A_parseFiles_frame cfg fs (snd (tokenize args))
                (A_switched cfg (fst (tokenize args)) (A_reset cfg st1)))
      as ([b1 Hb1] & Hf1 & Hc1 & Hp1).
    destruct (A_parseFiles_frame cfg fs (snd (tokenize args))
                (A_switched cfg (fst (tokenize args)) (A_reset cfg st2)))
      as ([b2 Hb2] & Hf2 & Hc2 & Hp2).
    cbv zeta in *.
    destruct (parseFiles cfg fs (snd (tokenize args))
                (A_switched cfg (fst (tokenize args)) (A_reset cfg st1))) as [c1 s1].
    destruct (parseFiles cfg fs (snd (tokenize args))
                (A_switched cfg (fst (tokenize args)) (A_reset cfg st2))) as [c2 s2].
    cbn [fst snd] in *.
    destruct Hind as (Hc & _ & _ & Hpub & w & Hw1 & Hw2).
    split; [exact Hc |].
    assert (Hpaths : source s1 = source s2 /\ target s1 = target s2).
    { destruct b1.
      - apply Hpub. exact Hb1.
      - assert (Hb2' : c2 = Returned false) by congruence.
        destruct (Hp1 Hb1), (Hp2 Hb2'). split; congruence. }
    destruct Hpaths as [Hps Hpt].
    split; [exact Hps |]. split; [exact Hpt |]. split.
    + intros f Hf. rewrite Hf1, Hf2. now apply Hsw.
    + exists "", w. rewrite !append_nil_r, Hw1, Hw2, Serr1, Serr2, Re1, Re2.
      repeat split; congruence.
Qed.

(** A call renames no flag. *)
Lemma A_parse_names (cfg : Config) (fs : FileSystem) (args : list string) (st : state)
    (f : flag_ptr) :
  A_name (snd (CmdArgumentParser.parse cfg fs args st)) f = A_name st f.
Proof.
  rewrite A_parse_run. unfold A_name.
  destruct (A_reset_facts cfg st) as (Rn & _). cbv zeta in Rn.
  destruct (fst (check cfg st)) as [[]|code|what]; cbn [snd]; try apply Rn.
  destruct (A_parseFlags_frame cfg (fst (tokenize args)) (length (snd (tokenize args)))
              (A_reset cfg st)) as (_ & Hfl & _).
  destruct (A_switched_facts cfg (fst (tokenize args)) (A_reset cfg st)) as (Sn & _).
  cbv zeta in *.
  destruct (parseFlags cfg (fst (tokenize args)) (length (snd (tokenize args)))
              (A_reset cfg st)) as [[[|]|code|w] st2]; cbn [fst snd] in *;
    try (rewrite Hfl, Sn; apply Rn).
  destruct (A_parseFiles_frame cfg fs (snd (tokenize args)) st2) as (_ & Hff & _).
  cbv zeta in Hff. rewrite Hff, Hfl, Sn. apply Rn.
Qed.

Lemma A_parse_true_iff (cfg : Config) (fs : FileSystem) (args : list string) (st : state) :
  fst (CmdArgumentParser.parse cfg fs args st) = Returned true <->
  A_flags_accepted cfg args st /\ A_files_accepted cfg fs (snd (tokenize args)).
Proof.
  unfold A_files_accepted.
  rewrite <- (A_parseFiles_true_iff cfg fs (snd (tokenize args)) (A_after_flags cfg args st)).
  split.
  - intros H.
    assert (Hacc : A_flags_accepted cfg args st).
    { unfold A_flags_accepted. rewrite A_parse_run in H.
      destruct (fst (check cfg st)) as [[]|code|what]; cbn [fst] in H; try discriminate.
      split; [reflexivity |].
      destruct (parseFlags cfg (fst (tokenize args)) (length (snd (tokenize args)))
                  (A_reset cfg st)) as [[[|]|code|w] st2]; cbn [fst] in *;
        try discriminate; reflexivity. }
    split; [exact Hacc |]. now rewrite <- (A_parse_accepted fs Hacc).
  - intros [Hacc H]. now rewrite (A_parse_accepted fs Hacc).
Qed.

(** What a [true] of [parseFiles] stands for. *)
Lemma A_parseFiles_post (cfg : Config) (fs : FileSystem) (files : list string)
    (st : state) :
  fst (parseFiles cfg fs files st) = Returned true ->
  let st' := snd (parseFiles cfg fs files st) in
  files <> [] /\ source st' = nth 0 files "" /\
  ((is_directory fs (source st') = true /\ target st' = _target st) \/
   (exists_ fs (source st') = true /\
    contains String.eqb (source_ext cfg) (getExtension (source st')) = true /\
    tolower (source st') <> tolower (target st'))).
Proof.
  cbv zeta. unfold parseFiles.
  destruct files as [|s [|t [|u files]]];
  repeat (run; try split_cond); finish_run;
    intros H; try discriminate H;
    (split; [discriminate |]); (split; [reflexivity |]);
    first [ left; split; [assumption | reflexivity]
          | right; split; [assumption |]; split; [assumption |];
            apply String.eqb_neq; assumption ].
Qed.

(** The members of the parser object after a successful [parseFiles]:
    they are what has been published. *)
Lemma A_parseFiles_members (cfg : Config) (fs : FileSystem) (files : list string)
    (st : state) :
  fst (parseFiles cfg fs files st) = Returned true ->
  let st' := snd (parseFiles cfg fs files st) in
  _source st' = source st' /\ _target st' = target st'.
Proof.
  cbv zeta. unfold parseFiles.
  destruct files as [|s [|t [|u files]]];
  repeat (run; try split_cond); finish_run;
    intros H; try discriminate H; split; reflexivity.
Qed.

End AMore.

(* ================================================================== *)
(** ** Revision B, the whole call *)

Module BMore.
Import B B.CmdArgumentParser BFacts BFiles BProps.

(** A branch is split on a condition that has been reduced to the
    tokens, the configuration and the filesystem. *)
Ltac split_closed :=
  match goal with
  | |- context [if ?c then _ else _] =>
      lazymatch c with
      | context [set__source] => fail
      | context [set__target] => fail
      | context [if _ then _ else _] => fail
      | _ => destruct c eqn:?
      end
  end.

Lemma B_reset_names (cfg : Config) (st : state) (f : flag_ptr) :
  B_name (B_reset cfg st) f = B_name st f.
Proof.
  destruct (B_reset_facts cfg st) as (Rn & _). cbv zeta in Rn.
  unfold B_name. apply Rn.
Qed.

(** The flags after [parseFlags], whatever way it ends. *)
Lemma B_flags_after (cfg : Config) (flags : list string) (n : nat) (st : state)
    (f : flag_ptr) :
  on (flag_at (snd (parseFlags cfg flags n st)) f) =
  on (flag_at st f) || among (matched_flags (B_name st) (cmd_flags cfg) flags) f.
Proof.
  destruct (B_parseFlags_frame cfg flags n st) as (_ & Hfl & _). cbv zeta in Hfl.
  rewrite Hfl.
  destruct (B_switched_facts cfg flags st) as (_ & _ & So & _). cbv zeta in So.
  rewrite So.
  destruct (among (matched_flags (B_name st) (cmd_flags cfg) flags) f);
    [now rewrite orb_true_r | now rewrite orb_false_r].
Qed.

Lemma B_flag_values (cfg : Config) (fs : FileSystem) (args : list string) (st : state)
    (f : flag_ptr) :
  ~ misconfigured cfg ->
  In f (cmd_flags cfg) ->
  on (flag_at (snd (CmdArgumentParser.parse cfg fs args st)) f) =
  B_default st f || among (matched_flags (B_name st) (cmd_flags cfg) (fst (tokenize args))) f.
Proof.
  intros Hok Hf. rewrite B_parse_run.
  destruct (B_check_completion cfg st) as [[Hbad _] | [_ Hr]]; [tauto |].
  rewrite Hr.
  rewrite <- (@B_reset_default cfg st f Hf).
  rewrite <- (@matched_flags_ext _ _ (cmd_flags cfg) (fst (tokenize args))
                (B_reset_names cfg st)).
  rewrite <- (B_flags_after cfg (fst (tokenize args)) (length (snd (tokenize args)))
                (B_reset cfg st) f).
  destruct (parseFlags cfg (fst (tokenize args)) (length (snd (tokenize args)))
              (B_reset cfg st)) as [[[|]|code|w] st2]; cbn [fst snd]; try reflexivity.
  destruct (B_parseFiles_frame cfg fs (snd (tokenize args)) st2) as (_ & Hff & _).
  cbv zeta in Hff. now rewrite Hff.
Qed.

Lemma B_unknown_reported (cfg : Config) (fs : FileSystem) (args : list string)
    (t : string) (st : state) :
  ~ misconfigured cfg ->
  unknown_flag (B_name st) (cmd_flags cfg) (fst (tokenize args)) = Some t ->
  let (c, st') := CmdArgumentParser.parse cfg fs args st in
  c = Returned false /\
  cerr st' = cerr st ++ "Error: " ++ ("argument: Unknown flag " ++ t) ++ nl /\
  cout st' = cout st /\ source st' = "" /\ target st' = "".
Proof.
  intros Hok Hun. rewrite B_parse_run.
  destruct (B_check_completion cfg st) as [[Hbad _] | [_ Hr]]; [tauto |].
  rewrite Hr, B_parseFlags_run. cbv zeta.
  rewrite (@unknown_flag_ext _ _ (cmd_flags cfg) (fst (tokenize args)) (B_reset_names cfg st)), Hun.
  destruct (B_reset_facts cfg st) as (_ & _ & _ & Rs & Rt & _ & _ & Ro & Re).
  destruct (B_switched_facts cfg (fst (tokenize args)) (B_reset cfg st))
    as (_ & _ & _ & Ss & St & _ & _ & Sout & Serr).
  cbv zeta in *. cbn [cerr cout source target write_cerr].
  repeat split; first [congruence | now rewrite Serr, Re].
Qed.

(** The number of positional tokens is looked at before the filesystem. *)
Lemma B_parseFiles_count (cfg : Config) (fs : FileSystem) (files : list string)
    (st : state) :
  let r := parseFiles cfg fs files st in
  (files = [] ->
     fst r = Returned false /\
     cerr (snd r) = cerr st ++ "Error: " ++ "No source file specified" ++ nl) /\
  (2 < length files ->
     fst r = Returned false /\
     cerr (snd r) = cerr st ++ "Error: " ++ "argument: Too many arguments" ++ nl).
Proof.
  cbv zeta. unfold parseFiles. split.
  - intros ->. run. finish_run. auto.
  - intros Hlen. destruct files as [|s [|t [|u files]]]; cbn [length] in Hlen; try lia.
    run. finish_run. auto.
Qed.

(** What [parseFiles] writes: nothing when it returns [true], one line
    on [std::cerr] when it returns [false]. *)
Lemma B_parseFiles_output (cfg : Config) (fs : FileSystem) (files : list string)
    (st : state) :
  _target st = "" ->
  let r := parseFiles cfg fs files st in
  (fst r = Returned true /\ cerr (snd r) = cerr st /\
   source (snd r) = _source (snd r) /\ target (snd r) = _target (snd r)) \/
  (fst r = Returned false /\
   exists msg, cerr (snd r) = cerr st ++ "Error: " ++ msg ++ nl).
Proof.
  intros Hfresh. cbv zeta. unfold parseFiles.
  repeat (run; try split_if); finish_run;
    first [ left; repeat split; first [reflexivity | now rewrite Hfresh]
          | right; split; [reflexivity | eexists; reflexivity] ].
Qed.

(** [parseFiles] looks at the tokens, the configuration and the
    filesystem only: two runs agree on everything but what the states
    held before. *)
Lemma B_parseFiles_indep (cfg : Config) (fs : FileSystem) (files : list string)
    (st1 st2 : state) :
  _source st1 = _source st2 -> _target st1 = _target st2 ->
  let r1 := parseFiles cfg fs files st1 in
  let r2 := parseFiles cfg fs files st2 in
  fst r1 = fst r2 /\
  _source (snd r1) = _source (snd r2) /\ _target (snd r1) = _target (snd r2) /\
  (fst r1 = Returned true ->
     source (snd r1) = source (snd r2) /\ target (snd r1) = target (snd r2)) /\
  exists w, cerr (snd r1) = cerr st1 ++ w /\ cerr (snd r2) = cerr st2 ++ w.
Proof.
  intros Hs Ht. cbv zeta. unfold parseFiles.
  destruct files as [|s [|t [|u files]]];
  repeat (run; try split_closed); finish_run;
    (split; [reflexivity |]); (split; [first [reflexivity | assumption] |]);
    (split; [first [reflexivity | assumption] |]);
    (split; [first [discriminate | intros _; split; first [reflexivity | assumption]] |]);
    first [ exists ""; rewrite !append_nil_r; split; reflexivity
          | eexists; split; reflexivity ].
Qed.

Ltac split_atom c :=
  lazymatch c with
  | negb ?d => split_atom d
  | andb ?a _ => split_atom a
  | orb ?a _ => split_atom a
  | _ => destruct c eqn:?
  end.

Ltac split_cond :=
  match goal with
  | |- context [if ?c then _ else _] =>
      lazymatch c with
      | context [set__source] => fail
      | context [set__target] => fail
      | context [if _ then _ else _] => fail
      | _ => split_atom c
      end
  end.

(** [parseFiles] returns [true] in directory mode and when the resolved
    paths differ, and in no other case. *)
Lemma B_parseFiles_true_iff (cfg : Config) (fs : FileSystem) (files : list string)
    (st : state) :
  fst (parseFiles cfg fs files st) = Returned true <->
  (exists d, files = [d] /\ is_directory fs d = true) \/
  (exists rs rt, B_resolved_paths cfg fs files = Some (rs, rt) /\
                 tolower rs <> tolower rt /\
                 contains String.eqb (target_ext cfg) (getExtension rt) = true).
Proof.
  unfold parseFiles, B_resolved_paths, B_resolved_source, B_anchored_target.
  destruct files as [|s [|t [|u files]]];
  repeat (run; try split_cond); finish_run;
    (split;
     [ intros H;
       first [ discriminate H
             | left; eexists; split; [reflexivity | assumption]
             | right; do 2 eexists; split;
               [reflexivity | split; [apply String.eqb_neq; assumption | assumption]] ]
     | intros [(d & E & Hd) | (rs & rt & E & Hne & Hx)];
       first [ reflexivity
             | discriminate E
             | congruence
             | injection E as <- <-; exfalso;
               first [ apply Hne; apply String.eqb_eq; assumption | congruence ] ] ]).
Qed.

(** The completion of [check] is a matter of the configuration. *)
Lemma B_check_indep (cfg : Config) (st1 st2 : state) :
  fst (check cfg st1) = fst (check cfg st2).
Proof.
  unfold check.
  rewrite !bind_modify, !bind_for_each_modify.
  repeat match goal with |- context [if ?c then _ else _] => destruct c end; reflexivity.
Qed.

(** What a call writes, completion by completion. *)
Lemma B_parse_output (cfg : Config) (fs : FileSystem) (args : list string) (st : state) :
  _target st = "" ->
  let (c, st') := CmdArgumentParser.parse cfg fs args st in
  match c with
  | Returned true =>
      cout st' = cout st /\ cerr st' = cerr st /\
      source st' = _source st' /\ target st' = _target st'
  | Returned false =>
      cout st' = cout st /\ exists msg, cerr st' = cerr st ++ "Error: " ++ msg ++ nl
  | Exited code =>
      code = 0%Z /\ cerr st' = cerr st /\
      (cout st' = cout st ++ text_help cfg ++ nl \/
       cout st' = cout st ++ text_version cfg ++ nl) /\
      source st' = "" /\ target st' = "" /\
      snd (tokenize args) = [] /\ length (fst (tokenize args)) <= 1
  | Thrown _ => cout st' = cout st /\ cerr st' = cerr st
  end.
Proof.
  intros Hfresh. rewrite B_parse_run.
  destruct (B_reset_facts cfg st) as (_ & _ & _ & Rs & Rt & _ & Rt' & Ro & Re).
  cbv zeta in *.
  destruct (B_check_completion cfg st) as [[_ [what Hw]] | [_ Hr]].
  { rewrite Hw. auto. }
  rewrite Hr, B_parseFlags_run. cbv zeta.
  destruct (B_switched_facts cfg (fst (tokenize args)) (B_reset cfg st))
    as (_ & _ & _ & Ss & St & _ & St' & Sout & Serr).
  cbv zeta in *.
  destruct (unknown_flag (B_name (B_reset cfg st)) (cmd_flags cfg) (fst (tokenize args)))
    as [t|].
  { cbn [cout cerr write_cerr]. split; [congruence |].
    eexists. rewrite Serr, Re. reflexivity. }
  destruct (on (flag_at (B_switched cfg (fst (tokenize args)) (B_reset cfg st)) help)
            || on (flag_at (B_switched cfg (fst (tokenize args)) (B_reset cfg st)) version)).
  - destruct ((1 <? length (fst (tokenize args)))%nat
              || negb (length (snd (tokenize args)) =? 0)%nat) eqn:Ecount.
    + cbn [cout cerr write_cerr]. split; [congruence |].
      eexists. rewrite Serr, Re. reflexivity.
    + apply orb_false_elim in Ecount. destruct Ecount as [E1 E2].
      apply Nat.ltb_ge in E1. apply negb_false_iff, Nat.eqb_eq in E2.
      assert (Hnil : snd (tokenize args) = [])
        by (destruct (snd (tokenize args)); [reflexivity | discriminate]).
      destruct (on (flag_at (B_switched cfg (fst (tokenize args)) (B_reset cfg st)) help));
        cbn [cout cerr source target write_cout]; rewrite Sout, Ro;
        repeat split; first [congruence | lia | now left | now right].
  - pose proof (@B_parseFiles_output cfg fs (snd (tokenize args))
                  (B_switched cfg (fst (tokenize args)) (B_reset cfg st))
                  ltac:(congruence)) as Hout.
    destruct (B_parseFiles_frame cfg fs (snd (tokenize args))
                (B_switched cfg (fst (tokenize args)) (B_reset cfg st)))
      as (_ & _ & Hcout & _).
    cbv zeta in *.
    destruct (parseFiles cfg fs (snd (tokenize args))
                (B_switched cfg (fst (tokenize args)) (B_reset cfg st))) as [c st'].
    cbn [fst snd] in *.
    destruct Hout as [(-> & He & Hs & Ht) | (-> & msg & He)].
    + repeat split; congruence.
    + split; [congruence |]. exists msg. now rewrite He, Serr, Re.
Qed.

(** Two calls with the same arguments, from states that give the flags
    the same names. *)
Lemma B_parse_indep (cfg : Config) (fs : FileSystem) (args : list string)
    (st1 st2 : state) :
  (forall f, B_name st1 f = B_name st2 f) ->
  (forall f, B_default st1 f = B_default st2 f) ->
  _source st1 = _source st2 -> _target st1 = _target st2 ->
  let r1 := CmdArgumentParser.parse cfg fs args st1 in
  let r2 := CmdArgumentParser.parse cfg fs args st2 in
  fst r1 = fst r2 /\
  source (snd r1) = source (snd r2) /\ target (snd r1) = target (snd r2) /\
  (forall f, In f (cmd_flags cfg) ->
     on (flag_at (snd r1) f) = on (flag_at (snd r2) f)) /\
  exists out err,
    cout (snd r1) = cout st1 ++ out /\ cout (snd r2) = cout st2 ++ out /\
    cerr (snd r1) = cerr st1 ++ err /\ cerr (snd r2) = cerr st2 ++ err.
Proof.
  intros Hn Hd Hs0 Ht0. cbv zeta. rewrite !B_parse_run.
  rewrite (B_check_indep cfg st1 st2).
  destruct (B_reset_facts cfg st1) as (_ & Rd1 & _ & Rs1 & Rt1 & Rs1' & Rt1' & Ro1 & Re1).
  destruct (B_reset_facts cfg st2) as (_ & Rd2 & _ & Rs2 & Rt2 & Rs2' & Rt2' & Ro2 & Re2).
  cbv zeta in *.
  assert (Hreset : forall f, In f (cmd_flags cfg) ->
            on (flag_at (B_reset cfg st1) f) = on (flag_at (B_reset cfg st2) f)).
  { intros f Hf. rewrite !(@B_reset_default cfg _ f Hf). apply Hd. }
  destruct (B_check_completion cfg st2) as [[_ [what Hw]] | [Hok Hr]].
  { rewrite Hw. cbn [fst snd]. repeat split; try congruence; try assumption.
    exists "", "". rewrite !append_nil_r. auto. }
  rewrite Hr, !B_parseFlags_run. cbv zeta.
  assert (Hn1 : forall f, B_name (B_reset cfg st1) f = B_name (B_reset cfg st2) f).
  { intros f. now rewrite !B_reset_names. }
  rewrite (@unknown_flag_ext _ _ (cmd_flags cfg) (fst (tokenize args)) Hn1).
  destruct (B_switched_facts cfg (fst (tokenize args)) (B_reset cfg st1))
    as (_ & _ & So1 & Ss1 & St1 & Ss1' & St1' & Sout1 & Serr1).
  destruct (B_switched_facts cfg (fst (tokenize args)) (B_reset cfg st2))
    as (_ & _ & So2 & Ss2 & St2 & Ss2' & St2' & Sout2 & Serr2).
  cbv zeta in *.
  rewrite (@matched_flags_ext _ _ (cmd_flags cfg) (fst (tokenize args)) Hn1) in So1.
  assert (Hsw : forall f, In f (cmd_flags cfg) ->
            on (flag_at (B_switched cfg (fst (tokenize args)) (B_reset cfg st1)) f) =
            on (flag_at (B_switched cfg (fst (tokenize args)) (B_reset cfg st2)) f)).
  { intros f Hf. rewrite So1, So2, (Hreset f Hf). reflexivity. }
  assert (Hhelp : In help (cmd_flags cfg)).
  { destruct (among (cmd_flags cfg) help) eqn:E; [now apply among_In |].
    exfalso. apply Hok. right; right; left.
    intros Hin. apply among_In in Hin. congruence. }
  assert (Hversion : In version (cmd_flags cfg)).
  { destruct (among (cmd_flags cfg) version) eqn:E; [now apply among_In |].
    exfalso. apply Hok. right; right; right; left.
    intros Hin. apply among_In in Hin. congruence. }
  rewrite (Hsw help Hhelp), (Hsw version Hversion).
  destruct (unknown_flag (B_name (B_reset cfg st2)) (cmd_flags cfg) (fst (tokenize args)))
    as [t|].
  { cbn [fst snd cout cerr source target flag_at write_cerr].
    repeat split; try congruence; try assumption.
    exists "", ("Error: " ++ ("argument: Unknown flag " ++ t) ++ nl).
    rewrite !append_nil_r. repeat split; congruence. }
  destruct (on (flag_at (B_switched cfg (fst (tokenize args)) (B_reset cfg st2)) help)
            || on (flag_at (B_switched cfg (fst (tokenize args)) (B_reset cfg st2)) version)).
  - destruct ((1 <? length (fst (tokenize args)))%nat
              || negb (length (snd (tokenize args)) =? 0)%nat).
    + cbn [fst snd cout cerr source target flag_at write_cerr].
      repeat split; try congruence; try assumption.
      exists "", ("Error: " ++ "argument: Too many arguments" ++ nl).
      rewrite !append_nil_r. repeat split; congruence.
    + destruct (on (flag_at (B_switched cfg (fst (tokenize args)) (B_reset cfg st2)) help));
        cbn [fst snd cout cerr source target flag_at write_cout];
        (repeat split; try congruence; try assumption);
        [ exists (text_help cfg ++ nl), "" | exists (text_version cfg ++ nl), "" ];
        rewrite !append_nil_r; repeat split; congruence.
  - pose proof (@B_parseFiles_indep cfg fs (snd (tokenize args))
                  (B_switched cfg (fst (tokenize args)) (B_reset cfg st1))
                  (B_switched cfg (fst (tokenize args)) (B_reset cfg st2))
                  ltac:(congruence) ltac:(congruence)) as Hind.
    destruct (B_parseFiles_frame cfg fs (snd (tokenize args))
                (B_switched cfg (fst (tokenize args)) (B_reset cfg st1)))
      as ([b1 Hb1] & Hf1 & Hc1 & Hp1).
    destruct (B_parseFiles_frame cfg fs (snd (tokenize args))
                (B_switched cfg (fst (tokenize args)) (B_reset cfg st2)))
      as ([b2 Hb2] & Hf2 & Hc2 & Hp2).
    cbv zeta in *.
    destruct (parseFiles cfg fs (snd (tokenize args))
                (B_switched cfg (fst (tokenize args)) (B_reset cfg st1))) as [c1 s1].
    destruct (parseFiles cfg fs (snd (tokenize args))
                (B_switched cfg (fst (tokenize args)) (B_reset cfg st2))) as [c2 s2].
    cbn [fst snd] in *.
    destruct Hind as (Hc & _ & _ & Hpub & w & Hw1 & Hw2).
    split; [exact Hc |].
    assert (Hpaths : source s1 = source s2 /\ target s1 = target s2).
    { destruct b1.
      - apply Hpub. exact Hb1.
      - assert (Hb2' : c2 = Returned false) by congruence.
        destruct (Hp1 Hb1), (Hp2 Hb2'). split; congruence. }
    destruct Hpaths as [Hps Hpt].
    split; [exact Hps |]. split; [exact Hpt |]. split.
    + intros f Hf. rewrite Hf1, Hf2. now apply Hsw.
    + exists "", w. rewrite !append_nil_r, Hw1, Hw2, Serr1, Serr2, Re1, Re2.
      repeat split; congruence.
Qed.

(** A call renames no flag. *)
Lemma B_parse_names (cfg : Config) (fs : FileSystem) (args : list string) (st : state)
    (f : flag_ptr) :
  B_name (snd (CmdArgumentParser.parse cfg fs args st)) f = B_name st f.
Proof.
  rewrite B_parse_run. unfold B_name.
  destruct (B_reset_facts cfg st) as (Rn & _). cbv zeta in Rn.
  destruct (fst (check cfg st)) as [[]|code|what]; cbn [snd]; try apply Rn.
  destruct (B_parseFlags_frame cfg (fst (tokenize args)) (length (snd (tokenize args)))
              (B_reset cfg st)) as (_ & Hfl & _).
  destruct (B_switched_facts cfg (fst (tokenize args)) (B_reset cfg st)) as (Sn & _).
  cbv zeta in *.
  destruct (parseFlags cfg (fst (tokenize args)) (length (snd (tokenize args)))
              (B_reset cfg st)) as [[[|]|code|w] st2]; cbn [fst snd] in *;
    try (rewrite Hfl, Sn; apply Rn).
  destruct (B_parseFiles_frame cfg fs (snd (tokenize args)) st2) as (_ & Hff & _).
  cbv zeta in Hff. rewrite Hff, Hfl, Sn. apply Rn.
Qed.

Lemma B_parse_true_iff (cfg : Config) (fs : FileSystem) (args : list string) (st : state) :
  fst (CmdArgumentParser.parse cfg fs args st) = Returned true <->
  B_flags_accepted cfg args st /\ B_files_accepted cfg fs (snd (tokenize args)).
Proof.
  assert (Hiff : B_files_accepted cfg fs (snd (tokenize args)) <->
                 fst (parseFiles cfg fs (snd (tokenize args)) (B_after_flags cfg args st))
                 = Returned true).
  { rewrite B_parseFiles_true_iff. unfold B_files_accepted.
    split; (intros [H | (rs & rt & H1 & H2 & H3)]; [now left | right]);
      exists rs, rt; repeat split; try assumption; now apply contains_In. }
  rewrite Hiff.
  split.
  - intros H.
    assert (Hacc : B_flags_accepted cfg args st).
    { unfold B_flags_accepted. rewrite B_parse_run in H.
      destruct (fst (check cfg st)) as [[]|code|what]; cbn [fst] in H; try discriminate.
      split; [reflexivity |].
      destruct (parseFlags cfg (fst (tokenize args)) (length (snd (tokenize args)))
                  (B_reset cfg st)) as [[[|]|code|w] st2]; cbn [fst] in *;
        try discriminate; reflexivity. }
    split; [exact Hacc |]. now rewrite <- (B_parse_accepted fs Hacc).
  - intros [Hacc H]. now rewrite (B_parse_accepted fs Hacc).
Qed.

(** What a [true] of [parseFiles] stands for. *)
Lemma B_parseFiles_post (cfg : Config) (fs : FileSystem) (files : list string)
    (st : state) :
  fst (parseFiles cfg fs files st) = Returned true ->
  let st' := snd (parseFiles cfg fs files st) in
  files <> [] /\
  ((is_directory fs (source st') = true /\ source st' = nth 0 files "" /\
    target st' = "") \/
   (source st' = B_resolved_source fs (nth 0 files "") /\
    exists_ fs (source st') = true /\
    contains String.eqb (source_ext cfg) (getExtension (source st')) = true /\
    tolower (source st') <> tolower (target st') /\
    contains String.eqb (target_ext cfg) (getExtension (target st')) = true)).
Proof.
  cbv zeta. unfold parseFiles, B_resolved_source.
  destruct files as [|s [|t [|u files]]];
  repeat (run; try split_cond); finish_run;
    intros H; try discriminate H;
    (split; [discriminate |]);
    first [ left; split; [assumption |]; split; reflexivity
          | right; split; [reflexivity |]; split; [assumption |]; split; [assumption |];
            split; [apply String.eqb_neq; assumption | assumption] ].
Qed.

(** The members of the parser object after a successful [parseFiles]:
    [_source] is the published source; [_target] is the published
    target when the source is a file, and is left as it was, while an
    empty target is published, when the source is a directory. *)
Lemma B_parseFiles_members (cfg : Config) (fs : FileSystem) (files : list string)
    (st : state) :
  fst (parseFiles cfg fs files st) = Returned true ->
  let st' := snd (parseFiles cfg fs files st) in
  _source st' = source st' /\
  ((is_directory fs (source st') = true /\ source st' = nth 0 files "" /\
    target st' = "" /\ _target st' = _target st) \/
   (source st' = B_resolved_source fs (nth 0 files "") /\
    exists_ fs (source st') = true /\
    contains String.eqb (source_ext cfg) (getExtension (source st')) = true /\
    tolower (source st') <> tolower (target st') /\
    contains String.eqb (target_ext cfg) (getExtension (target st')) = true /\
    _target st' = target st')).
Proof.
  cbv zeta. unfold parseFiles, B_resolved_source.
  destruct files as [|s [|t [|u files]]];
  repeat (run; try split_cond); finish_run;
    intros H; try discriminate H;
    (split; [reflexivity |]);
    first [ left; split; [assumption |]; split; [reflexivity |]; split; reflexivity
          | right; split; [reflexivity |]; split; [assumption |]; split; [assumption |];
            split; [apply String.eqb_neq; assumption |]; split; [assumption | reflexivity] ].
Qed.

(** An explicit target without extension that is no directory. *)
Lemma B_target_not_a_directory (cfg : Config) (fs : FileSystem) (args : list string)
    (s t : string) (st : state) :
  B_flags_accepted cfg args st ->
  snd (tokenize args) = [s; t] ->
  is_directory fs s = false ->
  exists_ fs (B_resolved_source fs s) = true ->
  In (getExtension (B_resolved_source fs s)) (source_ext cfg) ->
  Path.has_extension (B_anchored_target (B_resolved_source fs s) t) = false ->
  is_directory fs (B_anchored_target (B_resolved_source fs s) t) = false ->
  let (c, st') := CmdArgumentParser.parse cfg fs args st in
  c = Returned false /\ source st' = "" /\ target st' = "" /\
  cerr st' = cerr st ++ "Error: " ++
               ("Target directory does not exist " ++
                B_anchored_target (B_resolved_source fs s) t) ++ nl.
Proof.
  intros Hacc Hfiles Ed Ee Ex Hext Hnd.
  rewrite (B_parse_accepted fs Hacc), Hfiles.
  destruct (B_after_flags_facts Hacc) as (Hs & Ht & Hs' & Ht' & Ho & He).
  cbv zeta in *. revert Hs Ht Hs' Ht' Ho He.
  generalize (B_after_flags cfg args st). intros st2 Hs Ht Hs' Ht' Ho He.
  apply contains_In in Ex.
  unfold parseFiles, B_resolved_source, B_anchored_target in *.
  run. rewrite Ed. run.
  destruct (Path.empty (Path.parent_path s)); run; rewrite Ee; run; rewrite Ex; run.
  all: destruct (Path.empty (Path.parent_path t)); run; rewrite Hext; run.
  all: repeat (run; try rewrite Hnd; try split_if).
  all: finish_run; repeat split; first [congruence | now rewrite He].
Qed.

End BMore.

(* ================================================================== *)
(** ** Revision C, stage by stage *)

Module CFacts.
Import C C.CmdArgumentParser.

Ltac run :=
  repeat first
    [ rewrite bind_modify
    | rewrite bind_get
    | progress cbn [flag_at source target _source _target cout
                    set_source set_target set__source set__target
                    write_cout fst snd nth length
                    vector_empty Nat.ltb Nat.leb Nat.eqb negb andb orb]
    | progress cbv zeta ].

Ltac split_atom c :=
  lazymatch c with
  | negb ?d => split_atom d
  | andb ?a _ => split_atom a
  | orb ?a _ => split_atom a
  | _ => destruct c eqn:?
  end.

Ltac split_cond :=
  match goal with
  | |- context [if ?c then _ else _] =>
      lazymatch c with
      | context [set__source] => fail
      | context [set__target] => fail
      | context [if _ then _ else _] => fail
      | _ => split_atom c
      end
  end.

Ltac finish_run :=
  unfold print, ret; run;
  cbn [flag_at source target _source _target cout
       set_source set_target set__source set__target
       write_cout fst snd].

Lemma C_bind_run {S A B : Type} (m : M S A) (k : A -> M S B) (s : S) :
  bind m k s =
  match m s with
  | (Returned a, s') => k a s'
  | (Exited code, s') => (Exited code, s')
  | (Thrown what, s') => (Thrown what, s')
  end.
Proof. reflexivity. Qed.

Lemma C_flag_ptr_eqb_eq (p q : flag_ptr) : flag_ptr_eqb p q = true <-> p = q.
Proof. destruct p, q; simpl; split; intros H; try reflexivity; discriminate. Qed.

Lemma C_contains_flag_In (l : list flag_ptr) (f : flag_ptr) :
  contains flag_ptr_eqb l f = true <-> In f l.
Proof.
  unfold contains. rewrite existsb_exists. split.
  - intros [g [Hg E]]. apply C_flag_ptr_eqb_eq in E. now subst.
  - intros H. exists f. split; [assumption | now apply C_flag_ptr_eqb_eq].
Qed.

(** What a run of assignments over a list of flags leaves. *)
Lemma C_assign_all (b : bool) (l : list flag_ptr) (st : state) :
  let st' := fold_left (fun s f => assign f b s) l st in
  (forall p, _flag (flag_at st' p) = _flag (flag_at st p)) /\
  (forall p, on (flag_at st' p) =
             if contains flag_ptr_eqb l p then b else on (flag_at st p)) /\
  source st' = source st /\ target st' = target st /\
  _source st' = _source st /\ _target st' = _target st /\
  cout st' = cout st.
Proof.
  revert st; induction l as [|f l IH]; intros st; simpl.
  - repeat split; reflexivity.
  - destruct (IH (assign f b st)) as (Hn & Ho & H).
    split; [| split; [| exact H]].
    + intros p. rewrite Hn. simpl. now destruct (flag_ptr_eqb p f).
    + intros p. rewrite Ho. unfold contains. simpl.
      assert (E : flag_ptr_eqb f p = flag_ptr_eqb p f) by (destruct f, p; reflexivity).
      rewrite E. destruct (flag_ptr_eqb p f); simpl; [| reflexivity].
      now destruct (existsb (fun x => flag_ptr_eqb x p) l).
Qed.

(** [check] always leaves the same state, whether it throws or not. *)
Lemma C_check_state (cfg : Config) (st : state) :
  C_reset cfg st =
  assign convert true
    (fold_left (fun s f => assign f false s) (cmd_flags cfg)
       (set_target "" (set_source "" st))).
Proof.
  unfold C_reset, check.
  rewrite !bind_modify, bind_for_each_modify, !bind_modify.
  repeat match goal with |- context [if ?c then _ else _] => destruct c end; reflexivity.
Qed.

Lemma C_reset_facts (cfg : Config) (st : state) :
  let st' := C_reset cfg st in
  (forall p, _flag (flag_at st' p) = _flag (flag_at st p)) /\
  (forall p, on (flag_at st' p) =
             match p with
             | convert => true
             | _ => if contains flag_ptr_eqb (cmd_flags cfg) p then false
                    else on (flag_at st p)
             end) /\
  source st' = "" /\ target st' = "" /\
  _source st' = _source st /\ _target st' = _target st /\
  cout st' = cout st.
Proof.
  cbv zeta. rewrite C_check_state.
  destruct (C_assign_all false (cmd_flags cfg) (set_target "" (set_source "" st)))
    as (Hn & Ho & Hs & Ht & H).
  simpl. split; [| split; [| split; [exact Hs | split; [exact Ht | exact H]]]].
  - intros p. destruct p; simpl; apply Hn.
  - intros p. destruct p; simpl; try reflexivity; apply Ho.
Qed.

(** [check] throws exactly on a configuration it rejects, and otherwise
    returns. *)
Lemma C_check_completion (cfg : Config) (st : state) :
  (C_misconfigured cfg /\ exists what, fst (check cfg st) = Thrown what) \/
  (~ C_misconfigured cfg /\ fst (check cfg st) = Returned tt).
Proof.
  unfold check.
  rewrite !bind_modify, bind_for_each_modify, !bind_modify.
  unfold C_misconfigured.
  destruct (vector_empty (source_ext cfg)) eqn:E1; simpl.
  { left. split; [| eexists; reflexivity]. apply vector_empty_nil in E1. tauto. }
  destruct (vector_empty (target_ext cfg)) eqn:E2; simpl.
  { left. split; [| eexists; reflexivity]. apply vector_empty_nil in E2. tauto. }
  destruct (vector_eqb (source_ext cfg) (target_ext cfg)) eqn:E3; simpl.
  { left. split; [| eexists; reflexivity]. apply vector_eqb_eq in E3. tauto. }
  destruct (contains flag_ptr_eqb (cmd_flags cfg) help) eqn:E4; simpl.
  2:{ left. split; [| eexists; reflexivity].
      right; right; right; left. intros Hin. apply C_contains_flag_In in Hin. congruence. }
  destruct (contains flag_ptr_eqb (cmd_flags cfg) version) eqn:E5; simpl.
  2:{ left. split; [| eexists; reflexivity].
      right; right; right; right; left.
      intros Hin. apply C_contains_flag_In in Hin. congruence. }
  destruct (length (cmd_flags cfg) <? 3)%nat eqn:E6; simpl.
  { left. split; [| eexists; reflexivity]. apply Nat.ltb_lt in E6. tauto. }
  right. split; [| reflexivity].
  apply Nat.ltb_ge in E6. apply C_contains_flag_In in E4, E5.
  assert (vector_empty (source_ext cfg) = true <-> source_ext cfg = []) by apply vector_empty_nil.
  assert (vector_empty (target_ext cfg) = true <-> target_ext cfg = []) by apply vector_empty_nil.
  assert (vector_eqb (source_ext cfg) (target_ext cfg) = true <-> source_ext cfg = target_ext cfg)
    by apply vector_eqb_eq.
  intros [H'|[H'|[H'|[H'|[H'|H']]]]]; try tauto; try lia; intuition congruence.
Qed.

Lemma C_find_flag_ext (name name' : flag_ptr -> string) (registry : list flag_ptr)
    (flag : string) :
  (forall f, name f = name' f) ->
  find_flag name registry flag = find_flag name' registry flag.
Proof.
  intros H. induction registry as [|g registry IH]; simpl; [reflexivity |].
  now rewrite H, IH.
Qed.

Lemma C_find_flag_In (name : flag_ptr -> string) (registry : list flag_ptr)
    (flag : string) (f : flag_ptr) :
  find_flag name registry flag = Some f -> In f registry.
Proof.
  induction registry as [|g registry IH]; simpl; [discriminate |].
  destruct (String.eqb flag (String "-" (name g))
            || String.eqb flag (String "-" (String "-" (name g)))).
  - intros H. injection H as <-. now left.
  - intros H. right. now apply IH.
Qed.

Lemma C_name_assign (f : flag_ptr) (b : bool) (st : state) (g : flag_ptr) :
  C_name (assign f b st) g = C_name st g.
Proof. unfold C_name. simpl. now destruct (flag_ptr_eqb g f). Qed.

Lemma C_named_ext (st st' : state) (registry : list flag_ptr) (flags : list string)
    (f : flag_ptr) :
  (forall g, C_name st g = C_name st' g) ->
  C_named st registry flags f = C_named st' registry flags f.
Proof.
  intros H. unfold C_named. induction flags as [|t flags IH]; simpl; [reflexivity |].
  now rewrite (@C_find_flag_ext _ _ registry t H), IH.
Qed.

(** The loop of [parseFlags]: it writes at most the line about the first
    unknown flag, leaves the paths alone, renames no flag and switches
    no flag off. *)
Lemma C_loop_frame (cfg : Config) (flags : list string) (n : nat) (st : state) :
  let r := parseFlags_loop cfg flags n st in
  (forall p, _flag (flag_at (snd r) p) = _flag (flag_at st p)) /\
  source (snd r) = source st /\ target (snd r) = target st /\
  _source (snd r) = _source st /\ _target (snd r) = _target st /\
  ((exists m, fst r = Returned (Some m) /\ cout (snd r) = cout st) \/
   (exists t, fst r = Returned None /\ In t flags /\
              find_flag (C_name st) (cmd_flags cfg) t = None /\
              cout (snd r) = cout st ++ ("Error argument: Unknown flag " ++ t) ++ nl)).
Proof.
  cbv zeta. revert n st; induction flags as [|t flags IH]; intros n st.
  - simpl. repeat split; try reflexivity. left. now exists n.
  - cbn [parseFlags_loop]. rewrite bind_get.
    change (fun f => _flag (flag_at st f)) with (C_name st).
    destruct (find_flag (C_name st) (cmd_flags cfg) t) as [f|] eqn:E.
    + rewrite bind_modify.
      destruct (IH (S n) (assign f true st)) as (Hn & Hs & Ht & Hs' & Ht' & Hc).
      split; [| split; [exact Hs | split; [exact Ht | split; [exact Hs' | split; [exact Ht' |]]]]].
      * intros p. rewrite Hn. simpl. now destruct (flag_ptr_eqb p f).
      * destruct Hc as [(m & Hm & Hc) | (u & Hu & Hin & Hnone & Hc)].
        -- left. exists m. now split.
        -- right. exists u. split; [exact Hu |]. split; [now right |].
           split; [| exact Hc].
           now rewrite <- (@C_find_flag_ext _ _ (cmd_flags cfg) u (C_name_assign f true st)).
    + unfold print. rewrite bind_modify. cbn.
      repeat split; try reflexivity. right. exists t.
      repeat split; [now left | exact E].
Qed.

(** The loop when every token is known: the flags the tokens name are
    switched on, every token is counted. *)
Lemma C_loop_known (cfg : Config) (flags : list string) (n : nat) (st : state) :
  C_all_known st (cmd_flags cfg) flags ->
  let r := parseFlags_loop cfg flags n st in
  fst r = Returned (Some (n + length flags)) /\
  cout (snd r) = cout st /\
  (forall f, on (flag_at (snd r) f) =
             on (flag_at st f) || C_named st (cmd_flags cfg) flags f).
Proof.
  cbv zeta. revert n st; induction flags as [|t flags IH]; intros n st Hk.
  - simpl. rewrite Nat.add_0_r. repeat split; try reflexivity.
    intros f. now rewrite orb_false_r.
  - cbn [parseFlags_loop]. rewrite bind_get.
    change (fun f => _flag (flag_at st f)) with (C_name st).
    destruct (find_flag (C_name st) (cmd_flags cfg) t) as [g|] eqn:E.
    2:{ exfalso. apply (Hk t); [now left | exact E]. }
    rewrite bind_modify.
    assert (Hk' : C_all_known (assign g true st) (cmd_flags cfg) flags).
    { intros u Hu.
      rewrite (@C_find_flag_ext _ _ (cmd_flags cfg) u (C_name_assign g true st)).
      apply Hk. now right. }
    destruct (IH (S n) (assign g true st) Hk') as (Hr & Hc & Ho).
    split; [| split; [exact Hc |]].
    + rewrite Hr. cbn [length]. now rewrite Nat.add_succ_r.
    + intros f. rewrite Ho.
      rewrite (@C_named_ext (assign g true st) st (cmd_flags cfg) flags f
                 (C_name_assign g true st)).
      unfold C_named at 2. cbn [existsb]. rewrite E. fold (C_named st (cmd_flags cfg) flags f).
      cbn [flag_at assign on].
      destruct (flag_ptr_eqb f g); cbn [on orb]; [now rewrite orb_true_r | reflexivity].
Qed.

(** The loop counts every token when it returns a count. *)
Lemma C_loop_known_count (cfg : Config) (flags : list string) (n : nat) (st : state) :
  forall m, fst (parseFlags_loop cfg flags n st) = Returned (Some m) ->
            m = n + length flags.
Proof.
  revert n st; induction flags as [|t flags IH]; intros n st m.
  - simpl. intros H. injection H as <-. now rewrite Nat.add_0_r.
  - cbn [parseFlags_loop]. rewrite bind_get.
    destruct (find_flag (fun f => _flag (flag_at st f)) (cmd_flags cfg) t) as [f|].
    + rewrite bind_modify. intros H. apply IH in H. cbn [length]. lia.
    + unfold print. rewrite bind_modify. cbn. discriminate.
Qed.

(** [parseFlags], whatever way it ends. *)
Lemma C_parseFlags_frame (cfg : Config) (flags : list string) (n : nat) (st : state) :
  let r := parseFlags cfg flags n st in
  (forall p, _flag (flag_at (snd r) p) = _flag (flag_at st p)) /\
  source (snd r) = source st /\ target (snd r) = target st /\
  _source (snd r) = _source st /\ _target (snd r) = _target st /\
  match fst r with
  | Returned true => cout (snd r) = cout st
  | Returned false =>
      exists t, In t flags /\ find_flag (C_name st) (cmd_flags cfg) t = None /\
                cout (snd r) = cout st ++ ("Error argument: Unknown flag " ++ t) ++ nl
  | Exited code =>
      (code = 1%Z /\ cout (snd r) = cout st ++ "Error argument: Too many arguments" ++ nl) \/
      (code = 0%Z /\ n = 0 /\ length flags <= 1 /\
       (cout (snd r) = cout st ++ text_help cfg ++ nl \/
        cout (snd r) = cout st ++ text_version cfg ++ nl))
  | Thrown _ => False
  end.
Proof.
  cbv zeta. unfold parseFlags. rewrite C_bind_run.
  destruct (C_loop_frame cfg flags 0 st) as (Hn & Hs & Ht & Hs' & Ht' & Hc).
  pose proof (C_loop_known_count cfg flags 0 st) as Hcount.
  cbv zeta in *.
  destruct (parseFlags_loop cfg flags 0 st) as [c st1]. cbn [fst snd] in *.
  destruct Hc as [(m & -> & Hc) | (t & -> & Hin & Hnone & Hc)].
  2:{ unfold ret. cbn [fst snd]. repeat split; try assumption. now exists t. }
  specialize (Hcount m eq_refl). cbn [Nat.add] in Hcount. subst m.
  rewrite bind_get.
  destruct (on (flag_at st1 help)) eqn:Eh; destruct (on (flag_at st1 version)) eqn:Ev;
    cbn [orb].
  4:{ unfold ret. cbn [fst snd]. repeat split; assumption. }
  all: destruct ((1 <? length flags)%nat || negb (n =? 0)%nat) eqn:Ecount;
    unfold print; rewrite ?bind_modify; unfold std_exit;
    cbn [fst snd flag_at source target _source _target cout write_cout];
    (split; [exact Hn |]); (split; [exact Hs |]); (split; [exact Ht |]);
    (split; [exact Hs' |]); (split; [exact Ht' |]);
    try (left; split; [reflexivity | now rewrite Hc]).
  all: apply orb_false_elim in Ecount; destruct Ecount as [E1 E2];
    apply Nat.ltb_ge in E1; apply negb_false_iff, Nat.eqb_eq in E2;
    right; rewrite Hc; repeat split; try assumption; auto.
Qed.

End CFacts.

Module CProps.
Import C C.CmdArgumentParser CFacts.

(** [CmdArgumentParser::parse], stage by stage. *)
Lemma C_parse_run (cfg : Config) (fs : FileSystem) (args : list string) (st : state) :
  CmdArgumentParser.parse cfg fs args st =
  match fst (check cfg st) with
  | Returned _ =>
      match parseFlags cfg (fst (tokenize args)) (length (snd (tokenize args)))
              (C_reset cfg st) with
      | (Returned true, st2) => parseFiles cfg fs (snd (tokenize args)) st2
      | (Returned false, st2) => (Returned false, st2)
      | (Exited code, st2) => (Exited code, st2)
      | (Thrown what, st2) => (Thrown what, st2)
      end
  | Exited code => (Exited code, C_reset cfg st)
  | Thrown what => (Thrown what, C_reset cfg st)
  end.
Proof.
  unfold CmdArgumentParser.parse, C_reset. unfold bind at 1.
  destruct (check cfg st) as [[[]|code|what] st1]; cbn [fst snd]; try reflexivity.
  destruct (tokenize args) as [flags files]. cbn [fst snd]. unfold bind.
  destruct (parseFlags cfg flags (length files) st1) as [[[|]|code|what] st2]; reflexivity.
Qed.

(** [parseFiles], its filesystem queries answered, returns; it writes
    nothing when it returns [true], one line that begins with "Error"
    when it returns [false], and publishes only when it returns [true]. *)
Lemma C_parseFiles_output (cfg : Config) (fs : FileSystem) (files : list string)
    (st : state) :
  let r := parseFiles cfg fs files st in
  flag_at (snd r) = flag_at st /\
  ((fst r = Returned true /\ cout (snd r) = cout st /\
    source (snd r) = _source (snd r) /\ target (snd r) = _target (snd r)) \/
   (fst r = Returned false /\
    source (snd r) = source st /\ target (snd r) = target st /\
    exists msg, cout (snd r) = cout st ++ msg ++ nl /\ prefix "Error" msg = true)).
Proof.
  cbv zeta. unfold parseFiles.
  destruct files as [|s [|t [|u files]]];
  repeat (run; try split_cond); finish_run;
    (split; [reflexivity |]);
    first [ left; repeat split; reflexivity
          | right; split; [reflexivity |]; split; [reflexivity |]; split; [reflexivity |];
            eexists; split; reflexivity ].
Qed.

(** What a call writes and publishes, completion by completion. *)
Lemma C_parse_output (cfg : Config) (fs : FileSystem) (args : list string) (st : state) :
  let (c, st') := CmdArgumentParser.parse cfg fs args st in
  match c with
  | Returned true =>
      cout st' = cout st /\ source st' = _source st' /\ target st' = _target st'
  | Returned false =>
      source st' = "" /\ target st' = "" /\
      exists msg, cout st' = cout st ++ msg ++ nl /\ prefix "Error" msg = true
  | Exited code =>
      source st' = "" /\ target st' = "" /\
      ((code = 1%Z /\
        cout st' = cout st ++ "Error argument: Too many arguments" ++ nl) \/
       (code = 0%Z /\
        snd (tokenize args) = [] /\ length (fst (tokenize args)) <= 1 /\
        (cout st' = cout st ++ text_help cfg ++ nl \/
         cout st' = cout st ++ text_version cfg ++ nl)))
  | Thrown _ => source st' = "" /\ target st' = "" /\ cout st' = cout st
  end.
Proof.
  rewrite C_parse_run.
  destruct (C_reset_facts cfg st) as (_ & _ & Rs & Rt & _ & _ & Ro).
  cbv zeta in *.
  destruct (C_check_completion cfg st) as [[Hbad [what Hw]] | [_ Hr]].
  { rewrite Hw. auto. }
  rewrite Hr.
  destruct (C_parseFlags_frame cfg (fst (tokenize args)) (length (snd (tokenize args)))
              (C_reset cfg st)) as (_ & Hs & Ht & _ & _ & Hc).
  cbv zeta in *.
  destruct (parseFlags cfg (fst (tokenize args)) (length (snd (tokenize args)))
              (C_reset cfg st)) as [[[|]|code|what] st2]; cbn [fst snd] in *.
  - destruct (C_parseFiles_output cfg fs (snd (tokenize args)) st2) as (_ & Hout).
    cbv zeta in Hout.
    destruct (parseFiles cfg fs (snd (tokenize args)) st2) as [c st'].
    cbn [fst snd] in *.
    destruct Hout as [(-> & H1 & H2 & H3) | (-> & H1 & H2 & msg & H3 & H4)].
    + repeat split; congruence.
    + split; [congruence |]. split; [congruence |]. exists msg. split; [congruence | exact H4].
  - destruct Hc as (t & _ & _ & Hc).
    split; [congruence |]. split; [congruence |].
    exists ("Error argument: Unknown flag " ++ t). split; [congruence | reflexivity].
  - split; [congruence |]. split; [congruence |].
    destruct Hc as [(-> & Hc) | (-> & Hn & Hl & Hc)].
    + left. split; [reflexivity | congruence].
    + right. split; [reflexivity |].
      split; [destruct (snd (tokenize args)); [reflexivity | discriminate] |].
      split; [exact Hl |]. rewrite <- Ro. exact Hc.
  - destruct Hc.
Qed.

(** The help/version short-circuit of revision C, for flag tokens that
    are all known. *)
Lemma C_help_version (cfg : Config) (fs : FileSystem) (args : list string) (st : state) :
  ~ C_misconfigured cfg ->
  C_all_known st (cmd_flags cfg) (fst (tokenize args)) ->
  C_named st (cmd_flags cfg) (fst (tokenize args)) help
  || C_named st (cmd_flags cfg) (fst (tokenize args)) version = true ->
  let (c, st') := CmdArgumentParser.parse cfg fs args st in
  source st' = "" /\ target st' = "" /\
  (1 < length (fst (tokenize args)) \/ snd (tokenize args) <> [] ->
     c = Exited 1%Z /\
     cout st' = cout st ++ "Error argument: Too many arguments" ++ nl) /\
  (length (fst (tokenize args)) = 1 /\ snd (tokenize args) = [] ->
     c = Exited 0%Z /\
     cout st' = cout st ++
                  (if C_named st (cmd_flags cfg) (fst (tokenize args)) help
                   then text_help cfg else text_version cfg) ++ nl).
Proof.
  intros Hok Hk Hhv. rewrite C_parse_run.
  destruct (C_reset_facts cfg st) as (Rn & Ron & Rs & Rt & _ & _ & Ro).
  cbv zeta in *.
  destruct (C_check_completion cfg st) as [[Hbad _] | [_ Hr]]; [tauto |].
  rewrite Hr.
  assert (Hnames : forall g, C_name (C_reset cfg st) g = C_name st g)
    by (intros g; unfold C_name; apply Rn).
  assert (Hk' : C_all_known (C_reset cfg st) (cmd_flags cfg) (fst (tokenize args))).
  { intros u Hu. rewrite (@C_find_flag_ext _ _ (cmd_flags cfg) u Hnames). now apply Hk. }
  destruct (@C_loop_known cfg (fst (tokenize args)) 0 (C_reset cfg st) Hk')
    as (Hloop & Hc & Hon).
  cbv zeta in *.
  assert (Hreg : contains flag_ptr_eqb (cmd_flags cfg) help = true /\
                 contains flag_ptr_eqb (cmd_flags cfg) version = true).
  { split.
    - destruct (contains flag_ptr_eqb (cmd_flags cfg) help) eqn:E; [reflexivity | exfalso].
      apply Hok. right; right; right; left.
      intros Hin. apply C_contains_flag_In in Hin. congruence.
    - destruct (contains flag_ptr_eqb (cmd_flags cfg) version) eqn:E; [reflexivity | exfalso].
      apply Hok. right; right; right; right; left.
      intros Hin. apply C_contains_flag_In in Hin. congruence. }
  destruct Hreg as [Rh Rv].
  destruct (C_loop_frame cfg (fst (tokenize args)) 0 (C_reset cfg st))
    as (_ & Hs & Ht & _).
  cbv zeta in *.
  unfold parseFlags. rewrite C_bind_run.
  destruct (parseFlags_loop cfg (fst (tokenize args)) 0 (C_reset cfg st)) as [c1 st1].
  cbn [fst snd] in *. subst c1. rewrite bind_get.
  rewrite !Hon, !Ron, Rh, Rv.
  rewrite !(fun f => @C_named_ext (C_reset cfg st) st (cmd_flags cfg) (fst (tokenize args)) f Hnames).
  cbn [orb]. rewrite Hhv. cbn [Nat.add].
  destruct ((1 <? length (fst (tokenize args)))%nat
            || negb (length (snd (tokenize args)) =? 0)%nat) eqn:Ecount.
  - unfold print. rewrite bind_modify. unfold std_exit.
    cbn [source target cout write_cout].
    split; [congruence |]. split; [congruence |]. split.
    + intros _. split; [reflexivity | congruence].
    + intros [Hone Hnil]. rewrite Hone, Hnil in Ecount. discriminate.
  - apply orb_false_elim in Ecount. destruct Ecount as [E1 E2].
    apply Nat.ltb_ge in E1. apply negb_false_iff, Nat.eqb_eq in E2.
    destruct (C_named st (cmd_flags cfg) (fst (tokenize args)) help) eqn:Eh.
    + unfold print. rewrite bind_modify. unfold std_exit.
      cbn [source target cout write_cout].
      split; [congruence |]. split; [congruence |]. split.
      * intros [Hgt | Hne]; [lia |].
        destruct (snd (tokenize args)); [tauto | discriminate].
      * intros _. split; [reflexivity | congruence].
    + cbn [orb] in Hhv. rewrite Hhv.
      unfold print. rewrite bind_modify. unfold std_exit.
      cbn [source target cout write_cout].
      split; [congruence |]. split; [congruence |]. split.
      * intros [Hgt | Hne]; [lia |].
        destruct (snd (tokenize args)); [tauto | discriminate].
      * intros _. split; [reflexivity | congruence].
Qed.

(** A command line without flag tokens goes straight to [parseFiles]. *)
Lemma C_parse_no_flags (cfg : Config) (fs : FileSystem) (args : list string) (st : state) :
  ~ C_misconfigured cfg -> fst (tokenize args) = [] ->
  CmdArgumentParser.parse cfg fs args st =
  parseFiles cfg fs (snd (tokenize args)) (C_reset cfg st).
Proof.
  intros Hok Hnil. rewrite C_parse_run.
  destruct (C_check_completion cfg st) as [[Hbad _] | [_ Hr]]; [tauto |].
  rewrite Hr, Hnil. unfold parseFlags. cbn [parseFlags_loop].
  unfold ret at 1. rewrite C_bind_run, bind_get.
  destruct (C_reset_facts cfg st) as (_ & Ron & _). cbv zeta in Ron.
  rewrite !Ron.
  assert (Rh : contains flag_ptr_eqb (cmd_flags cfg) help = true).
  { destruct (contains flag_ptr_eqb (cmd_flags cfg) help) eqn:E; [reflexivity | exfalso].
    apply Hok. right; right; right; left.
    intros Hin. apply C_contains_flag_In in Hin. congruence. }
  assert (Rv : contains flag_ptr_eqb (cmd_flags cfg) version = true).
  { destruct (contains flag_ptr_eqb (cmd_flags cfg) version) eqn:E; [reflexivity | exfalso].
    apply Hok. right; right; right; right; left.
    intros Hin. apply C_contains_flag_In in Hin. congruence. }
  rewrite Rh, Rv. reflexivity.
Qed.

End CProps.

Module AC.

Ltac run :=
  repeat first
    [ rewrite bind_modify
    | rewrite bind_get
    | progress cbn [A.flag_at A.source A.target A._source A._target A.cout A.cerr
                    A.set_source A.set_target A.set__source A.set__target
                    A.write_cout A.write_cerr
                    C.flag_at C.source C.target C._source C._target C.cout
                    C.set_source C.set_target C.set__source C.set__target
                    C.write_cout fst snd nth length
                    vector_empty Nat.ltb Nat.leb Nat.eqb negb andb orb]
    | progress cbv zeta ].

Ltac split_cond :=
  match goal with
  | |- context [if ?c then _ else _] =>
      lazymatch c with
      | context [A.set__source] => fail
      | context [A.set__target] => fail
      | context [C.set__source] => fail
      | context [C.set__target] => fail
      | context [if _ then _ else _] => fail
      | _ => CFacts.split_atom c
      end
  end.

Ltac finish_run :=
  unfold A.CmdArgumentParser.err, C.CmdArgumentParser.print, ret; run.

(** The file stage of [src/CmdArgs.h] against that of revision C: the
    same completion, the same members, the same published paths; the
    same line, on [std::cerr] in the one and on [std::cout] in the
    other, but for the spelling of "Too many arguments". *)
Lemma AC_parseFiles (cfgA : Config) (cfgC : C.Config) (fs : FileSystem)
    (files : list string) (stA : A.state) (stC : C.state) :
  source_ext cfgA = C.source_ext cfgC -> target_ext cfgA = C.target_ext cfgC ->
  A._source stA = C._source stC -> A._target stA = C._target stC ->
  A.source stA = C.source stC -> A.target stA = C.target stC ->
  let rA := A.CmdArgumentParser.parseFiles cfgA fs files stA in
  let rC := C.CmdArgumentParser.parseFiles cfgC fs files stC in
  fst rA = fst rC /\
  A._source (snd rA) = C._source (snd rC) /\ A._target (snd rA) = C._target (snd rC) /\
  A.source (snd rA) = C.source (snd rC) /\ A.target (snd rA) = C.target (snd rC) /\
  A.cout (snd rA) = A.cout stA /\
  exists w, A.cerr (snd rA) = A.cerr stA ++ w /\
            (C.cout (snd rC) = C.cout stC ++ w \/
             (w = "Error: " ++ "argument: Too many arguments" ++ nl /\
              C.cout (snd rC) = C.cout stC ++ "Error argument: Too many arguments" ++ nl)).
Proof.
  intros Hse Hte Hs' Ht' Hs Ht. cbv zeta.
  unfold A.CmdArgumentParser.parseFiles, C.CmdArgumentParser.parseFiles,
    defaultTargetExt, C.defaultTargetExt.
  rewrite Hse, Hte.
  destruct files as [|s [|t [|u files]]];
  repeat (run; try split_cond); finish_run;
    (split; [reflexivity |]);
    (split; [first [reflexivity | assumption] |]);
    (split; [first [reflexivity | assumption] |]);
    (split; [first [reflexivity | assumption] |]);
    (split; [first [reflexivity | assumption] |]);
    (split; [reflexivity |]);
    first [ exists ""; rewrite !append_nil_r; split; [reflexivity | left; reflexivity]
          | eexists; split; [reflexivity | left; reflexivity]
          | eexists; split; [reflexivity | right; split; reflexivity] ].
Qed.

End AC.

(* ================================================================== *)
(** * Further properties, on the functions a program calls *)

(** ** The helpers *)

(** X1. [cmd::tolower] changes nothing in a string it has produced, keeps
    the length of a string, and lowers a concatenation piece by piece. *)
Theorem tolower_twice_is_tolower (s t : string) :
  tolower (tolower s) = tolower s /\
  String.length (tolower s) = String.length s /\
  tolower (s ++ t) = tolower s ++ tolower t.
Proof.
  split; [apply tolower_idempotent |].
  split; [apply tolower_length | apply tolower_app].
Qed.

(** X2. [cmd::getExtension] does not depend on the case of the path, and
    what it returns is in lower case and holds neither a dot nor a
    directory separator: an entry of an extension list that holds an upper
    case letter or a dot is never matched. *)
Theorem getExtension_is_lowercase_and_plain (p : path) :
  getExtension (tolower p) = getExtension p /\
  tolower (getExtension p) = getExtension p /\
  occurs Path.dot (getExtension p) = false /\
  occurs Path.sep (getExtension p) = false /\
  (forall (l : list string),
     contains String.eqb l (getExtension p) = true ->
     exists e, In e l /\ getExtension p = e /\ tolower e = e /\ occurs Path.dot e = false).
Proof.
  assert (Hlow : tolower (getExtension p) = getExtension p /\
                 occurs Path.dot (getExtension p) = false /\
                 occurs Path.sep (getExtension p) = false).
  { destruct (extension_shape p) as [E | (t & E & Hd & Hs)].
    - unfold getExtension. rewrite E. repeat split; reflexivity.
    - rewrite (getExtension_dotted p E).
      rewrite tolower_idempotent, occurs_tolower_dot, occurs_tolower_sep. auto. }
  destruct Hlow as (H1 & H2 & H3).
  split; [| repeat split; try assumption].
  - unfold getExtension. now rewrite extension_tolower, tolower_idempotent.
  - intros l Hl. apply contains_In in Hl.
    exists (getExtension p). auto.
Qed.

(** X3. [cmd::join] of two vectors that are not empty, appended, is the
    join of the first, the delimiter, and the join of the second: the
    delimiter stands between the elements only, never after the last. *)
Theorem join_of_concatenation (v w : list string) (delim : string) :
  v <> [] -> w <> [] ->
  join (v ++ w)%list delim = join v delim ++ delim ++ join w delim.
Proof. apply join_app. Qed.

Lemma join_of_concatenation_witness :
  join (["txt"; "csv"] ++ ["json"])%list ", " = join ["txt"; "csv"] ", " ++ ", " ++ join ["json"] ", ".
Proof.
  apply (@join_of_concatenation ["txt"; "csv"] ["json"] ", "); discriminate.
Defined.

(** X4. The loop of [CmdArgumentParser::parse] over [argv] sorts the
    arguments without reordering them: the flag tokens are the arguments
    that begin with ['-'] (an argument that is just a dash is one), the
    positional tokens the other arguments that are not empty, each in the
    order of the command line; so the tokens of a concatenated command
    line are the tokens of its parts, and every argument that is not empty
    is a token of exactly one kind. *)
Theorem tokenize_keeps_the_order (args more : list string) :
  tokenize args = (filter flag_token args, filter file_token args) /\
  tokenize (args ++ more)%list =
    ((fst (tokenize args) ++ fst (tokenize more))%list,
     (snd (tokenize args) ++ snd (tokenize more))%list) /\
  (forall t, In t args -> t <> "" ->
     (In t (fst (tokenize args)) /\ ~ In t (snd (tokenize args))) \/
     (In t (snd (tokenize args)) /\ ~ In t (fst (tokenize args)))).
Proof.
  split; [apply tokenize_filter |]. split.
  - rewrite !tokenize_filter. cbn [fst snd]. now rewrite !filter_app.
  - intros t Hin Hne. rewrite tokenize_filter. cbn [fst snd].
    rewrite !filter_In.
    destruct t as [|c r]; [congruence |]. cbn [flag_token file_token].
    destruct (Ascii.eqb c "-"); cbn [negb]; [left | right];
      (split; [now split | intros [_ H]; discriminate]).
Qed.

(** X5. The lookup of [parseFlags] finds a registered flag under both
    spellings, [-name] and [--name]; when the registered names differ from
    one another and none begins with ['-'], the flag found is that very
    flag.  A token is unknown exactly when it is neither spelling of any
    registered name (the comparison is exact: a name in another case is
    another name). *)
Theorem both_spellings_select_the_flag (name : flag_ptr -> string)
    (registry : list flag_ptr) (f : flag_ptr) :
  In f registry ->
  (exists g, find_flag name registry ("-" ++ name f) = Some g) /\
  (exists g, find_flag name registry ("--" ++ name f) = Some g) /\
  (plain_names name registry ->
     find_flag name registry ("-" ++ name f) = Some f /\
     find_flag name registry ("--" ++ name f) = Some f) /\
  (forall flag, find_flag name registry flag = None <->
     forall g, In g registry -> flag <> "-" ++ name g /\ flag <> "--" ++ name g).
Proof.
  intros Hf.
  split; [apply (@find_flag_registered name registry f _ Hf); now left |].
  split; [apply (@find_flag_registered name registry f _ Hf); now right |].
  split.
  - intros Hp. split.
    + apply (@find_flag_plain name registry f _ Hp Hf). now left.
    + apply (@find_flag_plain name registry f _ Hp Hf). now right.
  - intros flag. apply find_flag_None.
Qed.

Lemma both_spellings_select_the_flag_witness :
  find_flag (A_name A.initial) (cmd_flags demo) "--version" = Some version /\
  find_flag (B_name B.initial) (cmd_flags demo) "-help" = Some help /\
  find_flag (A_name A.initial) (cmd_flags demo) "-HELP" = None.
Proof.
  assert (HA : plain_names (A_name A.initial) (cmd_flags demo)).
  { split; [| intros g _; destruct g; reflexivity].
    vm_compute. repeat constructor; simpl; intuition discriminate. }
  assert (HB : plain_names (B_name B.initial) (cmd_flags demo)).
  { split; [| intros g _; destruct g; reflexivity].
    vm_compute. repeat constructor; simpl; intuition discriminate. }
  assert (Iv : In version (cmd_flags demo)) by (simpl; auto).
  assert (Ih : In help (cmd_flags demo)) by (simpl; auto).
  split; [| split].
  - exact (proj2 (proj1 (proj2 (proj2
             (@both_spellings_select_the_flag (A_name A.initial) (cmd_flags demo) version Iv)))
             HA)).
  - exact (proj1 (proj1 (proj2 (proj2
             (@both_spellings_select_the_flag (B_name B.initial) (cmd_flags demo) help Ih)))
             HB)).
  - apply (proj2 (proj2 (proj2
             (@both_spellings_select_the_flag (A_name A.initial) (cmd_flags demo) help Ih)))).
    intros g _. destruct g; split; discriminate.
Defined.

(** ** The flags *)

(** X6. In both revisions, on a configuration the check accepts, a flag
    token that names no registered flag makes the call return failure:
    the first such token is reported as "Error: argument: Unknown flag
    ..." on [std::cerr], nothing goes to [std::cout], nothing is
    published, and neither the positional tokens nor the filesystem are
    looked at.  The flags named before that token stay switched on. *)
Theorem unknown_flag_is_reported (cfg : Config) (fs : FileSystem) (args : list string)
    (t : string) :
  (forall st : A.state,
     ~ (misconfigured cfg \/ identical_extension_lists cfg) ->
     unknown_flag (A_name st) (cmd_flags cfg) (fst (tokenize args)) = Some t ->
     let (c, st') := A.parse cfg fs args st in
     c = Returned false /\
     A.cerr st' = A.cerr st ++ "Error: " ++ ("argument: Unknown flag " ++ t) ++ nl /\
     A.cout st' = A.cout st /\ A.source st' = "" /\ A.target st' = "" /\
     In t args /\ find_flag (A_name st) (cmd_flags cfg) t = None /\
     (forall f, In f (matched_flags (A_name st) (cmd_flags cfg) (fst (tokenize args))) ->
        A.on (A.flag_at st' f) = true)) /\
  (forall st : B.state,
     ~ misconfigured cfg ->
     unknown_flag (B_name st) (cmd_flags cfg) (fst (tokenize args)) = Some t ->
     let (c, st') := B.parse cfg fs args st in
     c = Returned false /\
     B.cerr st' = B.cerr st ++ "Error: " ++ ("argument: Unknown flag " ++ t) ++ nl /\
     B.cout st' = B.cout st /\ B.source st' = "" /\ B.target st' = "" /\
     In t args /\ find_flag (B_name st) (cmd_flags cfg) t = None /\
     (forall f, In f (matched_flags (B_name st) (cmd_flags cfg) (fst (tokenize args))) ->
        B.on (B.flag_at st' f) = true)).
Proof.
  split; intros st Hok Hun.
  - pose proof (@AMore.A_unknown_reported cfg fs args t (A_fresh st) Hok Hun) as H.
    assert (Hon : forall f,
              In f (matched_flags (A_name st) (cmd_flags cfg) (fst (tokenize args))) ->
              A.on (A.flag_at (snd (A.parse cfg fs args st)) f) = true).
    { intros f Hf.
      assert (Hreg : In f (cmd_flags cfg)) by (apply matched_flags_In in Hf; tauto).
      rewrite AProps.A_parse_fresh, (@AMore.A_flag_values cfg fs args (A_fresh st) f Hok Hreg).
      apply among_In in Hf. change (A_name (A_fresh st)) with (A_name st).
      rewrite Hf. apply orb_true_r. }
    destruct (unknown_flag_Some _ _ _ Hun) as [Hin Hnone].
    apply tokenize_flags_In in Hin.
    change (A.CmdArgumentParser.parse cfg fs args (A_fresh st))
      with (A.parse cfg fs args st) in H.
    destruct (A.parse cfg fs args st) as [c st'].
    destruct H as (H1 & H2 & H3 & H4 & H5). repeat split; assumption.
  - pose proof (@BMore.B_unknown_reported cfg fs args t (B_fresh st) Hok Hun) as H.
    assert (Hon : forall f,
              In f (matched_flags (B_name st) (cmd_flags cfg) (fst (tokenize args))) ->
              B.on (B.flag_at (snd (B.parse cfg fs args st)) f) = true).
    { intros f Hf.
      assert (Hreg : In f (cmd_flags cfg)) by (apply matched_flags_In in Hf; tauto).
      rewrite BProps.B_parse_fresh, (@BMore.B_flag_values cfg fs args (B_fresh st) f Hok Hreg).
      apply among_In in Hf. change (B_name (B_fresh st)) with (B_name st).
      rewrite Hf. apply orb_true_r. }
    destruct (unknown_flag_Some _ _ _ Hun) as [Hin Hnone].
    apply tokenize_flags_In in Hin.
    change (B.CmdArgumentParser.parse cfg fs args (B_fresh st))
      with (B.parse cfg fs args st) in H.
    destruct (B.parse cfg fs args st) as [c st'].
    destruct H as (H1 & H2 & H3 & H4 & H5). repeat split; assumption.
Qed.

(** [-translate -bogus source.txt]: the message names [-bogus], and
    [translate] stays on although the call fails. *)
Lemma unknown_flag_is_reported_witness :
  let (c, st') := B.parse demo demo_fs ["-translate"; "-bogus"; "source.txt"] B.initial in
  c = Returned false /\
  B.cerr st' = B.cerr B.initial ++ "Error: " ++ ("argument: Unknown flag " ++ "-bogus") ++ nl /\
  B.cout st' = B.cout B.initial /\ B.source st' = "" /\ B.target st' = "" /\
  In "-bogus" ["-translate"; "-bogus"; "source.txt"] /\
  find_flag (B_name B.initial) (cmd_flags demo) "-bogus" = None /\
  (forall f, In f (matched_flags (B_name B.initial) (cmd_flags demo)
                     (fst (tokenize ["-translate"; "-bogus"; "source.txt"]))) ->
     B.on (B.flag_at st' f) = true).
Proof.
  assert (Hun : unknown_flag (B_name B.initial) (cmd_flags demo)
                  (fst (tokenize ["-translate"; "-bogus"; "source.txt"])) = Some "-bogus")
    by (vm_compute; reflexivity).
  exact (proj2 (@unknown_flag_is_reported demo demo_fs ["-translate"; "-bogus"; "source.txt"]
                  "-bogus") B.initial demo_not_misconfigured Hun).
Defined.

(** X7. In both revisions, on a configuration the check accepts, the
    value of a registered flag after a call of parse, however the call
    ends, is its default or-ed with "a flag token before the first unknown
    one named it": the arguments can switch a flag on and never off, and a
    flag that is on by default ([convert]) reads as on after every call.
    The default is the value the flag is declared with: in revision B,
    where the flag object stores it, this is so in the state after static
    initialisation and in every state whose flag objects hold what their
    declarations stored. *)
Theorem flags_are_only_switched_on (cfg : Config) (fs : FileSystem) (args : list string)
    (f : flag_ptr) :
  In f (cmd_flags cfg) ->
  (forall st : A.state,
     ~ (misconfigured cfg \/ identical_extension_lists cfg) ->
     A.on (A.flag_at (snd (A.parse cfg fs args st)) f) =
     A_default f || among (matched_flags (A_name st) (cmd_flags cfg) (fst (tokenize args))) f) /\
  (forall st : B.state,
     ~ misconfigured cfg ->
     B.on (B.flag_at (snd (B.parse cfg fs args st)) f) =
     B_default st f || among (matched_flags (B_name st) (cmd_flags cfg) (fst (tokenize args))) f) /\
  (forall g, B_default B.initial g = B.on (B.declared g)) /\
  (forall st : B.state,
     (forall g, B_default st g = B.on (B.declared g)) ->
     ~ misconfigured cfg ->
     B.on (B.flag_at (snd (B.parse cfg fs args st)) f) =
     B.on (B.declared f)
     || among (matched_flags (B_name st) (cmd_flags cfg) (fst (tokenize args))) f).
Proof.
  intros Hf. split; [| split; [| split]].
  - intros st Hok. exact (@AMore.A_flag_values cfg fs args (A_fresh st) f Hok Hf).
  - intros st Hok. exact (@BMore.B_flag_values cfg fs args (B_fresh st) f Hok Hf).
  - intros g. destruct g; reflexivity.
  - intros st Hdecl Hok. rewrite <- (Hdecl f).
    exact (@BMore.B_flag_values cfg fs args (B_fresh st) f Hok Hf).
Qed.

(** The program switches [convert] off and calls parse without naming
    it: [convert], declared on, is on after the call, in both revisions;
    [translate], declared off, is on after a call that names it and fails
    on its source, and off after a call that does not name it. *)
Lemma flags_are_only_switched_on_witness :
  A.on (A.flag_at (snd (A.parse demo demo_fs ["-translate"; "source.txt"]
                          (A.assign convert false A.initial))) convert) = true /\
  B.on (B.flag_at (snd (B.parse demo demo_fs ["-translate"; "source.txt"]
                          (B.assign convert false B.initial))) convert) = true /\
  B.on (B.flag_at (snd (B.parse demo demo_fs ["--translate"; "missing.txt"] B.initial))
          translate) = true /\
  B.on (B.flag_at (snd (B.parse demo demo_fs ["missing.txt"] B.initial)) translate) = false.
Proof.
  assert (Ic : In convert (cmd_flags demo)) by (simpl; auto).
  assert (It : In translate (cmd_flags demo)) by (simpl; auto).
  assert (D0 : forall g, B_default (B.assign convert false B.initial) g = B.on (B.declared g))
    by (intros g; destruct g; reflexivity).
  assert (D1 : forall g, B_default B.initial g = B.on (B.declared g))
    by (intros g; destruct g; reflexivity).
  split; [| split; [| split]].
  - exact (eq_trans
             (proj1 (@flags_are_only_switched_on demo demo_fs ["-translate"; "source.txt"]
                       convert Ic) (A.assign convert false A.initial) demo_well_configured)
             (eq_refl : A_default convert
                        || among (matched_flags (A_name (A.assign convert false A.initial))
                                    (cmd_flags demo)
                                    (fst (tokenize ["-translate"; "source.txt"]))) convert
                        = true)).
  - exact (eq_trans
             (proj2 (proj2 (proj2 (@flags_are_only_switched_on demo demo_fs
                                     ["-translate"; "source.txt"] convert Ic)))
                (B.assign convert false B.initial) D0 demo_not_misconfigured)
             (eq_refl : B.on (B.declared convert)
                        || among (matched_flags (B_name (B.assign convert false B.initial))
                                    (cmd_flags demo)
                                    (fst (tokenize ["-translate"; "source.txt"]))) convert
                        = true)).
  - exact (eq_trans
             (proj2 (proj2 (proj2 (@flags_are_only_switched_on demo demo_fs
                                     ["--translate"; "missing.txt"] translate It)))
                B.initial D1 demo_not_misconfigured)
             (eq_refl : B.on (B.declared translate)
                        || among (matched_flags (B_name B.initial) (cmd_flags demo)
                                    (fst (tokenize ["--translate"; "missing.txt"]))) translate
                        = true)).
  - exact (eq_trans
             (proj2 (proj2 (proj2 (@flags_are_only_switched_on demo demo_fs
                                     ["missing.txt"] translate It)))
                B.initial D1 demo_not_misconfigured)
             (eq_refl : B.on (B.declared translate)
                        || among (matched_flags (B_name B.initial) (cmd_flags demo)
                                    (fst (tokenize ["missing.txt"]))) translate
                        = false)).
Defined.

(** X8. In both revisions a call of parse changes neither the name of a
    flag nor, in revision B, the default its constructor stored: only the
    switch of a flag is written. *)
Theorem flag_names_are_constant (cfg : Config) (fs : FileSystem) (args : list string)
    (f : flag_ptr) :
  (forall st : A.state, A_name (snd (A.parse cfg fs args st)) f = A_name st f) /\
  (forall st : B.state,
     B_name (snd (B.parse cfg fs args st)) f = B_name st f /\
     B_default (snd (B.parse cfg fs args st)) f = B_default st f).
Proof.
  split; intros st.
  - exact (AMore.A_parse_names cfg fs args (A_fresh st) f).
  - split.
    + exact (BMore.B_parse_names cfg fs args (B_fresh st) f).
    + exact (BProps.B_parse_keeps_default cfg fs args (B_fresh st) f).
Qed.

(** ** The outcome of a call *)

(** X9. In both revisions a call of parse returns [true] exactly when
    the configuration is accepted, every flag token names a registered
    flag, none of them names help or version (which, in revision B, are off
    by default), and the positional tokens are either one directory, or
    resolve to a source and a target that differ when case is ignored (in
    revision B the extension of the target must be an accepted one as
    well). *)
Theorem success_is_characterised (cfg : Config) (fs : FileSystem) (args : list string) :
  (forall st : A.state,
     fst (A.parse cfg fs args st) = Returned true <->
     ~ (misconfigured cfg \/ identical_extension_lists cfg) /\
     unknown_flag (A_name st) (cmd_flags cfg) (fst (tokenize args)) = None /\
     ~ In help (matched_flags (A_name st) (cmd_flags cfg) (fst (tokenize args))) /\
     ~ In version (matched_flags (A_name st) (cmd_flags cfg) (fst (tokenize args))) /\
     A_files_accepted cfg fs (snd (tokenize args))) /\
  (forall st : B.state,
     fst (B.parse cfg fs args st) = Returned true <->
     ~ misconfigured cfg /\
     unknown_flag (B_name st) (cmd_flags cfg) (fst (tokenize args)) = None /\
     ~ In help (matched_flags (B_name st) (cmd_flags cfg) (fst (tokenize args))) /\
     ~ In version (matched_flags (B_name st) (cmd_flags cfg) (fst (tokenize args))) /\
     B_default st help = false /\ B_default st version = false /\
     B_files_accepted cfg fs (snd (tokenize args))).
Proof.
  split; intros st.
  - rewrite AProps.A_parse_fresh, (AMore.A_parse_true_iff cfg fs args (A_fresh st)).
    rewrite (A_flags_accepted_iff cfg args (A_fresh st)).
    change (A_name (A_fresh st)) with (A_name st). tauto.
  - rewrite BProps.B_parse_fresh, (BMore.B_parse_true_iff cfg fs args (B_fresh st)).
    rewrite (B_flags_accepted_iff cfg args (B_fresh st)).
    change (B_name (B_fresh st)) with (B_name st).
    change (B_default (B_fresh st)) with (B_default st). tauto.
Qed.

(** X10. In both revisions, when [CmdArgumentParser::parse] returns
    [true], on any parser object, the published source is not empty and is
    the member [_source], which [source()] returns.  Either the source is
    a directory and an argument as written, or it exists, has an accepted
    extension and differs from the target when case is ignored (in
    revision B the extension of the target is an accepted one); in this
    second case the published target is the member [_target], which
    [target()] returns.  For a directory the revisions differ: revision
    A publishes the member [_target] as the object had it before the call;
    revision B publishes an empty target and leaves the member as it was,
    so that [target()] need not be the published target.  With
    [cmd::parse], which constructs its parser, the target of a directory
    is empty in both revisions. *)
Theorem success_postcondition (cfg : Config) (fs : FileSystem) (args : list string) :
  (forall st : A.state,
     fst (A.CmdArgumentParser.parse cfg fs args st) = Returned true ->
     let st' := snd (A.CmdArgumentParser.parse cfg fs args st) in
     A.source st' <> "" /\ In (A.source st') args /\
     A._source st' = A.source st' /\ A._target st' = A.target st' /\
     ((is_directory fs (A.source st') = true /\ A.target st' = A._target st) \/
      (exists_ fs (A.source st') = true /\
       In (getExtension (A.source st')) (source_ext cfg) /\
       tolower (A.source st') <> tolower (A.target st')))) /\
  (forall st : B.state,
     fst (B.CmdArgumentParser.parse cfg fs args st) = Returned true ->
     let st' := snd (B.CmdArgumentParser.parse cfg fs args st) in
     B.source st' <> "" /\
     B._source st' = B.source st' /\
     ((is_directory fs (B.source st') = true /\ In (B.source st') args /\
       B.target st' = "" /\ B._target st' = B._target st) \/
      (exists_ fs (B.source st') = true /\
       In (getExtension (B.source st')) (source_ext cfg) /\
       tolower (B.source st') <> tolower (B.target st') /\
       In (getExtension (B.target st')) (target_ext cfg) /\
       B._target st' = B.target st'))) /\
  (forall st : A.state,
     fst (A.parse cfg fs args st) = Returned true ->
     let st' := snd (A.parse cfg fs args st) in
     A.source st' <> "" /\ In (A.source st') args /\
     ((is_directory fs (A.source st') = true /\ A.target st' = "") \/
      (exists_ fs (A.source st') = true /\
       In (getExtension (A.source st')) (source_ext cfg) /\
       tolower (A.source st') <> tolower (A.target st')))) /\
  (forall st : B.state,
     fst (B.parse cfg fs args st) = Returned true ->
     let st' := snd (B.parse cfg fs args st) in
     B.source st' <> "" /\
     ((is_directory fs (B.source st') = true /\ In (B.source st') args /\
       B.target st' = "") \/
      (exists_ fs (B.source st') = true /\
       In (getExtension (B.source st')) (source_ext cfg) /\
       tolower (B.source st') <> tolower (B.target st') /\
       In (getExtension (B.target st')) (target_ext cfg)))).
Proof.
  assert (HA : forall st : A.state,
            fst (A.CmdArgumentParser.parse cfg fs args st) = Returned true ->
            let st' := snd (A.CmdArgumentParser.parse cfg fs args st) in
            A.source st' <> "" /\ In (A.source st') args /\
            A._source st' = A.source st' /\ A._target st' = A.target st' /\
            ((is_directory fs (A.source st') = true /\ A.target st' = A._target st) \/
             (exists_ fs (A.source st') = true /\
              In (getExtension (A.source st')) (source_ext cfg) /\
              tolower (A.source st') <> tolower (A.target st')))).
  { intros st Htrue; cbv zeta.
    pose proof (proj1 (AMore.A_parse_true_iff cfg fs args st) Htrue) as [Hacc _].
    rewrite (AFacts.A_parse_accepted fs Hacc) in *.
    destruct (AFacts.A_after_flags_facts Hacc) as (_ & _ & _ & Ht' & _).
    cbv zeta in Ht'.
    pose proof (@AMore.A_parseFiles_post cfg fs (snd (tokenize args))
                  (A_after_flags cfg args st) Htrue) as Hpost.
    pose proof (@AMore.A_parseFiles_members cfg fs (snd (tokenize args))
                  (A_after_flags cfg args st) Htrue) as Hmem.
    cbv zeta in Hpost, Hmem.
    destruct (A.CmdArgumentParser.parseFiles cfg fs (snd (tokenize args))
                (A_after_flags cfg args st)) as [c st'].
    cbn [fst snd] in *. subst c.
    destruct Hmem as (Hs & Ht).
    destruct Hpost as (Hne & Hsrc & Hcases).
    assert (Htok : In (A.source st') (snd (tokenize args))).
    { rewrite Hsrc. destruct (snd (tokenize args)); [congruence | now left]. }
    apply tokenize_files_In in Htok. destruct Htok as [Hin Hnonempty].
    repeat split; try assumption.
    destruct Hcases as [[Hd Hte] | (He & Hx & Hdiff)].
    + left. split; [assumption | congruence].
    + right. repeat split; try assumption. now apply contains_In. }
  assert (HB : forall st : B.state,
            fst (B.CmdArgumentParser.parse cfg fs args st) = Returned true ->
            let st' := snd (B.CmdArgumentParser.parse cfg fs args st) in
            B.source st' <> "" /\
            B._source st' = B.source st' /\
            ((is_directory fs (B.source st') = true /\ In (B.source st') args /\
              B.target st' = "" /\ B._target st' = B._target st) \/
             (exists_ fs (B.source st') = true /\
              In (getExtension (B.source st')) (source_ext cfg) /\
              tolower (B.source st') <> tolower (B.target st') /\
              In (getExtension (B.target st')) (target_ext cfg) /\
              B._target st' = B.target st'))).
  { intros st Htrue; cbv zeta.
    pose proof (proj1 (BMore.B_parse_true_iff cfg fs args st) Htrue) as [Hacc _].
    rewrite (BFacts.B_parse_accepted fs Hacc) in *.
    destruct (BFacts.B_after_flags_facts Hacc) as (_ & _ & _ & Ht' & _).
    cbv zeta in Ht'.
    pose proof (@BMore.B_parseFiles_post cfg fs (snd (tokenize args))
                  (B_after_flags cfg args st) Htrue) as Hpost.
    pose proof (@BMore.B_parseFiles_members cfg fs (snd (tokenize args))
                  (B_after_flags cfg args st) Htrue) as Hmem.
    cbv zeta in Hpost, Hmem.
    destruct (B.CmdArgumentParser.parseFiles cfg fs (snd (tokenize args))
                (B_after_flags cfg args st)) as [c st'].
    cbn [fst snd] in *. subst c.
    destruct Hmem as (Hs & Hmem).
    destruct Hpost as (Hne & Hcases).
    assert (Htok : In (nth 0 (snd (tokenize args)) "") (snd (tokenize args))).
    { destruct (snd (tokenize args)); [congruence | now left]. }
    apply tokenize_files_In in Htok. destruct Htok as [Hin Hnonempty].
    assert (Hsource : B.source st' <> "").
    { destruct Hcases as [(_ & -> & _) | (-> & _)]; [assumption |].
      now apply B_resolved_source_nonempty. }
    split; [assumption | split; [assumption |]].
    destruct Hmem as [(Hd & Hsrc & Hte & Hm) | (Hsrc & He & Hx & Hdiff & Hy & Hm)].
    + left. repeat split; try assumption; try congruence. now rewrite Hsrc.
    + right. repeat split; try assumption; now apply contains_In. }
  split; [exact HA | split; [exact HB | split]].
  - intros st Htrue. cbv zeta.
    destruct (HA (A_fresh st) Htrue) as (H1 & H2 & _ & _ & H5).
    change (A.CmdArgumentParser.parse cfg fs args (A_fresh st))
      with (A.parse cfg fs args st) in *.
    split; [assumption | split; [assumption |]].
    destruct H5 as [[Hd Hte] | H5]; [left | now right]. now split.
  - intros st Htrue. cbv zeta.
    destruct (HB (B_fresh st) Htrue) as (H1 & _ & H3).
    change (B.CmdArgumentParser.parse cfg fs args (B_fresh st))
      with (B.parse cfg fs args st) in *.
    split; [assumption |].
    destruct H3 as [(Hd & Hin & Hte & _) | (He & Hx & Hdiff & Hy & _)];
      [left | right]; repeat split; assumption.
Qed.

(** One parser object of revision B, [parse] called with [source.txt]
    and then with the directory [/out]: the second call succeeds and
    publishes an empty target, while [target()] still returns the target
    of the first call. *)
Lemma success_postcondition_witness :
  let first := snd (B.CmdArgumentParser.parse demo demo_fs ["source.txt"] B.initial) in
  let st' := snd (B.CmdArgumentParser.parse demo demo_fs ["/out"] first) in
  (B.source st' <> "" /\
   B._source st' = B.source st' /\
   ((is_directory demo_fs (B.source st') = true /\ In (B.source st') ["/out"] /\
     B.target st' = "" /\ B._target st' = B._target first) \/
    (exists_ demo_fs (B.source st') = true /\
     In (getExtension (B.source st')) (source_ext demo) /\
     tolower (B.source st') <> tolower (B.target st') /\
     In (getExtension (B.target st')) (target_ext demo) /\
     B._target st' = B.target st'))) /\
  B.source st' = "/out" /\ B.target st' = "" /\ B._target st' = "/home/u/source.csv".
Proof.
  cbv zeta.
  assert (HB : fst (B.CmdArgumentParser.parse demo demo_fs ["/out"]
                      (snd (B.CmdArgumentParser.parse demo demo_fs ["source.txt"] B.initial)))
               = Returned true) by (vm_compute; reflexivity).
  split.
  - exact (proj1 (proj2 (@success_postcondition demo demo_fs ["/out"]))
             (snd (B.CmdArgumentParser.parse demo demo_fs ["source.txt"] B.initial)) HB).
  - vm_compute. repeat split.
Defined.

(** X11. In both revisions a call of parse writes at most one line, and
    which stream gets it follows from how the call ends: nothing at all
    when it returns [true] or throws; one line that begins with "Error: "
    on [std::cerr], and nothing on [std::cout], when it returns [false];
    the help or the version text on [std::cout], and nothing on
    [std::cerr], when it ends the process.  The process is only ever ended
    with exit code 0, with nothing published, and only by a command line
    of at most one flag token and no positional token. *)
Theorem one_line_per_outcome (cfg : Config) (fs : FileSystem) (args : list string) :
  (forall st : A.state,
     let (c, st') := A.parse cfg fs args st in
     match c with
     | Returned true => A.cout st' = A.cout st /\ A.cerr st' = A.cerr st
     | Returned false =>
         A.cout st' = A.cout st /\
         exists msg, A.cerr st' = A.cerr st ++ "Error: " ++ msg ++ nl
     | Exited code =>
         code = 0%Z /\ A.cerr st' = A.cerr st /\
         (A.cout st' = A.cout st ++ A.text_help cfg ++ nl \/
          A.cout st' = A.cout st ++ text_version cfg ++ nl) /\
         A.source st' = "" /\ A.target st' = "" /\
         snd (tokenize args) = [] /\ length (fst (tokenize args)) <= 1
     | Thrown _ => A.cout st' = A.cout st /\ A.cerr st' = A.cerr st
     end) /\
  (forall st : B.state,
     let (c, st') := B.parse cfg fs args st in
     match c with
     | Returned true => B.cout st' = B.cout st /\ B.cerr st' = B.cerr st
     | Returned false =>
         B.cout st' = B.cout st /\
         exists msg, B.cerr st' = B.cerr st ++ "Error: " ++ msg ++ nl
     | Exited code =>
         code = 0%Z /\ B.cerr st' = B.cerr st /\
         (B.cout st' = B.cout st ++ B.text_help cfg ++ nl \/
          B.cout st' = B.cout st ++ text_version cfg ++ nl) /\
         B.source st' = "" /\ B.target st' = "" /\
         snd (tokenize args) = [] /\ length (fst (tokenize args)) <= 1
     | Thrown _ => B.cout st' = B.cout st /\ B.cerr st' = B.cerr st
     end).
Proof.
  split; intros st.
  - pose proof (AMore.A_parse_output cfg fs args (A_fresh st)) as H.
    change (A.CmdArgumentParser.parse cfg fs args (A_fresh st))
      with (A.parse cfg fs args st) in H.
    destruct (A.parse cfg fs args st) as [[[|]|code|what] st']; try exact H.
    destruct H as (H1 & H2 & _). now split.
  - pose proof (@BMore.B_parse_output cfg fs args (B_fresh st) eq_refl) as H.
    change (B.CmdArgumentParser.parse cfg fs args (B_fresh st))
      with (B.parse cfg fs args st) in H.
    destruct (B.parse cfg fs args st) as [[[|]|code|what] st']; try exact H.
    destruct H as (H1 & H2 & _). now split.
Qed.

(** X12. In both revisions what a call of parse returns, publishes and
    writes, and the value it leaves in every registered flag, depend on
    the configuration, the filesystem and the arguments only: two calls
    from states that agree on the names of the flags (and, in revision B,
    on their stored defaults) end alike, whatever the flags and the
    published paths held before. *)
Theorem parse_forgets_the_earlier_state (cfg : Config) (fs : FileSystem)
    (args : list string) :
  (forall st1 st2 : A.state,
     (forall f, A_name st1 f = A_name st2 f) ->
     let r1 := A.parse cfg fs args st1 in
     let r2 := A.parse cfg fs args st2 in
     fst r1 = fst r2 /\
     A.source (snd r1) = A.source (snd r2) /\ A.target (snd r1) = A.target (snd r2) /\
     (forall f, In f (cmd_flags cfg) ->
        A.on (A.flag_at (snd r1) f) = A.on (A.flag_at (snd r2) f)) /\
     exists out err,
       A.cout (snd r1) = A.cout st1 ++ out /\ A.cout (snd r2) = A.cout st2 ++ out /\
       A.cerr (snd r1) = A.cerr st1 ++ err /\ A.cerr (snd r2) = A.cerr st2 ++ err) /\
  (forall st1 st2 : B.state,
     (forall f, B_name st1 f = B_name st2 f) ->
     (forall f, B_default st1 f = B_default st2 f) ->
     let r1 := B.parse cfg fs args st1 in
     let r2 := B.parse cfg fs args st2 in
     fst r1 = fst r2 /\
     B.source (snd r1) = B.source (snd r2) /\ B.target (snd r1) = B.target (snd r2) /\
     (forall f, In f (cmd_flags cfg) ->
        B.on (B.flag_at (snd r1) f) = B.on (B.flag_at (snd r2) f)) /\
     exists out err,
       B.cout (snd r1) = B.cout st1 ++ out /\ B.cout (snd r2) = B.cout st2 ++ out /\
       B.cerr (snd r1) = B.cerr st1 ++ err /\ B.cerr (snd r2) = B.cerr st2 ++ err).
Proof.
  split.
  - intros st1 st2 Hn.
    exact (@AMore.A_parse_indep cfg fs args (A_fresh st1) (A_fresh st2) Hn eq_refl eq_refl).
  - intros st1 st2 Hn Hd.
    exact (@BMore.B_parse_indep cfg fs args (B_fresh st1) (B_fresh st2) Hn Hd eq_refl eq_refl).
Qed.

(** The state after static initialisation against the state a call with
    [-translate] and a missing file has left. *)
Lemma parse_forgets_the_earlier_state_witness :
  let st2 := snd (B.parse demo demo_fs ["-translate"; "missing.txt"] B.initial) in
  let r1 := B.parse demo demo_fs ["source.txt"] B.initial in
  let r2 := B.parse demo demo_fs ["source.txt"] st2 in
  fst r1 = fst r2 /\
  B.source (snd r1) = B.source (snd r2) /\ B.target (snd r1) = B.target (snd r2) /\
  (forall f, In f (cmd_flags demo) ->
     B.on (B.flag_at (snd r1) f) = B.on (B.flag_at (snd r2) f)) /\
  exists out err,
    B.cout (snd r1) = B.cout B.initial ++ out /\ B.cout (snd r2) = B.cout st2 ++ out /\
    B.cerr (snd r1) = B.cerr B.initial ++ err /\ B.cerr (snd r2) = B.cerr st2 ++ err.
Proof.
  assert (Hn : forall f, B_name B.initial f =
                         B_name (snd (B.parse demo demo_fs ["-translate"; "missing.txt"]
                                        B.initial)) f)
    by (intros f; destruct f; vm_compute; reflexivity).
  assert (Hd : forall f, B_default B.initial f =
                         B_default (snd (B.parse demo demo_fs ["-translate"; "missing.txt"]
                                           B.initial)) f)
    by (intros f; destruct f; vm_compute; reflexivity).
  exact (proj2 (@parse_forgets_the_earlier_state demo demo_fs ["source.txt"])
           B.initial (snd (B.parse demo demo_fs ["-translate"; "missing.txt"] B.initial))
           Hn Hd).
Defined.

(** X13. In both revisions a second call of parse with the arguments of
    the first, on the state the first has left, ends as the first did:
    the same completion, the same published paths, the same value in every
    registered flag. *)
Theorem parse_twice_is_parse_once (cfg : Config) (fs : FileSystem) (args : list string) :
  (forall st : A.state,
     let r1 := A.parse cfg fs args st in
     let r2 := A.parse cfg fs args (snd r1) in
     fst r2 = fst r1 /\
     A.source (snd r2) = A.source (snd r1) /\ A.target (snd r2) = A.target (snd r1) /\
     (forall f, In f (cmd_flags cfg) ->
        A.on (A.flag_at (snd r2) f) = A.on (A.flag_at (snd r1) f))) /\
  (forall st : B.state,
     let r1 := B.parse cfg fs args st in
     let r2 := B.parse cfg fs args (snd r1) in
     fst r2 = fst r1 /\
     B.source (snd r2) = B.source (snd r1) /\ B.target (snd r2) = B.target (snd r1) /\
     (forall f, In f (cmd_flags cfg) ->
        B.on (B.flag_at (snd r2) f) = B.on (B.flag_at (snd r1) f))).
Proof.
  split; intros st; cbv zeta.
  - assert (Hn : forall f, A_name (A_fresh (snd (A.parse cfg fs args st))) f =
                           A_name (A_fresh st) f)
      by (intros f; exact (AMore.A_parse_names cfg fs args (A_fresh st) f)).
    destruct (@AMore.A_parse_indep cfg fs args (A_fresh (snd (A.parse cfg fs args st)))
                (A_fresh st) Hn eq_refl eq_refl) as (H1 & H2 & H3 & H4 & _).
    repeat split; assumption.
  - assert (Hn : forall f, B_name (B_fresh (snd (B.parse cfg fs args st))) f =
                           B_name (B_fresh st) f)
      by (intros f; exact (BMore.B_parse_names cfg fs args (B_fresh st) f)).
    assert (Hd : forall f, B_default (B_fresh (snd (B.parse cfg fs args st))) f =
                           B_default (B_fresh st) f)
      by (intros f; exact (BProps.B_parse_keeps_default cfg fs args (B_fresh st) f)).
    destruct (@BMore.B_parse_indep cfg fs args (B_fresh (snd (B.parse cfg fs args st)))
                (B_fresh st) Hn Hd eq_refl eq_refl) as (H1 & H2 & H3 & H4 & _).
    repeat split; assumption.
Qed.

(** ** The positional tokens *)

(** X14. In both revisions a call that gets past the flags looks at the
    number of positional tokens before it looks at any of them: without
    one it fails with "No source file specified", with more than two it
    fails with "argument: Too many arguments", whatever the tokens are and
    whatever the filesystem holds. *)
Theorem positional_tokens_are_counted_first (cfg : Config) (fs : FileSystem)
    (args : list string) :
  (forall st : A.state,
     A_flags_accepted cfg args (A_fresh st) ->
     (snd (tokenize args) = [] ->
        fst (A.parse cfg fs args st) = Returned false /\
        A.cerr (snd (A.parse cfg fs args st)) =
          A.cerr st ++ "Error: " ++ "No source file specified" ++ nl) /\
     (2 < length (snd (tokenize args)) ->
        fst (A.parse cfg fs args st) = Returned false /\
        A.cerr (snd (A.parse cfg fs args st)) =
          A.cerr st ++ "Error: " ++ "argument: Too many arguments" ++ nl)) /\
  (forall st : B.state,
     B_flags_accepted cfg args (B_fresh st) ->
     (snd (tokenize args) = [] ->
        fst (B.parse cfg fs args st) = Returned false /\
        B.cerr (snd (B.parse cfg fs args st)) =
          B.cerr st ++ "Error: " ++ "No source file specified" ++ nl) /\
     (2 < length (snd (tokenize args)) ->
        fst (B.parse cfg fs args st) = Returned false /\
        B.cerr (snd (B.parse cfg fs args st)) =
          B.cerr st ++ "Error: " ++ "argument: Too many arguments" ++ nl)).
Proof.
  split; intros st Hacc.
  - rewrite AProps.A_parse_fresh, (AFacts.A_parse_accepted fs Hacc).
    destruct (AFacts.A_after_flags_facts Hacc) as (_ & _ & _ & _ & _ & He).
    cbv zeta in He. change (A.cerr (A_fresh st)) with (A.cerr st) in He.
    rewrite <- He.
    exact (AMore.A_parseFiles_count cfg fs (snd (tokenize args))
             (A_after_flags cfg args (A_fresh st))).
  - rewrite BProps.B_parse_fresh, (BFacts.B_parse_accepted fs Hacc).
    destruct (BFacts.B_after_flags_facts Hacc) as (_ & _ & _ & _ & _ & He).
    cbv zeta in He. change (B.cerr (B_fresh st)) with (B.cerr st) in He.
    rewrite <- He.
    exact (BMore.B_parseFiles_count cfg fs (snd (tokenize args))
             (B_after_flags cfg args (B_fresh st))).
Qed.

(** [-translate] alone names no source; three names are one too many,
    although none of them exists. *)
Lemma positional_tokens_are_counted_first_witness :
  (fst (A.parse demo demo_fs ["-translate"] A.initial) = Returned false /\
   A.cerr (snd (A.parse demo demo_fs ["-translate"] A.initial)) =
     A.cerr A.initial ++ "Error: " ++ "No source file specified" ++ nl) /\
  (fst (B.parse demo demo_fs ["a.txt"; "b.csv"; "c.csv"] B.initial) = Returned false /\
   B.cerr (snd (B.parse demo demo_fs ["a.txt"; "b.csv"; "c.csv"] B.initial)) =
     B.cerr B.initial ++ "Error: " ++ "argument: Too many arguments" ++ nl).
Proof.
  assert (HA : A_flags_accepted demo ["-translate"] (A_fresh A.initial))
    by (split; vm_compute; reflexivity).
  assert (HB : B_flags_accepted demo ["a.txt"; "b.csv"; "c.csv"] (B_fresh B.initial))
    by (split; vm_compute; reflexivity).
  assert (Hlen : 2 < length (snd (tokenize ["a.txt"; "b.csv"; "c.csv"])))
    by (vm_compute; lia).
  split.
  - exact (proj1 (proj1 (@positional_tokens_are_counted_first demo demo_fs ["-translate"])
                    A.initial HA) eq_refl).
  - exact (proj2 (proj2 (@positional_tokens_are_counted_first demo demo_fs
                           ["a.txt"; "b.csv"; "c.csv"]) B.initial HB) Hlen).
Defined.

(** X15. In both revisions, for a call that gets past the flags with one
    positional token that is an existing file with an accepted extension,
    when the default target extension is a plain one and the source list
    has no empty entry: the call succeeds exactly when the extension of
    the source, lowercased, is not the default target extension,
    lowercased (a source that already carries the default target extension
    needs an explicit target); in revision B the default target extension,
    lowercased, must be an entry of the target list as well, so a default
    that holds an upper case letter makes every such call fail. *)
Theorem default_target_outcome (cfg : Config) (fs : FileSystem) (args : list string)
    (s : string) :
  snd (tokenize args) = [s] -> is_directory fs s = false ->
  plain_extension (defaultTargetExt cfg) -> ~ In "" (source_ext cfg) ->
  (forall st : A.state,
     A_flags_accepted cfg args (A_fresh st) ->
     exists_ fs s = true -> In (getExtension s) (source_ext cfg) ->
     (fst (A.parse cfg fs args st) = Returned true <->
      getExtension s <> tolower (defaultTargetExt cfg))) /\
  (forall st : B.state,
     B_flags_accepted cfg args (B_fresh st) ->
     let rs := B_resolved_source fs s in
     exists_ fs rs = true -> In (getExtension rs) (source_ext cfg) ->
     (fst (B.parse cfg fs args st) = Returned true <->
      getExtension rs <> tolower (defaultTargetExt cfg) /\
      In (tolower (defaultTargetExt cfg)) (target_ext cfg))).
Proof.
  intros Hfiles Hd Hplain Hempty. split.
  - intros st Hacc He Hx.
    assert (Hres : A_resolved_paths cfg fs (snd (tokenize args)) =
                   Some (s, Path.replace_extension s (defaultTargetExt cfg))).
    { rewrite Hfiles. cbn [A_resolved_paths]. rewrite Hd, He.
      apply contains_In in Hx. now rewrite Hx. }
    pose proof (@AProps.A_files_resolved cfg fs args _ _ (A_fresh st) Hacc Hres) as H.
    change (A.CmdArgumentParser.parse cfg fs args (A_fresh st))
      with (A.parse cfg fs args st) in H.
    destruct (A.parse cfg fs args st) as [c st']. cbn [fst].
    destruct H as (_ & _ & Hsame & Hdiff).
    rewrite <- (@default_target_identity cfg s Hx Hplain Hempty).
    split.
    + intros -> E. destruct (Hsame E) as [E' _]. discriminate.
    + intros Hne. now destruct (Hdiff Hne).
  - intros st Hacc. cbv zeta. intros He Hx.
    assert (Hres : B_resolved_paths cfg fs (snd (tokenize args)) =
                   Some (B_resolved_source fs s,
                         Path.replace_extension (B_resolved_source fs s)
                           (defaultTargetExt cfg))).
    { rewrite Hfiles. cbn [B_resolved_paths]. cbv zeta. rewrite Hd, He.
      apply contains_In in Hx. now rewrite Hx. }
    pose proof (@BProps.B_files_resolved cfg fs args _ _ (B_fresh st) Hacc Hres) as H.
    change (B.CmdArgumentParser.parse cfg fs args (B_fresh st))
      with (B.parse cfg fs args st) in H.
    destruct (B.parse cfg fs args st) as [c st']. cbn [fst].
    destruct H as (_ & _ & Hsame & Hbad & Hgood).
    rewrite <- (@default_target_identity cfg (B_resolved_source fs s) Hx Hplain Hempty).
    destruct (@default_target_stem_extension cfg (B_resolved_source fs s) Hx Hplain Hempty)
      as (_ & _ & Hext).
    cbv zeta in Hext. rewrite <- Hext.
    split.
    + intros ->. split.
      * intros E. destruct (Hsame E) as [E' _]. discriminate.
      * destruct (in_dec string_dec
                    (getExtension (Path.replace_extension (B_resolved_source fs s)
                                     (defaultTargetExt cfg)))
                    (target_ext cfg)) as [Hin | Hnot]; [exact Hin | exfalso].
        destruct (string_dec (tolower (B_resolved_source fs s))
                    (tolower (Path.replace_extension (B_resolved_source fs s)
                                (defaultTargetExt cfg)))) as [E | E].
        -- destruct (Hsame E) as [E' _]. discriminate.
        -- destruct (Hbad E Hnot) as [E' _]. discriminate.
    + intros [Hne Hin]. now destruct (Hgood Hne Hin).
Qed.

(** [data.csv] carries the default target extension [csv]: the call
    fails; [source.txt] does not: the call succeeds. *)
Lemma default_target_outcome_witness :
  (fst (A.parse demo demo_fs ["data.csv"] A.initial) = Returned true <->
   getExtension "data.csv" <> tolower (defaultTargetExt demo)) /\
  (fst (B.parse demo demo_fs ["source.txt"] B.initial) = Returned true <->
   getExtension (B_resolved_source demo_fs "source.txt") <> tolower (defaultTargetExt demo) /\
   In (tolower (defaultTargetExt demo)) (target_ext demo)).
Proof.
  assert (Hplain : plain_extension (defaultTargetExt demo))
    by (unfold plain_extension; split; [discriminate | split; reflexivity]).
  assert (Hempty : ~ In "" (source_ext demo))
    by (simpl; intuition discriminate).
  assert (HA : A_flags_accepted demo ["data.csv"] (A_fresh A.initial))
    by (split; vm_compute; reflexivity).
  assert (HB : B_flags_accepted demo ["source.txt"] (B_fresh B.initial))
    by (split; vm_compute; reflexivity).
  assert (XA : In (getExtension "data.csv") (source_ext demo))
    by (vm_compute; auto).
  assert (XB : In (getExtension (B_resolved_source demo_fs "source.txt")) (source_ext demo))
    by (vm_compute; auto).
  split.
  - exact (proj1 (@default_target_outcome demo demo_fs ["data.csv"] "data.csv"
                    eq_refl eq_refl Hplain Hempty) A.initial HA eq_refl XA).
  - exact (proj2 (@default_target_outcome demo demo_fs ["source.txt"] "source.txt"
                    eq_refl eq_refl Hplain Hempty) B.initial HB eq_refl XB).
Defined.

(** X16. Revision B validates the extension of the target: for a call
    that gets past the flags and resolves a source and a target that
    differ when case is ignored, a target whose extension (lowercased,
    without the dot) is no entry of the target list makes the call return
    failure with "Target file is not a valid extension: ..." and the
    resolved target; nothing is published. *)
Theorem B_target_extension_is_validated (cfg : Config) (fs : FileSystem)
    (args : list string) (rs rt : path) (st : B.state) :
  B_flags_accepted cfg args (B_fresh st) ->
  B_resolved_paths cfg fs (snd (tokenize args)) = Some (rs, rt) ->
  tolower rs <> tolower rt -> ~ In (getExtension rt) (target_ext cfg) ->
  let (c, st') := B.parse cfg fs args st in
  c = Returned false /\ B.source st' = "" /\ B.target st' = "" /\
  B.cout st' = B.cout st /\
  B.cerr st' = B.cerr st ++ "Error: " ++ ("Target file is not a valid extension: " ++ rt) ++ nl.
Proof.
  intros Hacc Hres Hne Hx.
  pose proof (@BProps.B_files_resolved cfg fs args rs rt (B_fresh st) Hacc Hres) as H.
  pose proof (@BMore.B_parse_output cfg fs args (B_fresh st) eq_refl) as Hout.
  change (B.CmdArgumentParser.parse cfg fs args (B_fresh st))
    with (B.parse cfg fs args st) in H, Hout.
  destruct (B.parse cfg fs args st) as [c st'].
  destruct H as (_ & _ & _ & Hbad & _).
  destruct (Hbad Hne Hx) as (-> & H2 & H3 & H4).
  destruct Hout as [Hcout _]. repeat split; assumption.
Qed.

(** [source.txt out.jpg]: [jpg] is no target extension. *)
Lemma B_target_extension_is_validated_witness :
  let (c, st') := B.parse demo demo_fs ["source.txt"; "out.jpg"] B.initial in
  c = Returned false /\ B.source st' = "" /\ B.target st' = "" /\
  B.cout st' = B.cout B.initial /\
  B.cerr st' = B.cerr B.initial ++ "Error: " ++
                 ("Target file is not a valid extension: " ++ "/home/u/out.jpg") ++ nl.
Proof.
  assert (Hacc : B_flags_accepted demo ["source.txt"; "out.jpg"] (B_fresh B.initial))
    by (split; vm_compute; reflexivity).
  assert (Hres : B_resolved_paths demo demo_fs (snd (tokenize ["source.txt"; "out.jpg"])) =
                 Some ("/home/u/source.txt", "/home/u/out.jpg"))
    by (vm_compute; reflexivity).
  assert (Hne : tolower "/home/u/source.txt" <> tolower "/home/u/out.jpg")
    by (vm_compute; discriminate).
  assert (Hx : ~ In (getExtension "/home/u/out.jpg") (target_ext demo))
    by (vm_compute; intuition discriminate).
  exact (@B_target_extension_is_validated demo demo_fs ["source.txt"; "out.jpg"]
           "/home/u/source.txt" "/home/u/out.jpg" B.initial Hacc Hres Hne Hx).
Defined.

(** X17. In revision B an explicit target without extension has to be an
    existing directory: for a call that gets past the flags with a valid
    source file and a second token whose filename has no extension, when
    the anchored target is no directory the call returns failure with
    "Target directory does not exist ..." and the anchored target, whether
    its parent directory exists or not; nothing is published. *)
Theorem B_target_without_extension_is_a_directory (cfg : Config) (fs : FileSystem)
    (args : list string) (s t : string) (st : B.state) :
  B_flags_accepted cfg args (B_fresh st) ->
  snd (tokenize args) = [s; t] ->
  is_directory fs s = false ->
  let rs := B_resolved_source fs s in
  exists_ fs rs = true -> In (getExtension rs) (source_ext cfg) ->
  let rt := B_anchored_target rs t in
  Path.has_extension t = false -> is_directory fs rt = false ->
  let (c, st') := B.parse cfg fs args st in
  c = Returned false /\ B.source st' = "" /\ B.target st' = "" /\
  B.cerr st' = B.cerr st ++ "Error: " ++ ("Target directory does not exist " ++ rt) ++ nl.
Proof.
  intros Hacc Hfiles Hd. cbv zeta. intros He Hx Hext Hnd.
  rewrite <- (B_anchored_target_has_extension (B_resolved_source fs s) t) in Hext.
  exact (@BMore.B_target_not_a_directory cfg fs args s t (B_fresh st) Hacc Hfiles Hd
           He Hx Hext Hnd).
Qed.

(** [source.txt outdir] in [/home/u], which holds no directory
    [outdir]. *)
Lemma B_target_without_extension_is_a_directory_witness :
  let (c, st') := B.parse demo demo_fs ["source.txt"; "outdir"] B.initial in
  c = Returned false /\ B.source st' = "" /\ B.target st' = "" /\
  B.cerr st' = B.cerr B.initial ++ "Error: " ++
                 ("Target directory does not exist " ++
                  B_anchored_target (B_resolved_source demo_fs "source.txt") "outdir") ++ nl.
Proof.
  assert (Hacc : B_flags_accepted demo ["source.txt"; "outdir"] (B_fresh B.initial))
    by (split; vm_compute; reflexivity).
  assert (Hx : In (getExtension (B_resolved_source demo_fs "source.txt")) (source_ext demo))
    by (vm_compute; auto).
  exact (@B_target_without_extension_is_a_directory demo demo_fs ["source.txt"; "outdir"]
           "source.txt" "outdir" B.initial Hacc eq_refl eq_refl eq_refl Hx eq_refl eq_refl).
Defined.

(** X18. In [src/CmdArgs.h] a call with two positional tokens that both
    have no directory component never succeeds when the empty path is no
    directory: the target is placed next to the source, whose parent path
    is empty, and the check of the target's parent directory fails. *)
Theorem A_bare_source_and_target_never_succeed (cfg : Config) (fs : FileSystem)
    (args : list string) (s t : string) (st : A.state) :
  snd (tokenize args) = [s; t] ->
  occurs Path.sep s = false -> occurs Path.sep t = false ->
  is_directory fs "" = false ->
  fst (A.parse cfg fs args st) <> Returned true /\
  (A_flags_accepted cfg args (A_fresh st) ->
   is_directory fs s = false -> exists_ fs s = true ->
   In (getExtension s) (source_ext cfg) ->
   let (c, st') := A.parse cfg fs args st in
   c = Returned false /\
   A.cerr st' = A.cerr st ++ "Error: " ++ ("Target file has unknown directory " ++ t) ++ nl).
Proof.
  intros Hfiles Hs Ht Hroot.
  assert (Hrt : (if Path.empty (Path.parent_path t)
                 then Path.parent_path s </> Path.filename t else t) = t).
  { destruct (Path.empty (Path.parent_path t)); [| reflexivity].
    rewrite (PathFacts.filename_of_name t Ht).
    unfold Path.parent_path.
    rewrite (proj2 (rsplit_None Path.sep s) Hs).
    unfold Path.append. now rewrite (PathFacts.is_absolute_no_sep t Ht). }
  assert (Hpt : Path.parent_path t = "").
  { unfold Path.parent_path. now rewrite (proj2 (rsplit_None Path.sep t) Ht). }
  split.
  - intros Htrue.
    apply (AMore.A_parse_true_iff cfg fs args (A_fresh st)) in Htrue.
    destruct Htrue as [_ [(d & E & _) | (rs & rt & E & _)]].
    + rewrite Hfiles in E. discriminate.
    + rewrite Hfiles in E. cbn [A_resolved_paths] in E. cbv zeta in E.
      rewrite Hrt, Hpt, Hroot in E.
      destruct (negb (is_directory fs s) && exists_ fs s
                && contains String.eqb (source_ext cfg) (getExtension s)); discriminate.
  - intros Hacc Hd He Hx.
    pose proof (@AProps.A_target_parent_checks cfg fs args s t (A_fresh st) Hacc Hfiles
                  Hd He Hx) as H.
    cbv zeta in H. rewrite Hrt, Hpt in H. specialize (H Hroot).
    change (A.CmdArgumentParser.parse cfg fs args (A_fresh st))
      with (A.parse cfg fs args st) in H.
    destruct (A.parse cfg fs args st) as [c st'].
    destruct H as (H1 & _ & _ & _ & H5). now split.
Qed.

(** [source.txt target.csv], both in the working directory. *)
Lemma A_bare_source_and_target_never_succeed_witness :
  fst (A.parse demo demo_fs ["source.txt"; "target.csv"] A.initial) <> Returned true /\
  (A_flags_accepted demo ["source.txt"; "target.csv"] (A_fresh A.initial) ->
   is_directory demo_fs "source.txt" = false -> exists_ demo_fs "source.txt" = true ->
   In (getExtension "source.txt") (source_ext demo) ->
   let (c, st') := A.parse demo demo_fs ["source.txt"; "target.csv"] A.initial in
   c = Returned false /\
   A.cerr st' = A.cerr A.initial ++ "Error: " ++
                  ("Target file has unknown directory " ++ "target.csv") ++ nl).
Proof.
  exact (@A_bare_source_and_target_never_succeed demo demo_fs ["source.txt"; "target.csv"]
           "source.txt" "target.csv" A.initial eq_refl eq_refl eq_refl eq_refl).
Defined.

(** ** The C++20 revision of [src/unnamed/part_001] *)

(** X19. In revision C the help/version short-circuit never returns: on a
    configuration the check accepts, when every flag token is known and
    one of them names the help or the version flag, a call with more than
    one flag token or with a positional token prints "Error argument: Too
    many arguments" on [std::cout] and ends the process with exit code 1
    (the other revisions return failure); a call with exactly one flag
    token and no positional token prints the help or the version text and
    ends the process with exit code 0.  Nothing is published. *)
Theorem C_help_with_more_exits_with_status_1 (cfg : C.Config) (fs : FileSystem)
    (args : list string) (st : C.state) :
  ~ C_misconfigured cfg ->
  C_all_known st (C.cmd_flags cfg) (fst (tokenize args)) ->
  C_named st (C.cmd_flags cfg) (fst (tokenize args)) C.help
  || C_named st (C.cmd_flags cfg) (fst (tokenize args)) C.version = true ->
  let (c, st') := C.parse cfg fs args st in
  C.source st' = "" /\ C.target st' = "" /\
  (1 < length (fst (tokenize args)) \/ snd (tokenize args) <> [] ->
     c = Exited 1%Z /\
     C.cout st' = C.cout st ++ "Error argument: Too many arguments" ++ nl) /\
  (length (fst (tokenize args)) = 1 /\ snd (tokenize args) = [] ->
     c = Exited 0%Z /\
     C.cout st' = C.cout st ++
                    (if C_named st (C.cmd_flags cfg) (fst (tokenize args)) C.help
                     then C.text_help cfg else C.text_version cfg) ++ nl).
Proof.
  intros Hok Hk Hhv.
  exact (@CProps.C_help_version cfg fs args (C_fresh st) Hok Hk Hhv).
Qed.

(** [--help source.rvm] ends the process with exit code 1. *)
Lemma C_help_with_more_exits_with_status_1_witness :
  let (c, st') := C.parse C.demo demo_fs ["--help"; "source.rvm"] C.initial in
  C.source st' = "" /\ C.target st' = "" /\
  (1 < length (fst (tokenize ["--help"; "source.rvm"]))
   \/ snd (tokenize ["--help"; "source.rvm"]) <> [] ->
     c = Exited 1%Z /\
     C.cout st' = C.cout C.initial ++ "Error argument: Too many arguments" ++ nl) /\
  (length (fst (tokenize ["--help"; "source.rvm"])) = 1
   /\ snd (tokenize ["--help"; "source.rvm"]) = [] ->
     c = Exited 0%Z /\
     C.cout st' = C.cout C.initial ++
                    (if C_named C.initial (C.cmd_flags C.demo)
                          (fst (tokenize ["--help"; "source.rvm"])) C.help
                     then C.text_help C.demo else C.text_version C.demo) ++ nl).
Proof.
  assert (Hok : ~ C_misconfigured C.demo).
  { unfold C_misconfigured, C.demo; simpl.
    intros [H|[H|[H|[H|[H|H]]]]]; try discriminate; try lia; apply H; auto 10. }
  assert (Hk : C_all_known C.initial (C.cmd_flags C.demo)
                 (fst (tokenize ["--help"; "source.rvm"]))).
  { intros flag [<- | []]. vm_compute. discriminate. }
  exact (@C_help_with_more_exits_with_status_1 C.demo demo_fs ["--help"; "source.rvm"]
           C.initial Hok Hk eq_refl).
Defined.

(** X20. In revision C a call of parse writes at most one line, always
    on [std::cout]: nothing when it returns [true] or throws; one line
    that begins with "Error" when it returns [false]; the too-many-
    arguments line with exit code 1, or the help or version text with exit
    code 0, when it ends the process, and no other exit code occurs.
    Unless the call returns [true] the published paths are empty; when it
    does, they are the members of the parser object. *)
Theorem C_one_line_on_cout (cfg : C.Config) (fs : FileSystem) (args : list string)
    (st : C.state) :
  let (c, st') := C.parse cfg fs args st in
  match c with
  | Returned true =>
      C.cout st' = C.cout st /\
      C.source st' = C._source st' /\ C.target st' = C._target st'
  | Returned false =>
      C.source st' = "" /\ C.target st' = "" /\
      exists msg, C.cout st' = C.cout st ++ msg ++ nl /\ prefix "Error" msg = true
  | Exited code =>
      C.source st' = "" /\ C.target st' = "" /\
      ((code = 1%Z /\
        C.cout st' = C.cout st ++ "Error argument: Too many arguments" ++ nl) \/
       (code = 0%Z /\
        snd (tokenize args) = [] /\ length (fst (tokenize args)) <= 1 /\
        (C.cout st' = C.cout st ++ C.text_help cfg ++ nl \/
         C.cout st' = C.cout st ++ C.text_version cfg ++ nl)))
  | Thrown _ =>
      C.source st' = "" /\ C.target st' = "" /\ C.cout st' = C.cout st
  end.
Proof. exact (CProps.C_parse_output cfg fs args (C_fresh st)). Qed.

(** X21. For a command line without flag tokens, [src/CmdArgs.h] and
    revision C, configured with the same extension lists (which both
    checks accept), end alike: the same completion and the same published
    paths; what [src/CmdArgs.h] writes to [std::cerr] revision C writes to
    [std::cout], letter for letter but for the too-many-arguments line,
    which reads "Error: argument: ..." in the one and "Error argument:
    ..." in the other.  [src/CmdArgs.h] writes nothing to [std::cout]. *)
Theorem CmdArgs_h_agrees_with_revision_C (cfgA : Config) (cfgC : C.Config)
    (fs : FileSystem) (args : list string) (stA : A.state) (stC : C.state) :
  source_ext cfgA = C.source_ext cfgC -> target_ext cfgA = C.target_ext cfgC ->
  ~ (misconfigured cfgA \/ identical_extension_lists cfgA) -> ~ C_misconfigured cfgC ->
  fst (tokenize args) = [] ->
  let rA := A.parse cfgA fs args stA in
  let rC := C.parse cfgC fs args stC in
  fst rA = fst rC /\
  A.source (snd rA) = C.source (snd rC) /\ A.target (snd rA) = C.target (snd rC) /\
  A.cout (snd rA) = A.cout stA /\
  exists w, A.cerr (snd rA) = A.cerr stA ++ w /\
            (C.cout (snd rC) = C.cout stC ++ w \/
             (w = "Error: " ++ "argument: Too many arguments" ++ nl /\
              C.cout (snd rC) = C.cout stC ++ "Error argument: Too many arguments" ++ nl)).
Proof.
  intros Hse Hte HokA HokC Hnil. cbv zeta.
  assert (Hacc : A_flags_accepted cfgA args (A_fresh stA)).
  { apply A_flags_accepted_iff. rewrite Hnil. cbn [unknown_flag matched_flags In]. tauto. }
  rewrite AProps.A_parse_fresh, (AFacts.A_parse_accepted fs Hacc).
  change (C.parse cfgC fs args stC)
    with (C.CmdArgumentParser.parse cfgC fs args (C_fresh stC)).
  rewrite (@CProps.C_parse_no_flags cfgC fs args (C_fresh stC) HokC Hnil).
  destruct (AFacts.A_after_flags_facts Hacc) as (As & At & As' & At' & Ao & Ae).
  destruct (CFacts.C_reset_facts cfgC (C_fresh stC)) as (_ & _ & Cs & Ct & Cs' & Ct' & Co).
  cbv zeta in *.
  change (A._source (A_fresh stA)) with "" in As'.
  change (A._target (A_fresh stA)) with "" in At'.
  change (C._source (C_fresh stC)) with "" in Cs'.
  change (C._target (C_fresh stC)) with "" in Ct'.
  change (A.cerr (A_fresh stA)) with (A.cerr stA) in Ae.
  change (A.cout (A_fresh stA)) with (A.cout stA) in Ao.
  change (C.cout (C_fresh stC)) with (C.cout stC) in Co.
  destruct (@AC.AC_parseFiles cfgA cfgC fs (snd (tokenize args))
              (A_after_flags cfgA args (A_fresh stA)) (C_reset cfgC (C_fresh stC))
              Hse Hte ltac:(congruence) ltac:(congruence) ltac:(congruence)
              ltac:(congruence))
    as (H1 & _ & _ & H4 & H5 & H6 & w & H7 & H8).
  cbv zeta in *.
  split; [exact H1 |]. split; [exact H4 |]. split; [exact H5 |].
  split; [now rewrite H6 |].
  exists w. rewrite H7, Ae. split; [reflexivity |].
  rewrite <- Co. exact H8.
Qed.

(** Revision C with the extension lists of [src/CmdArgs.h]: both
    publish [source.txt] and [source.csv]. *)
Lemma CmdArgs_h_agrees_with_revision_C_witness :
  let cfgC := {| C.text_version := text_version demo;
                 C.source_ext := source_ext demo; C.target_ext := target_ext demo;
                 C.cmd_flags := C.cmd_flags C.demo |} in
  let rA := A.parse demo demo_fs ["source.txt"] A.initial in
  let rC := C.parse cfgC demo_fs ["source.txt"] C.initial in
  fst rA = fst rC /\
  A.source (snd rA) = C.source (snd rC) /\ A.target (snd rA) = C.target (snd rC) /\
  A.cout (snd rA) = A.cout A.initial /\
  exists w, A.cerr (snd rA) = A.cerr A.initial ++ w /\
            (C.cout (snd rC) = C.cout C.initial ++ w \/
             (w = "Error: " ++ "argument: Too many arguments" ++ nl /\
              C.cout (snd rC) =
                C.cout C.initial ++ "Error argument: Too many arguments" ++ nl)).
Proof.
  assert (HokC : ~ C_misconfigured
                     {| C.text_version := text_version demo;
                        C.source_ext := source_ext demo; C.target_ext := target_ext demo;
                        C.cmd_flags := C.cmd_flags C.demo |}).
  { unfold C_misconfigured, C.demo, demo; simpl.
    intros [H|[H|[H|[H|[H|H]]]]]; try discriminate; try lia; apply H; auto 10. }
  exact (@CmdArgs_h_agrees_with_revision_C demo
           {| C.text_version := text_version demo;
              C.source_ext := source_ext demo; C.target_ext := target_ext demo;
              C.cmd_flags := C.cmd_flags C.demo |}
           demo_fs ["source.txt"] A.initial C.initial
           eq_refl eq_refl demo_well_configured HokC eq_refl).
Defined.

(** ** The default extensions *)

(** X22. In the three revisions the empty-string fallback of the default
    extensions is out of reach once [check] has accepted the
    configuration: for a call of parse that does not throw,
    [defaultTargetExt()] (and [defaultSourceExt()], where the revision has
    it) is the first entry of its list. *)
Theorem defaults_are_first_entries (fs : FileSystem) (args : list string) :
  (forall (cfg : Config) (st : A.state),
     (forall what, fst (A.parse cfg fs args st) <> Thrown what) ->
     hd_error (target_ext cfg) = Some (defaultTargetExt cfg)) /\
  (forall (cfg : Config) (st : B.state),
     (forall what, fst (B.parse cfg fs args st) <> Thrown what) ->
     hd_error (source_ext cfg) = Some (defaultSourceExt cfg) /\
     hd_error (target_ext cfg) = Some (defaultTargetExt cfg)) /\
  (forall (cfg : C.Config) (st : C.state),
     (forall what, fst (C.parse cfg fs args st) <> Thrown what) ->
     hd_error (C.source_ext cfg) = Some (C.defaultSourceExt cfg) /\
     hd_error (C.target_ext cfg) = Some (C.defaultTargetExt cfg)).
Proof.
  split; [| split].
  - intros cfg st Hno.
    assert (Hok : ~ (misconfigured cfg \/ identical_extension_lists cfg)).
    { intros Hbad.
      destruct (AFacts.A_check_completion cfg (A_fresh st)) as [[_ [what Hw]] | [Hgood _]];
        [| tauto].
      apply (Hno what).
      destruct (@AProps.A_check_throw_escapes cfg fs args (A_fresh st) what Hw) as (Hp & _).
      change (A.parse cfg fs args st)
        with (A.CmdArgumentParser.parse cfg fs args (A_fresh st)).
      now rewrite Hp. }
    unfold misconfigured in Hok. unfold defaultTargetExt, defaultExt.
    destruct (target_ext cfg); [tauto | reflexivity].
  - intros cfg st Hno.
    assert (Hok : ~ misconfigured cfg).
    { intros Hbad.
      destruct (BFacts.B_check_completion cfg (B_fresh st)) as [[_ [what Hw]] | [Hgood _]];
        [| tauto].
      apply (Hno what).
      destruct (@BProps.B_check_throw_escapes cfg fs args (B_fresh st) what Hw) as (Hp & _).
      change (B.parse cfg fs args st)
        with (B.CmdArgumentParser.parse cfg fs args (B_fresh st)).
      now rewrite Hp. }
    unfold misconfigured in Hok. unfold defaultSourceExt, defaultTargetExt, defaultExt.
    destruct (source_ext cfg); [tauto |]. destruct (target_ext cfg); [tauto |].
    split; reflexivity.
  - intros cfg st Hno.
    assert (Hok : ~ C_misconfigured cfg).
    { intros Hbad.
      destruct (CFacts.C_check_completion cfg (C_fresh st)) as [[_ [what Hw]] | [Hgood _]];
        [| tauto].
      apply (Hno what).
      change (C.parse cfg fs args st)
        with (C.CmdArgumentParser.parse cfg fs args (C_fresh st)).
      rewrite CProps.C_parse_run, Hw. reflexivity. }
    unfold C_misconfigured in Hok.
    unfold C.defaultSourceExt, C.defaultTargetExt, defaultExt.
    destruct (C.source_ext cfg); [tauto |]. destruct (C.target_ext cfg); [tauto |].
    split; reflexivity.
Qed.

(** The shipped configurations: [csv] in revision A, [txt] and [csv] in
    revision B, [rvm] and [obj] in revision C. *)
Lemma defaults_are_first_entries_witness :
  hd_error (target_ext demo) = Some (defaultTargetExt demo) /\
  (hd_error (source_ext demo) = Some (defaultSourceExt demo) /\
   hd_error (target_ext demo) = Some (defaultTargetExt demo)) /\
  (hd_error (C.source_ext C.demo) = Some (C.defaultSourceExt C.demo) /\
   hd_error (C.target_ext C.demo) = Some (C.defaultTargetExt C.demo)).
Proof.
  assert (HA : forall what, fst (A.parse demo demo_fs ["source.txt"] A.initial) <> Thrown what)
    by (intros what; vm_compute; discriminate).
  assert (HB : forall what, fst (B.parse demo demo_fs ["source.txt"] B.initial) <> Thrown what)
    by (intros what; vm_compute; discriminate).
  assert (HC : forall what, fst (C.parse C.demo demo_fs ["source.txt"] C.initial) <> Thrown what)
    by (intros what; vm_compute; discriminate).
  destruct (defaults_are_first_entries demo_fs ["source.txt"]) as (TA & TB & TC).
  split; [exact (TA demo A.initial HA) |].
  split; [exact (TB demo B.initial HB) | exact (TC C.demo C.initial HC)].
Defined.
